(** * My-first-RAG: a shallow embedding of [utils.py]

    The module wires a PDF loader, a text splitter, a hosted vector
    index, and a hosted language model into a retrieval-augmented
    question-answering pipeline.  This development embeds the functions
    of [utils.py] and proves the properties its specification states.

    Python strings are sequences of Unicode code points; they are
    modelled as lists of [N].  Library calls that leave the process
    (the index provider, the PDF loader, the model constructors) are
    calls into an explicit world with a failure oracle, threaded
    through a state-and-exception monad. *)

From Stdlib Require Import String Ascii List NArith Arith Bool Lia.
From Stdlib Require Import Permutation Sorted.
Import ListNotations.

(* ================================================================== *)
(** * Part I: definitions                                              *)
(* ================================================================== *)

(** ** Python strings *)

Definition pystr := list N.

Definition lit (s : string) : pystr :=
  map (fun a => N_of_ascii a) (list_ascii_of_string s).

Arguments lit s%_string.

Definition SPACE : N := 32%N.
Definition LBRACE : N := 123%N.
Definition RBRACE : N := 125%N.
Definition DQUOTE : N := 34%N.
Definition NEWLINE : N := 10%N.

(** [str.isspace] on one code point, which is also the class [\s] of a
    [str] pattern: both test CPython's Unicode whitespace property. *)
Definition py_isspace (c : N) : bool :=
  ((9 <=? c) && (c <=? 13) || (28 <=? c) && (c <=? 32)
   || (c =? 133) || (c =? 160) || (c =? 5760)
   || (8192 <=? c) && (c <=? 8202)
   || (c =? 8232) || (c =? 8233) || (c =? 8239) || (c =? 8287)
   || (c =? 12288))%N.

Arguments py_isspace c : simpl never.

(** ** [clean_text] *)

(** [re.sub(r'\s+', ' ', text)]: a left-to-right scan; [in_match] tells
    that the scan is inside a greedy match of [\s+], whose single
    replacement has been emitted already. *)
Fixpoint sub_ws (in_match : bool) (text : pystr) : pystr :=
  match text with
  | [] => []
  | c :: rest =>
      if py_isspace c
      then (if in_match then sub_ws true rest else SPACE :: sub_ws true rest)
      else c :: sub_ws false rest
  end.

Definition re_sub_ws (text : pystr) : pystr := sub_ws false text.

(** [str.lstrip()], [str.rstrip()] and [str.strip()] without argument. *)
Fixpoint lstrip (s : pystr) : pystr :=
  match s with
  | [] => []
  | c :: rest => if py_isspace c then lstrip rest else s
  end.

Definition rstrip (s : pystr) : pystr := rev (lstrip (rev s)).

Definition strip (s : pystr) : pystr := rstrip (lstrip s).

(** [utils.py], lines 149-151. *)
Definition clean_text (text : pystr) : pystr :=
  let text := re_sub_ws text in
  strip text.

(** *** The normalisation as the specification words it

    The text is cut into its maximal runs of whitespace and of
    non-whitespace; each whitespace run becomes one space; the ends are
    trimmed.  [runs] tags each run with its kind. *)
Fixpoint runs (s : pystr) : list (bool * pystr) :=
  match s with
  | [] => []
  | c :: rest =>
      match runs rest with
      | (b, run) :: others =>
          if Bool.eqb (py_isspace c) b
          then (b, c :: run) :: others
          else (py_isspace c, [c]) :: (b, run) :: others
      | [] => [(py_isspace c, [c])]
      end
  end.

(** Neighbouring runs are of different kinds. *)
Fixpoint alternating (rs : list (bool * pystr)) : bool :=
  match rs with
  | (b, _) :: (((b', _) :: _) as tail) => negb (Bool.eqb b b') && alternating tail
  | _ => true
  end.

Definition replace_run (r : bool * pystr) : pystr :=
  if fst r then [SPACE] else snd r.

Definition collapse_runs (s : pystr) : pystr :=
  flat_map replace_run (runs s).

(** A string in which every whitespace character is a single space
    standing alone; [prev_ws] tells that the character before is
    whitespace. *)
Fixpoint collapsed (prev_ws : bool) (s : pystr) : bool :=
  match s with
  | [] => true
  | c :: rest =>
      if py_isspace c
      then negb prev_ws && (c =? SPACE)%N && collapsed true rest
      else collapsed false rest
  end.

Definition starts_with_space (s : pystr) : bool :=
  match s with
  | [] => false
  | c :: _ => py_isspace c
  end.

Definition ends_with_space (s : pystr) : bool := starts_with_space (rev s).

(** ** Exceptions, results, and the world outside the process *)

(** The calls that leave [utils.py]: constructors and methods of the
    libraries it imports. *)
Inductive ext_op : Type :=
| OpPinecone            (* Pinecone(api_key=...) *)
| OpFastEmbed           (* FastEmbedEmbeddings() *)
| OpGoogleGenerativeAI  (* GoogleGenerativeAI(model=..., google_api_key=...) *)
| OpListIndexes         (* pc.list_indexes() *)
| OpCreateIndex         (* pc.create_index(...) *)
| OpDescribeIndex       (* pc.describe_index(name) *)
| OpIndex               (* pc.Index(name) *)
| OpVectorStore         (* PineconeVectorStore(index=..., embedding=...) *)
| OpAddDocuments        (* vector_store.add_documents(chunks) *)
| OpPdfLoad             (* PyPDFLoader(path).load() *)
| OpSplitDocuments      (* splitter.split_documents(documents) *)
| OpAsRetriever         (* vector_store.as_retriever(search_kwargs=...) *)
| OpRetrievalQA         (* RetrievalQA.from_chain_type(...) *)
| OpSimilaritySearch    (* the retriever's query against the index *)
| OpLLM.                (* the completion call to the hosted model *)

Inductive exn : Type :=
| AttributeError (owner attr : string)
| KeyError (key : pystr)
| IndexError
| ValueError (msg : string)
| Conflict (name : pystr)        (* the provider: the index exists already *)
| NotFound (name : pystr)        (* the provider: no such index *)
| FileError (path : pystr)       (* the loader: unreadable or malformed PDF *)
| DependencyError (code : nat).  (* any other failure of a dependency *)

(** [Pending]: the polling loop has not come to an end within the
    number of iterations examined. *)
Inductive result (A : Type) : Type :=
| Ok (a : A)
| Raise (e : exn)
| Pending.

Arguments Ok {A} a.
Arguments Raise {A} e.
Arguments Pending {A}.

(** A page or a chunk: [langchain_core.documents.Document]. *)
Record Document : Type := mkDocument {
  page_content : pystr;
  metadata : list (pystr * pystr)
}.

(** One index at the provider, with what [create_index] fixed. *)
Record Index : Type := mkIndex {
  ix_name : pystr;
  ix_dimension : nat;
  ix_metric : pystr;
  ix_cloud : pystr;
  ix_region : pystr;
  ix_vectors : list Document
}.

Inductive event : Type :=
| Printed (msg : pystr)
| Called (op : ext_op) (arg : pystr)   (* a dependency call that returned *)
| Failed (op : ext_op) (e : exn)       (* a dependency call that raised *)
| Slept (seconds : nat).

(** The world: a logical clock counting the dependency calls made so
    far, a failure oracle and a readiness oracle indexed by that clock
    (so that a dependency may fail or answer differently from one call
    to the next), the provider's indexes, the [resources/] directory,
    the environment variables, the similarity of a chunk to a question
    under the embedding, the hosted model's completion, and the trace
    of what the process has done. *)
Record World : Type := mkWorld {
  clock : nat;
  fault : nat -> ext_op -> option exn;
  ready : nat -> bool;
  indexes : list Index;
  resources : pystr -> option (list Document);
  environ : pystr -> option pystr;
  similarity : pystr -> Document -> N;
  completion : pystr -> pystr;
  trace : list event
}.

Definition set_clock (n : nat) (w : World) : World :=
  mkWorld n (fault w) (ready w) (indexes w) (resources w) (environ w)
          (similarity w) (completion w) (trace w).

Definition set_indexes (ixs : list Index) (w : World) : World :=
  mkWorld (clock w) (fault w) (ready w) ixs (resources w) (environ w)
          (similarity w) (completion w) (trace w).

Definition log (ev : event) (w : World) : World :=
  mkWorld (clock w) (fault w) (ready w) (indexes w) (resources w) (environ w)
          (similarity w) (completion w) (trace w ++ [ev]).

Definition tick (w : World) : World := set_clock (S (clock w)) w.

(** ** The monad of the module's functions: state and exceptions *)

Definition M (A : Type) : Type := World -> result A * World.

Definition ret {A : Type} (a : A) : M A := fun w => (Ok a, w).

Definition raise {A : Type} (e : exn) : M A := fun w => (Raise e, w).

(** Sequencing as Python has it: an exception raised by the first
    statement skips the rest. *)
Definition bind {A B : Type} (m : M A) (k : A -> M B) : M B :=
  fun w =>
    match m w with
    | (Ok a, w') => k a w'
    | (Raise e, w') => (Raise e, w')
    | (Pending, w') => (Pending, w')
    end.

Notation "x <- m ;; k" := (bind m (fun x => k))
  (at level 61, m at next level, right associativity).
Notation "m ;; k" := (bind m (fun _ => k))
  (at level 61, right associativity).

Definition print (msg : pystr) : M unit :=
  fun w => (Ok tt, log (Printed msg) w).

(** A call to a dependency: the clock advances; the oracle may make the
    call fail; otherwise the call acts on the world as [sem] says,
    which may itself raise. *)
Definition ext {A : Type} (op : ext_op) (arg : pystr)
           (sem : World -> result A * World) : M A :=
  fun w =>
    match fault w (clock w) op with
    | Some e => (Raise e, log (Failed op e) (tick w))
    | None =>
        match sem (tick w) with
        | (Ok a, w') => (Ok a, log (Called op arg) w')
        | (Raise e, w') => (Raise e, log (Failed op e) w')
        | (Pending, w') => (Pending, w')
        end
    end.

(** [while cond: body], examined for at most [fuel] evaluations of the
    condition. *)
Fixpoint while_loop (fuel : nat) (cond : M bool) (body : M unit) : M unit :=
  match fuel with
  | O => fun w => (Pending, w)
  | S fuel' =>
      c <- cond ;;
      if c then (body ;; while_loop fuel' cond body) else ret tt
  end.

(** [for x in xs: body]. *)
Fixpoint for_each {A : Type} (xs : list A) (body : A -> M unit) : M unit :=
  match xs with
  | [] => ret tt
  | x :: rest => body x ;; for_each rest body
  end.

Definition os_getenv (name : pystr) : M (option pystr) :=
  fun w => (Ok (environ w name), w).

(** ** The name [time]

    Line 1 is [from datetime import time]: in this module the name
    [time] is the class [datetime.time], not the module [time]. *)
Inductive pyobj : Type :=
| datetime_time   (* the class datetime.time *)
| time_module.    (* the module time *)

Definition attributes (o : pyobj) : list string :=
  match o with
  | datetime_time =>
      ["min"; "max"; "resolution"; "hour"; "minute"; "second"; "microsecond";
       "tzinfo"; "fold"; "replace"; "isoformat"; "fromisoformat"; "strftime";
       "utcoffset"; "dst"; "tzname"]%string
  | time_module =>
      ["sleep"; "time"; "monotonic"; "perf_counter"; "gmtime"; "localtime";
       "strftime"; "strptime"]%string
  end.

Definition type_name (o : pyobj) : string :=
  match o with
  | datetime_time => "datetime.time"%string
  | time_module => "time"%string
  end.

Definition hasattr (o : pyobj) (attr : string) : bool :=
  existsb (String.eqb attr) (attributes o).

Definition time : pyobj := datetime_time.

(** [o.sleep(seconds)]: the attribute is looked up first; only the
    module [time] has it. *)
Definition call_sleep (o : pyobj) (seconds : nat) : M unit :=
  if hasattr o "sleep"
  then (fun w => (Ok tt, log (Slept seconds) w))
  else raise (AttributeError (type_name o) "sleep").

(** ** The libraries' objects and calls *)

Fixpoint pystr_eqb (a b : pystr) : bool :=
  match a, b with
  | [], [] => true
  | x :: a', y :: b' => (x =? y)%N && pystr_eqb a' b'
  | _, _ => false
  end.

Fixpoint join (sep : pystr) (parts : list pystr) : pystr :=
  match parts with
  | [] => []
  | [p] => p
  | p :: rest => p ++ sep ++ join sep rest
  end.

(** A dict with string keys and string values, in insertion order. *)
Definition pydict := list (pystr * pystr).

Fixpoint dict_get (key : pystr) (d : pydict) : option pystr :=
  match d with
  | [] => None
  | (k, v) :: rest => if pystr_eqb k key then Some v else dict_get key rest
  end.

Record Pinecone : Type := mkPinecone { pc_api_key : option pystr }.
Record Embedding : Type := mkEmbedding { }.
Record IndexStatus : Type := mkIndexStatus { status_ready : bool }.
Record PineconeVectorStore : Type := mkVectorStore {
  vs_index : pystr;
  vs_embedding : Embedding
}.
Record GoogleGenerativeAI : Type := mkLLM {
  llm_model : pystr;
  llm_api_key : option pystr
}.

Definition has_index (name : pystr) (ixs : list Index) : bool :=
  existsb (fun ix => pystr_eqb (ix_name ix) name) ixs.

Definition Pinecone_new (api_key : option pystr) : M Pinecone :=
  ext OpPinecone [] (fun w => (Ok (mkPinecone api_key), w)).

Definition FastEmbedEmbeddings_new : M Embedding :=
  ext OpFastEmbed [] (fun w => (Ok mkEmbedding, w)).

Definition GoogleGenerativeAI_new (model : pystr) (api_key : option pystr)
  : M GoogleGenerativeAI :=
  ext OpGoogleGenerativeAI model (fun w => (Ok (mkLLM model api_key), w)).

Definition list_indexes (pc : Pinecone) : M (list Index) :=
  ext OpListIndexes [] (fun w => (Ok (indexes w), w)).

(** The provider refuses a name it has already. *)
Definition create_index (pc : Pinecone) (name : pystr) (dimension : nat)
           (metric cloud region : pystr) : M unit :=
  ext OpCreateIndex name
      (fun w =>
         if has_index name (indexes w)
         then (Raise (Conflict name), w)
         else (Ok tt,
               set_indexes
                 (indexes w ++ [mkIndex name dimension metric cloud region []]) w)).

Definition describe_index (pc : Pinecone) (name : pystr) : M IndexStatus :=
  ext OpDescribeIndex name
      (fun w =>
         if has_index name (indexes w)
         then (Ok (mkIndexStatus (ready w (clock w))), w)
         else (Raise (NotFound name), w)).

Definition pc_Index (pc : Pinecone) (name : pystr) : M pystr :=
  ext OpIndex name (fun w => (Ok name, w)).

Definition PineconeVectorStore_new (index : pystr) (embedding : Embedding)
  : M PineconeVectorStore :=
  ext OpVectorStore index (fun w => (Ok (mkVectorStore index embedding), w)).

Definition upsert (name : pystr) (chunks : list Document) (ix : Index) : Index :=
  if pystr_eqb (ix_name ix) name
  then mkIndex (ix_name ix) (ix_dimension ix) (ix_metric ix) (ix_cloud ix)
               (ix_region ix) (ix_vectors ix ++ chunks)
  else ix.

Definition add_documents (vs : PineconeVectorStore) (chunks : list Document)
  : M unit :=
  ext OpAddDocuments (vs_index vs)
      (fun w =>
         if has_index (vs_index vs) (indexes w)
         then (Ok tt, set_indexes (map (upsert (vs_index vs) chunks) (indexes w)) w)
         else (Raise (NotFound (vs_index vs)), w)).

Definition PyPDFLoader_load (path : pystr) : M (list Document) :=
  ext OpPdfLoad path
      (fun w =>
         match resources w path with
         | Some pages => (Ok pages, w)
         | None => (Raise (FileError path), w)
         end).

(** ** The text splitter *)

Record TextSplitter : Type := mkTextSplitter {
  chunk_size : nat;
  chunk_overlap : nat
}.

(** [utils.py], lines 51-53. *)
Definition getTextSplitter : TextSplitter :=
  let text_splitter := mkTextSplitter 400 50 in
  text_splitter.

(** Modelled from the spec: the splitting algorithm itself, which is
    [RecursiveCharacterTextSplitter.split_text] of the library
    [langchain_text_splitters] and is not among the sources.  The
    specification describes it as cutting the text into overlapping
    fixed-size windows: each chunk is a substring of at most
    [chunk_size] characters and shares [chunk_overlap] characters with
    its neighbour.  [windows] cuts a window of [size] characters every
    [step] characters until the rest fits into one window. *)
Fixpoint windows (fuel size step : nat) (text : pystr) : list pystr :=
  match fuel with
  | O => []
  | S fuel' =>
      if length text <=? size
      then match text with [] => [] | _ => [text] end
      else firstn size text :: windows fuel' size step (skipn step text)
  end.

Definition split_text (sp : TextSplitter) (text : pystr) : list pystr :=
  windows (length text) (chunk_size sp) (chunk_size sp - chunk_overlap sp) text.

(** The text that chunks cover when each shares [overlap] characters
    with the one before: the first chunk, then every later chunk
    without its first [overlap] characters. *)
Definition stitch (overlap : nat) (chunks : list pystr) : pystr :=
  match chunks with
  | [] => []
  | first :: later => first ++ concat (map (skipn overlap) later)
  end.

(** Every chunk begins with the last [overlap] characters of the chunk
    before it. *)
Fixpoint overlapping (overlap : nat) (chunks : list pystr) : Prop :=
  match chunks with
  | a :: ((b :: _) as later) =>
      skipn (length a - overlap) a = firstn overlap b
      /\ length (firstn overlap b) = overlap
      /\ overlapping overlap later
  | _ => True
  end.

(** Every chunk carries the metadata of the page it is cut from. *)
Definition split_document (sp : TextSplitter) (doc : Document) : list Document :=
  map (fun chunk => mkDocument chunk (metadata doc)) (split_text sp (page_content doc)).

Definition split_documents (sp : TextSplitter) (documents : list Document)
  : M (list Document) :=
  ext OpSplitDocuments [] (fun w => (Ok (flat_map (split_document sp) documents), w)).

(** ** Ingestion: [utils.py], lines 131-146 *)

Definition normalize_page (doc : Document) : Document :=
  mkDocument (clean_text (page_content doc)) (metadata doc).

Definition create_chunks (file_path : pystr) : M (list Document) :=
  documents <- PyPDFLoader_load (lit "resources/" ++ file_path) ;;
  let documents := map normalize_page documents in
  chunked_docs <- split_documents getTextSplitter documents ;;
  ret chunked_docs.

(** The loop of [add_documents_to_vector_store]; [chunks] is the list
    extended so far. *)
Fixpoint extend_chunks (pdfs : list pystr) (chunks : list Document)
  : M (list Document) :=
  match pdfs with
  | [] => ret chunks
  | pdf :: rest =>
      more <- create_chunks pdf ;;
      extend_chunks rest (chunks ++ more)
  end.

Definition add_documents_to_vector_store (vector_store : PineconeVectorStore)
           (pdfs : list pystr) : M unit :=
  chunks <- extend_chunks pdfs [] ;;
  add_documents vector_store chunks.

(** ** Provisioning: [utils.py], lines 18-48 *)

Definition getEmbeddingModel : M Embedding :=
  print (lit "Initializing embedding model...") ;;
  embedding_model <- FastEmbedEmbeddings_new ;;
  ret embedding_model.

(** The condition of the polling loop, line 42. *)
Definition not_ready (pc : Pinecone) (pc_index_name : pystr) : M bool :=
  st <- describe_index pc pc_index_name ;;
  ret (negb (status_ready st)).

Definition create_vector_store (fuel : nat) (pc : Pinecone) (pc_index_name : pystr)
           (pdf_files : list pystr) (embedding_model : Embedding)
  : M PineconeVectorStore :=
  create_index pc pc_index_name 384 (lit "cosine") (lit "aws") (lit "us-east-1") ;;
  while_loop fuel (not_ready pc pc_index_name) (call_sleep time 1) ;;
  print (lit "Successfully created vector store index '" ++ pc_index_name
           ++ lit "'. Adding pdf files to new index...") ;;
  index <- pc_Index pc pc_index_name ;;
  vector_store <- PineconeVectorStore_new index embedding_model ;;
  add_documents_to_vector_store vector_store pdf_files ;;
  ret vector_store.

Definition get_vector_store (fuel : nat) (pc_index_name : pystr)
           (pdf_files : list pystr) : M PineconeVectorStore :=
  print (lit "Initializing pinecone vector store...") ;;
  api_key <- os_getenv (lit "PINECONE_API_KEY") ;;
  pc <- Pinecone_new api_key ;;
  embedding_model <- getEmbeddingModel ;;
  infos <- list_indexes pc ;;
  let existing_indexes := map ix_name infos in
  (if negb (existsb (pystr_eqb pc_index_name) existing_indexes)
   then
     print (lit "Vector store index '" ++ pc_index_name
              ++ lit "' not found. Create new...") ;;
     create_vector_store fuel pc pc_index_name pdf_files embedding_model ;;
     ret tt
   else ret tt) ;;
  index <- pc_Index pc pc_index_name ;;
  PineconeVectorStore_new index embedding_model.

(** [utils.py], lines 62-66. *)
Definition getLLM : M GoogleGenerativeAI :=
  print (lit "Initializing LLM model...") ;;
  api_key <- os_getenv (lit "GOOGLE_API_KEY") ;;
  llm <- GoogleGenerativeAI_new (lit "gemini-2.0-flash") api_key ;;
  ret llm.

(** ** The prompt template: [utils.py], lines 69-105 *)

Definition RSQUO : N := 8217%N.     (* U+2019 *)
Definition EMDASH : N := 8212%N.    (* U+2014 *)
Definition CUPCAKE : N := 129473%N. (* U+1F9C1 *)

Record PromptTemplate : Type := mkPromptTemplate {
  template : pystr;
  input_variables : list pystr
}.

(** The first literal of the template, lines 72-95: the instructions and the [{context}] slot. *)
Definition template_head : pystr :=
  concat
    [ [NEWLINE];
      lit "            You are a helpful, friendly, and engaging AI assistant for **Icyco**, an ice cream shop. " ++ [NEWLINE];
      lit "            Your job is to answer user questions related to Icyco" ++ [RSQUO] ++ lit "s products, services, events, or company info in a way that is both informative and delightful." ++ [NEWLINE];
      lit "    " ++ [NEWLINE];
      lit "            Use the following retrieved documents to provide an accurate and engaging response." ++ [NEWLINE];
      lit "    " ++ [NEWLINE];
      lit "            - If the user" ++ [RSQUO] ++ lit "s question is **not related to Icyco**, politely respond with:  " ++ [NEWLINE];
      lit "              *" ++ [DQUOTE] ++ lit "I" ++ [RSQUO] ++ lit "m here to help with questions about Icyco only " ++ [EMDASH] ++ lit " let me know if there" ++ [RSQUO] ++ lit "s something specific you" ++ [RSQUO] ++ lit "re curious about!" ++ [DQUOTE] ++ lit "*" ++ [NEWLINE];
      lit "    " ++ [NEWLINE];
      lit "            - If the user" ++ [RSQUO] ++ lit "s question **is related to Icyco** but you **cannot find the answer** in the provided documents, say:  " ++ [NEWLINE];
      lit "              *" ++ [DQUOTE] ++ lit "That" ++ [RSQUO] ++ lit "s a great question about Icyco, but I couldn" ++ [RSQUO] ++ lit "t find the answer in the info I have. You might want to reach out to Icyco directly for the most up-to-date details!" ++ [DQUOTE] ++ lit "*" ++ [NEWLINE];
      lit "    " ++ [NEWLINE];
      lit "            Your tone should be:" ++ [NEWLINE];
      lit "            - Friendly and conversational " ++ [CUPCAKE] ++ lit "  " ++ [NEWLINE];
      lit "            - Engaging and easy to understand  " ++ [NEWLINE];
      lit "            - Accurate " ++ [EMDASH] ++ lit " don" ++ [RSQUO] ++ lit "t make up any information" ++ [NEWLINE];
      lit "    " ++ [NEWLINE];
      lit "            If it fits naturally, feel free to show enthusiasm, add a touch of personality, or relate to the excitement around ice cream!" ++ [NEWLINE];
      lit "    " ++ [NEWLINE];
      lit "            ---  " ++ [NEWLINE];
      lit "            Context:  " ++ [NEWLINE];
      lit "            {context}" ++ [NEWLINE];
      lit "            " ++ [NEWLINE];
      lit "            " ].

(** The third literal, lines 99-102: the [{question}] slot. *)
Definition template_tail : pystr :=
  concat
    [ [NEWLINE];
      lit "                    user: {question}" ++ [NEWLINE];
      lit "                    Assistant:" ++ [NEWLINE];
      lit "                    " ].

(** The second literal, lines 96-98, is an f-string: [chat_history] is
    put into the text when the template is built. *)
Definition template_history (chat_history : pystr) : pystr :=
  [NEWLINE] ++ lit "                " ++ chat_history ++ [NEWLINE]
    ++ lit "                ".

(** *** Format strings

    [PromptTemplate] handles its template as [string.Formatter] does.
    [tokenize] follows the scanner of format strings of CPython 3.11
    (the field parser behind [Formatter.parse] and [str.format]):
    literal text with [{{] and [}}] standing for one brace, and
    replacement fields [{name}], [{name!c}], [{name:spec}] and
    [{name!c:spec}].  A name may hold index parts in square brackets,
    inside which every character counts as part of the name; a format
    specification may hold nested braces.  The scan yields the tokens
    read and, when the string is malformed, the message of the
    [ValueError] raised where the scan stops. *)
Inductive token : Type :=
| Lit (c : N)
| Field (name : pystr) (conversion : option N) (spec : pystr).

Inductive scan_state : Type :=
| InLiteral
| InName (name : pystr) (bracket : bool)   (* [bracket]: inside [[...]] *)
| InConversion (name : pystr)              (* right after [!] *)
| AfterConversion (name : pystr) (conversion : N)
| InSpec (name : pystr) (conversion : option N) (spec : pystr) (depth : nat).

Definition scanned : Type := (list token * option string)%type.

Definition push (t : token) (p : scanned) : scanned := (t :: fst p, snd p).

Definition stop (msg : string) : scanned := ([], Some msg).

Definition BANG : N := 33%N.
Definition DOT : N := 46%N.
Definition COLON : N := 58%N.
Definition LBRACKET : N := 91%N.
Definition RBRACKET : N := 93%N.

Fixpoint tokenize (st : scan_state) (s : pystr) : scanned :=
  match s with
  | [] =>
      match st with
      | InLiteral => ([], None)
      | InName _ _ => stop "expected '}' before end of string"
      | InConversion _ => stop "end of string while looking for conversion specifier"
      | AfterConversion _ _ => stop "unmatched '{' in format spec"
      | InSpec _ _ _ _ => stop "unmatched '{' in format spec"
      end
  | c :: rest =>
      match st with
      | InLiteral =>
          if (c =? LBRACE)%N then
            match rest with
            | [] => stop "Single '{' encountered in format string"
            | d :: rest' =>
                if (d =? LBRACE)%N
                then push (Lit LBRACE) (tokenize InLiteral rest')
                else tokenize (InName [] false) rest
            end
          else if (c =? RBRACE)%N then
            match rest with
            | [] => stop "Single '}' encountered in format string"
            | d :: rest' =>
                if (d =? RBRACE)%N
                then push (Lit RBRACE) (tokenize InLiteral rest')
                else stop "Single '}' encountered in format string"
            end
          else push (Lit c) (tokenize InLiteral rest)
      | InName name true =>
          tokenize (InName (name ++ [c]) (negb (c =? RBRACKET)%N)) rest
      | InName name false =>
          if (c =? LBRACE)%N then stop "unexpected '{' in field name"
          else if (c =? RBRACE)%N
          then push (Field name None []) (tokenize InLiteral rest)
          else if (c =? COLON)%N then tokenize (InSpec name None [] 0) rest
          else if (c =? BANG)%N then tokenize (InConversion name) rest
          else tokenize (InName (name ++ [c]) (c =? LBRACKET)%N) rest
      | InConversion name => tokenize (AfterConversion name c) rest
      | AfterConversion name conversion =>
          if (c =? RBRACE)%N
          then push (Field name (Some conversion) []) (tokenize InLiteral rest)
          else if (c =? COLON)%N
          then tokenize (InSpec name (Some conversion) [] 0) rest
          else stop "expected ':' after conversion specifier"
      | InSpec name conversion spec depth =>
          if (c =? LBRACE)%N
          then tokenize (InSpec name conversion (spec ++ [c]) (S depth)) rest
          else if (c =? RBRACE)%N then
            match depth with
            | O => push (Field name conversion spec) (tokenize InLiteral rest)
            | S depth' => tokenize (InSpec name conversion (spec ++ [c]) depth') rest
            end
          else tokenize (InSpec name conversion (spec ++ [c]) depth) rest
      end
  end.

Definition field_names (tokens : list token) : list pystr :=
  flat_map (fun t => match t with
                     | Field name _ _ => [name]
                     | Lit _ => []
                     end) tokens.

(** *** Digits

    [str.isdecimal] and [str.isdigit] on one code point (Unicode 14, as
    in CPython 3.11): the ASCII digits, and beyond ASCII the code points
    of the tables below.  Every range of decimal digits starts at a
    digit zero, so that the value of a decimal digit is its offset in
    its range modulo ten. *)
Definition in_ranges (c : N) (ranges : list (N * N)) : bool :=
  existsb (fun r => (fst r <=? c) && (c <=? snd r))%N ranges.

Definition decimal_ranges : list (N * N) :=
  [(1632, 1641); (1776, 1785); (1984, 1993); (2406, 2415); (2534, 2543);
   (2662, 2671); (2790, 2799); (2918, 2927); (3046, 3055); (3174, 3183);
   (3302, 3311); (3430, 3439); (3558, 3567); (3664, 3673); (3792, 3801);
   (3872, 3881); (4160, 4169); (4240, 4249); (6112, 6121); (6160, 6169);
   (6470, 6479); (6608, 6617); (6784, 6793); (6800, 6809); (6992, 7001);
   (7088, 7097); (7232, 7241); (7248, 7257); (42528, 42537); (43216, 43225);
   (43264, 43273); (43472, 43481); (43504, 43513); (43600, 43609);
   (44016, 44025); (65296, 65305); (66720, 66729); (68912, 68921);
   (69734, 69743); (69872, 69881); (69942, 69951); (70096, 70105);
   (70384, 70393); (70736, 70745); (70864, 70873); (71248, 71257);
   (71360, 71369); (71472, 71481); (71904, 71913); (72016, 72025);
   (72784, 72793); (73040, 73049); (73120, 73129); (92768, 92777);
   (92864, 92873); (93008, 93017); (120782, 120831); (123200, 123209);
   (123632, 123641); (125264, 125273); (130032, 130041)]%N.

Definition digit_ranges : list (N * N) :=
  [(178, 179); (185, 185); (1632, 1641); (1776, 1785); (1984, 1993);
   (2406, 2415); (2534, 2543); (2662, 2671); (2790, 2799); (2918, 2927);
   (3046, 3055); (3174, 3183); (3302, 3311); (3430, 3439); (3558, 3567);
   (3664, 3673); (3792, 3801); (3872, 3881); (4160, 4169); (4240, 4249);
   (4969, 4977); (6112, 6121); (6160, 6169); (6470, 6479); (6608, 6618);
   (6784, 6793); (6800, 6809); (6992, 7001); (7088, 7097); (7232, 7241);
   (7248, 7257); (8304, 8304); (8308, 8313); (8320, 8329); (9312, 9320);
   (9332, 9340); (9352, 9360); (9450, 9450); (9461, 9469); (9471, 9471);
   (10102, 10110); (10112, 10120); (10122, 10130); (42528, 42537);
   (43216, 43225); (43264, 43273); (43472, 43481); (43504, 43513);
   (43600, 43609); (44016, 44025); (65296, 65305); (66720, 66729);
   (68160, 68163); (68912, 68921); (69216, 69224); (69714, 69722);
   (69734, 69743); (69872, 69881); (69942, 69951); (70096, 70105);
   (70384, 70393); (70736, 70745); (70864, 70873); (71248, 71257);
   (71360, 71369); (71472, 71481); (71904, 71913); (72016, 72025);
   (72784, 72793); (73040, 73049); (73120, 73129); (92768, 92777);
   (92864, 92873); (93008, 93017); (120782, 120831); (123200, 123209);
   (123632, 123641); (125264, 125273); (127232, 127242); (130032, 130041)]%N.

Definition ascii_digit (c : N) : bool := ((48 <=? c) && (c <=? 57))%N.

Definition py_isdecimal (c : N) : bool :=
  ascii_digit c || ((128 <=? c)%N && in_ranges c decimal_ranges).

Definition py_isdigit (c : N) : bool :=
  ascii_digit c || ((128 <=? c)%N && in_ranges c digit_ranges).

Definition digit_value (c : N) : N :=
  if ascii_digit c then (c - 48)%N
  else match find (fun r => (fst r <=? c) && (c <=? snd r))%N decimal_ranges with
       | Some r => ((c - fst r) mod 10)%N
       | None => 0%N
       end.

Definition decimal_value (digits : pystr) : N :=
  fold_left (fun acc c => (acc * 10 + digit_value c)%N) digits 0%N.

(** [name.isdigit()]. *)
Definition str_isdigit (name : pystr) : bool :=
  match name with
  | [] => false
  | _ => forallb py_isdigit name
  end.

(** A name that reads as a number: it stands for a positional argument. *)
Definition str_isindex (name : pystr) : bool :=
  match name with
  | [] => false
  | _ => forallb py_isdecimal name
  end.

(** The largest index the scanner accepts (the largest [Py_ssize_t] of
    a 64-bit build). *)
Definition max_index : N := 9223372036854775807%N.

(** *** Constructing a template

    [PromptTemplate(template=..., input_variables=...)] of
    [langchain_core] with the default f-string format: the constructor
    parses the whole template and raises a [ValueError] if it is
    malformed, or if the name of a replacement field holds an attribute
    or index access or is all digits; the input variables of the
    template are the names of its fields, as a sorted list without
    repetition, whatever list is passed.  (Messages of the library are
    abridged.) *)
Fixpoint pystr_ltb (a b : pystr) : bool :=
  match a, b with
  | _, [] => false
  | [], _ :: _ => true
  | x :: a', y :: b' => (x <? y)%N || ((x =? y)%N && pystr_ltb a' b')
  end.

Fixpoint insert_name (name : pystr) (sorted : list pystr) : list pystr :=
  match sorted with
  | [] => [name]
  | x :: rest =>
      if pystr_eqb name x then sorted
      else if pystr_ltb name x then name :: sorted
      else x :: insert_name name rest
  end.

Definition sorted_set (names : list pystr) : list pystr :=
  fold_right insert_name [] names.

Definition invalid_variable (name : pystr) : bool :=
  existsb (fun c => (c =? DOT) || (c =? LBRACKET) || (c =? RBRACKET))%N name
  || str_isdigit name.

Definition template_variables (template : pystr) : string + list pystr :=
  match tokenize InLiteral template with
  | (_, Some msg) => inl msg
  | (tokens, None) =>
      if existsb invalid_variable (field_names tokens)
      then inl "Invalid variable name in f-string template"%string
      else inr (sorted_set (field_names tokens))
  end.

Definition PromptTemplate_new (template : pystr) (input_variables : list pystr)
  : M PromptTemplate :=
  match template_variables template with
  | inl msg => raise (ValueError msg)
  | inr variables => ret (mkPromptTemplate template variables)
  end.

(** [utils.py], lines 69-105. *)
Definition getPromptTemplate (chat_history : pystr) : M PromptTemplate :=
  print (lit "Initializing prompt template...") ;;
  prompt_template <-
    PromptTemplate_new
      (template_head ++ template_history chat_history ++ template_tail)
      [lit "context"; lit "question"] ;;
  ret prompt_template.

(** *** Formatting a template

    [PromptTemplate.format] fills the template as [string.Formatter]
    does, with keyword arguments only.  The tokens are handled in
    order.  For a field, the argument is looked up first: an empty name
    or a name that reads as a number asks for a positional argument and
    raises [IndexError] (a number beyond [max_index] raises
    [ValueError]); any other name is looked up, up to its first [.] or
    [[], among the keyword arguments and raises [KeyError] if it is not
    there.  A string found is put in as it is when the field has no
    attribute or index part, no format specification, and no conversion
    or the conversion [s].  What a field does to its argument otherwise
    is outside what is modelled: the outcome is [Unmodelled]. *)
Inductive format_result : Type :=
| Formatted (text : pystr)
| FormatRaises (e : exn)
| Unmodelled.

Definition fmt_prefix (p : pystr) (r : format_result) : format_result :=
  match r with
  | Formatted text => Formatted (p ++ text)
  | other => other
  end.

(** The part of a field name in front of its first [.] or [[], and the
    rest. *)
Fixpoint first_part (name : pystr) : pystr * pystr :=
  match name with
  | [] => ([], [])
  | c :: rest =>
      if ((c =? DOT) || (c =? LBRACKET))%N then ([], name)
      else (c :: fst (first_part rest), snd (first_part rest))
  end.

Definition plain_conversion (conversion : option N) : bool :=
  match conversion with
  | None => true
  | Some c => (c =? 115)%N     (* s *)
  end.

Definition is_empty (s : pystr) : bool :=
  match s with
  | [] => true
  | _ => false
  end.

Definition fill_field (kw : pydict) (name : pystr) (conversion : option N)
           (spec : pystr) : format_result :=
  if is_empty name then FormatRaises IndexError          (* automatic numbering *)
  else if str_isindex (fst (first_part name)) then
    if (max_index <? decimal_value (fst (first_part name)))%N
    then FormatRaises (ValueError "Too many decimal digits in format string")
    else FormatRaises IndexError
  else
    match dict_get (fst (first_part name)) kw with
    | None => FormatRaises (KeyError (fst (first_part name)))
    | Some value =>
        if is_empty (snd (first_part name)) && is_empty spec
           && plain_conversion conversion
        then Formatted value
        else Unmodelled
    end.

Fixpoint format_tokens (kw : pydict) (tokens : list token) (error : option string)
  : format_result :=
  match tokens with
  | [] =>
      match error with
      | None => Formatted []
      | Some msg => FormatRaises (ValueError msg)
      end
  | Lit c :: rest => fmt_prefix [c] (format_tokens kw rest error)
  | Field name conversion spec :: rest =>
      match fill_field kw name conversion spec with
      | Formatted value => fmt_prefix value (format_tokens kw rest error)
      | other => other
      end
  end.

Definition vformat (kw : pydict) (s : pystr) : format_result :=
  format_tokens kw (fst (tokenize InLiteral s)) (snd (tokenize InLiteral s)).

Definition PromptTemplate_format (p : PromptTemplate) (kw : pydict) : format_result :=
  vformat kw (template p).

(** The prompt of one question: the chain passes the retrieved text as
    [context] and the user's text as [question]. *)
Definition assemble (p : PromptTemplate) (context question : pystr) : format_result :=
  PromptTemplate_format p [(lit "context", context); (lit "question", question)].

Definition brace_free (s : pystr) : bool :=
  forallb (fun c => negb ((c =? LBRACE) || (c =? RBRACE))%N) s.

(** The fixed text of the template around its two slots and around the
    chat history. *)
Definition before_context : pystr := firstn 1303 template_head.
Definition after_context : pystr := skipn 1312 template_head.
Definition before_question : pystr := firstn 27 template_tail.
Definition after_question : pystr := skipn 37 template_tail.

Definition history_indent : pystr := [NEWLINE] ++ lit "                ".

(** The prompt of a question when nothing in the chat history is taken
    for a replacement field. *)
Definition prompt_text (context chat_history question : pystr) : pystr :=
  before_context ++ context ++ (after_context ++ history_indent)
    ++ chat_history ++ (history_indent ++ before_question)
    ++ question ++ after_question.

(** [a], [b] and [c] occur in [s] in this order, without overlap. *)
Definition in_order (a b c s : pystr) : Prop :=
  exists p0 p1 p2 p3, s = p0 ++ a ++ p1 ++ b ++ p2 ++ c ++ p3.

(** ** The retrieval chain: [utils.py], lines 108-118 *)

Record Retriever : Type := mkRetriever {
  retriever_store : PineconeVectorStore;
  search_k : nat                         (* search_kwargs["k"] *)
}.

Record RetrievalQA : Type := mkRetrievalQA {
  qa_llm : GoogleGenerativeAI;
  qa_retriever : Retriever;
  qa_chain_type : pystr;
  qa_return_source_documents : bool;
  qa_prompt : PromptTemplate
}.

Definition as_retriever (vs : PineconeVectorStore) (k : nat) : M Retriever :=
  ext OpAsRetriever [] (fun w => (Ok (mkRetriever vs k), w)).

Definition from_chain_type (llm : GoogleGenerativeAI) (retriever : Retriever)
           (chain_type : pystr) (return_source_documents : bool)
           (prompt : PromptTemplate) : M RetrievalQA :=
  ext OpRetrievalQA chain_type
      (fun w => (Ok (mkRetrievalQA llm retriever chain_type
                                   return_source_documents prompt), w)).

Definition createRagChain (llm : GoogleGenerativeAI)
           (vector_store : PineconeVectorStore) (prompt_template : PromptTemplate)
  : M RetrievalQA :=
  print (NEWLINE :: lit "Initializing QA RAG system...") ;;
  retriever <- as_retriever vector_store 3 ;;
  qa_chain <- from_chain_type llm retriever (lit "stuff") true prompt_template ;;
  print (lit "The RAG system is successfully initialized. ") ;;
  ret qa_chain.

(** The answer of the chain: the keys [result] and, when asked for,
    [source_documents]. *)
Record Response : Type := mkResponse {
  response_result : pystr;
  response_source_documents : option (list Document)
}.

(** Chunks ordered from the nearest to the farthest: a stable insertion
    sort by decreasing similarity. *)
Fixpoint insert_nearest (score : Document -> N) (d : Document)
         (sorted : list Document) : list Document :=
  match sorted with
  | [] => [d]
  | x :: rest =>
      if (score x <? score d)%N
      then d :: sorted
      else x :: insert_nearest score d rest
  end.

Definition nearest_first (score : Document -> N) (docs : list Document)
  : list Document :=
  fold_right (insert_nearest score) [] docs.

Definition top_k (k : nat) (score : Document -> N) (docs : list Document)
  : list Document :=
  firstn k (nearest_first score docs).

(** From the nearest to the farthest. *)
Definition by_nearness (score : Document -> N) : list Document -> Prop :=
  StronglySorted (fun a b => (score b <= score a)%N).

Definition find_index (name : pystr) (ixs : list Index) : option Index :=
  find (fun ix => pystr_eqb (ix_name ix) name) ixs.

(** Modelled from the spec: what the chain does with one question,
    which is [RetrievalQA] of the library [langchain] and is not among
    the sources.  As the specification has it, the chain fetches the
    [k] nearest chunks by embedding similarity from the vector store,
    substitutes their concatenated text for [{context}] and the question
    for [{question}] in the prompt template, sends the result to the
    hosted model, and returns the generated answer together with the
    retrieved chunks. *)
Definition retrieve (r : Retriever) (question : pystr) : M (list Document) :=
  ext OpSimilaritySearch question
      (fun w =>
         match find_index (vs_index (retriever_store r)) (indexes w) with
         | Some ix =>
             (Ok (top_k (search_k r) (similarity w question) (ix_vectors ix)), w)
         | None => (Raise (NotFound (vs_index (retriever_store r))), w)
         end).

Definition complete (llm : GoogleGenerativeAI) (prompt : pystr) : M pystr :=
  ext OpLLM prompt (fun w => (Ok (completion w prompt), w)).

(** A template that cannot be filled raises; a replacement field outside
    the modelled grammar is reported as an error as well. *)
Definition format_prompt (p : PromptTemplate) (context question : pystr) : M pystr :=
  match assemble p context question with
  | Formatted text => ret text
  | FormatRaises e => raise e
  | Unmodelled => raise (ValueError "replacement field outside the modelled grammar")
  end.

(** Modelled from the spec: the run of the chain on one question
    ([RetrievalQA] of the library, not among the sources), in the
    specification's order: retrieval, prompt assembly, the call to the
    hosted model, and the answer returned with the retrieved chunks. *)
Definition RetrievalQA_invoke (qa : RetrievalQA) (question : pystr) : M Response :=
  docs <- retrieve (qa_retriever qa) question ;;
  let context := join [NEWLINE; NEWLINE] (map page_content docs) in
  prompt <- format_prompt (qa_prompt qa) context question ;;
  answer <- complete (qa_llm qa) prompt ;;
  ret (mkResponse answer
                  (if qa_return_source_documents qa then Some docs else None)).

(** ** Presentation: [utils.py], lines 121-128 *)

Definition getitem (key : pystr) (d : pydict) : M pystr :=
  match dict_get key d with
  | Some v => ret v
  | None => raise (KeyError key)
  end.

Definition printResponse (response : Response) : M unit :=
  print (NEWLINE :: lit "=== Answer ===") ;;
  print (response_result response) ;;
  print (lit "=== Source Documents ===") ;;
  docs <- match response_source_documents response with
          | Some docs => ret docs
          | None => raise (KeyError (lit "source_documents"))
          end ;;
  for_each docs
    (fun doc =>
       title <- getitem (lit "title") (metadata doc) ;;
       page_label <- getitem (lit "page_label") (metadata doc) ;;
       print (NEWLINE :: title ++ lit ", Page no: " ++ page_label ++ lit ":") ;;
       print (lit "Document content: " ++ page_content doc ++ lit "...")).

(** ** Reading a trace *)

(** The calls of index creation. *)
Definition creation_event (ev : event) : bool :=
  match ev with
  | Called OpCreateIndex _ | Failed OpCreateIndex _
  | Called OpDescribeIndex _ | Failed OpDescribeIndex _ => true
  | _ => false
  end.

(** The calls of the ingestion step, [add_documents_to_vector_store]. *)
Definition ingestion_event (ev : event) : bool :=
  match ev with
  | Called OpPdfLoad _ | Failed OpPdfLoad _
  | Called OpSplitDocuments _ | Failed OpSplitDocuments _
  | Called OpAddDocuments _ | Failed OpAddDocuments _ => true
  | _ => false
  end.

Definition sleep_event (ev : event) : bool :=
  match ev with
  | Slept _ => true
  | _ => false
  end.

Definition failure_event (ev : event) : bool :=
  match ev with
  | Failed _ _ => true
  | _ => false
  end.

Definition describe_event (ev : event) : bool :=
  match ev with
  | Called OpDescribeIndex _ | Failed OpDescribeIndex _ => true
  | _ => false
  end.

(** A computation lets every failure of a dependency through: when a
    dependency call fails during a run, the run ends there, raising
    that very exception. *)
Definition propagates {A : Type} (m : M A) : Prop :=
  forall w r w' evs op e,
    m w = (r, w') ->
    trace w' = trace w ++ evs ->
    In (Failed op e) evs ->
    r = Raise e /\ exists before, evs = before ++ [Failed op e].

(** The invariant behind [propagates]: the events of a run are free of
    failures, or the run ends with the one failure it raises. *)
Definition quiet (evs : list event) : Prop :=
  Forall (fun ev => failure_event ev = false) evs.

Definition faithful {A : Type} (m : M A) : Prop :=
  forall w r w',
    m w = (r, w') ->
    exists evs,
      trace w' = trace w ++ evs /\
      (quiet evs \/
       exists before op e,
         evs = before ++ [Failed op e] /\ quiet before /\ r = Raise e).

(** What a dependency does to the world when it does not fail through
    the oracle: it leaves the trace to [ext] and comes to an end. *)
Definition silent {A : Type} (sem : World -> result A * World) : Prop :=
  forall v r v', sem v = (r, v') -> trace v' = trace v /\ r <> Pending.

(** A computation leaves the provider's index names as they are. *)
Definition keeps_names {A : Type} (m : M A) : Prop :=
  forall w r w' n,
    m w = (r, w') -> has_index n (indexes w') = has_index n (indexes w).

Definition sem_keeps_names {A : Type} (sem : World -> result A * World) : Prop :=
  forall v r v' n,
    sem v = (r, v') -> has_index n (indexes v') = has_index n (indexes v).

(** The path of [get_vector_store] through an index that exists: lines
    19-22 and 28-29, without the branch of lines 24-26. *)
Definition reuse_vector_store (pc_index_name : pystr) : M PineconeVectorStore :=
  print (lit "Initializing pinecone vector store...") ;;
  api_key <- os_getenv (lit "PINECONE_API_KEY") ;;
  pc <- Pinecone_new api_key ;;
  embedding_model <- getEmbeddingModel ;;
  infos <- list_indexes pc ;;
  index <- pc_Index pc pc_index_name ;;
  PineconeVectorStore_new index embedding_model.

(** ** Sample worlds *)

Definition no_fault : nat -> ext_op -> option exn := fun _ _ => None.

Definition sample_page : Document :=
  mkDocument (lit "  Icyco offers   vanilla, chocolate,  and strawberry flavors. ")
             [(lit "title", lit "Icyco menu"); (lit "page_label", lit "1")].

Definition sample_resources (path : pystr) : option (list Document) :=
  if pystr_eqb path (lit "resources/menu.pdf") then Some [sample_page] else None.

(** A provider without indexes that answers [ready_answer] to every
    readiness question; no dependency fails. *)
Definition fresh_world (ready_answer : bool) : World :=
  mkWorld 0 no_fault (fun _ => ready_answer) [] sample_resources
          (fun _ => None) (fun _ d => N.of_nat (length (page_content d)))
          (fun prompt => lit "Vanilla, chocolate and strawberry!") [].

Definition sample_pc : Pinecone := mkPinecone None.

Definition sample_chunks : list Document :=
  [mkDocument (lit "Cones") []; mkDocument (lit "Vanilla and chocolate") [];
   mkDocument (lit "Opening hours") []; mkDocument (lit "Strawberry") []].

(** A provider that holds the index [icyco] with four chunks. *)
Definition stocked_world : World :=
  set_indexes
    [mkIndex (lit "icyco") 384 (lit "cosine") (lit "aws") (lit "us-east-1")
             sample_chunks]
    (fresh_world true).

Definition sample_llm : GoogleGenerativeAI := mkLLM (lit "gemini-2.0-flash") None.

Definition sample_store : PineconeVectorStore := mkVectorStore (lit "icyco") mkEmbedding.

Definition sample_prompt : PromptTemplate :=
  mkPromptTemplate (template_head ++ template_history (lit "user: hi") ++ template_tail)
                   [lit "context"; lit "question"].

(** ** Further notions for the prompt *)

(** A keyword name: ASCII letters, digits and underscores, not starting
    with a digit. *)
Definition name_start (c : N) : bool :=
  ((65 <=? c) && (c <=? 90) || (97 <=? c) && (c <=? 122) || (c =? 95))%N.

Definition name_char (c : N) : bool := name_start c || ascii_digit c.

Definition keyword_name (name : pystr) : bool :=
  match name with
  | [] => false
  | c :: rest => name_start c && forallb name_char rest
  end.

(** ** Further notions for runs *)

(** Every run of the computation returns or raises within the loop
    iterations examined. *)
Definition comes_to_an_end {A : Type} (m : M A) : Prop :=
  forall w r w', m w = (r, w') -> r <> Pending.

(** No run of the computation sleeps, and none asks the provider for
    the status of an index more than [n] times. *)
Definition calm (n : nat) {A : Type} (m : M A) : Prop :=
  forall w r w',
    m w = (r, w') ->
    exists evs,
      trace w' = trace w ++ evs
      /\ existsb sleep_event evs = false
      /\ length (filter describe_event evs) <= n.

(** Every run of the computation takes a world to one related by [R]. *)
Definition respects (R : World -> World -> Prop) {A : Type} (m : M A) : Prop :=
  forall w r w', m w = (r, w') -> R w w'.

Definition same_indexes (w w' : World) : Prop := indexes w' = indexes w.

Definition same_resources (w w' : World) : Prop := resources w' = resources w.

(** The request that writes to an index. *)
Definition upsert_event (ev : event) : bool :=
  match ev with
  | Called OpAddDocuments _ | Failed OpAddDocuments _ => true
  | _ => false
  end.

(** What loading and splitting do to the world: the indexes and the
    [resources/] directory stay as they are, and nothing is sent to an
    index. *)
Definition loading_only (w w' : World) : Prop :=
  indexes w' = indexes w
  /\ resources w' = resources w
  /\ exists evs, trace w' = trace w ++ evs /\ existsb upsert_event evs = false.

Definition readable (w : World) (pdf : pystr) : Prop :=
  resources w (lit "resources/" ++ pdf) <> None.

(** The index [create_vector_store] asks the provider for. *)
Definition new_index (name : pystr) (chunks : list Document) : Index :=
  mkIndex name 384 (lit "cosine") (lit "aws") (lit "us-east-1") chunks.

(** The chunks of one PDF: its pages normalised, then split. *)
Definition pdf_chunks (pages : list Document) : list Document :=
  flat_map (split_document getTextSplitter) (map normalize_page pages).

(** The chunks of the PDFs of a list, in the order of the list, as the
    [resources/] directory of the world has them. *)
Definition all_chunks (w : World) (pdfs : list pystr) : list Document :=
  flat_map (fun pdf =>
              match resources w (lit "resources/" ++ pdf) with
              | Some pages => pdf_chunks pages
              | None => []
              end) pdfs.

(** A source document [printResponse] can print: its metadata has the
    two keys read. *)
Definition has_key (key : pystr) (d : pydict) : bool :=
  match dict_get key d with
  | Some _ => true
  | None => false
  end.

Definition printable (doc : Document) : bool :=
  has_key (lit "title") (metadata doc) && has_key (lit "page_label") (metadata doc).

(** The documents in front of the first one that cannot be printed. *)
Fixpoint printable_prefix (docs : list Document) : list Document :=
  match docs with
  | [] => []
  | doc :: rest => if printable doc then doc :: printable_prefix rest else []
  end.

(** The key whose absence stops [printResponse] at a document. *)
Definition missing_key (doc : Document) : pystr :=
  if has_key (lit "title") (metadata doc) then lit "page_label" else lit "title".

(** The two lines [printResponse] prints for a source document. *)
Definition doc_lines (doc : Document) : list event :=
  match dict_get (lit "title") (metadata doc),
        dict_get (lit "page_label") (metadata doc) with
  | Some title, Some page_label =>
      [Printed (NEWLINE :: title ++ lit ", Page no: " ++ page_label ++ lit ":");
       Printed (lit "Document content: " ++ page_content doc ++ lit "...")]
  | _, _ => []
  end.

(** The three lines printed before the source documents. *)
Definition answer_lines (response : Response) : list event :=
  [Printed (NEWLINE :: lit "=== Answer ===");
   Printed (response_result response);
   Printed (lit "=== Source Documents ===")].

(** How [printResponse] ends on a list of source documents: with the
    [KeyError] of the first document that lacks a key, if there is
    one. *)
Definition print_outcome (docs : list Document) : result unit :=
  match find (fun doc => negb (printable doc)) docs with
  | Some doc => Raise (KeyError (missing_key doc))
  | None => Ok tt
  end.

(* ================================================================== *)
(** * Part II: lemmas and theorems                                     *)
(* ================================================================== *)

(** ** Whitespace normalisation *)

Lemma sub_ws_collapsed (b : bool) (s : pystr) :
  collapsed b (sub_ws b s) = true.
Proof.
  revert b; induction s as [|c s IH]; intros b; simpl; [reflexivity|].
  destruct (py_isspace c) eqn:Hc.
  - destruct b; simpl; apply IH.
  - simpl. rewrite Hc. apply IH.
Qed.

Lemma collapsed_sub_ws (b : bool) (s : pystr) :
  collapsed b s = true -> sub_ws b s = s.
Proof.
  revert b; induction s as [|c s IH]; intros b; simpl; [reflexivity|].
  destruct (py_isspace c) eqn:Hc; intros H.
  - apply andb_prop in H as [H H3]. apply andb_prop in H as [H1 H2].
    destruct b; [discriminate|].
    apply N.eqb_eq in H2. subst c. f_equal. now apply IH.
  - f_equal. now apply IH.
Qed.


Lemma collapsed_lstrip (b : bool) (s : pystr) :
  collapsed b s = true -> collapsed false (lstrip s) = true.
Proof.
  revert b; induction s as [|c s IH]; intros b; simpl; [reflexivity|].
  destruct (py_isspace c) eqn:Hc; intros H.
  - apply andb_prop in H as [_ H]. now apply IH with (b := true).
  - simpl. now rewrite Hc.
Qed.

Lemma lstrip_app_nonspace (s t : pystr) (c : N) :
  py_isspace c = false -> lstrip (s ++ c :: t) = lstrip s ++ c :: t.
Proof.
  intros Hc. induction s as [|d s IH]; simpl.
  - now rewrite Hc.
  - destruct (py_isspace d); [exact IH|reflexivity].
Qed.

Lemma lstrip_all_space (s : pystr) :
  forallb py_isspace s = true -> lstrip s = [].
Proof.
  induction s as [|c s IH]; simpl; [reflexivity|].
  destruct (py_isspace c); simpl; [exact IH|discriminate].
Qed.


Lemma forallb_rev_eq (A : Type) (f : A -> bool) (l : list A) :
  forallb f (rev l) = forallb f l.
Proof.
  induction l as [|x l IH]; simpl; [reflexivity|].
  rewrite forallb_app, IH. simpl. rewrite andb_true_r. apply andb_comm.
Qed.

(** The structural equation of [rstrip]. *)
Lemma rstrip_cons (c : N) (s : pystr) :
  rstrip (c :: s) =
  if forallb py_isspace (c :: s) then [] else c :: rstrip s.
Proof.
  unfold rstrip. simpl rev.
  destruct (forallb py_isspace (c :: s)) eqn:Hall.
  - rewrite lstrip_all_space; [reflexivity|].
    rewrite forallb_app, forallb_rev_eq. simpl in *.
    apply andb_prop in Hall as [-> ->]. reflexivity.
  - simpl in Hall. destruct (py_isspace c) eqn:Hc; simpl in Hall.
    + (* some character of [s] is not whitespace *)
      assert (Hs : exists u d v, rev s = u ++ d :: v /\ py_isspace d = false).
      { assert (Hr : forallb py_isspace (rev s) = false)
          by now rewrite forallb_rev_eq.
        clear - Hr. induction (rev s) as [|x l IH]; simpl in Hr; [discriminate|].
        destruct (py_isspace x) eqn:Hx.
        - destruct (IH Hr) as (u & d & v & -> & Hd).
          now exists (x :: u), d, v.
        - now exists [], x, l. }
      destruct Hs as (u & d & v & Hrev & Hd).
      rewrite Hrev, <- app_assoc. simpl.
      rewrite !lstrip_app_nonspace by exact Hd.
      change (d :: v ++ [c]) with ((d :: v) ++ [c]).
      rewrite app_assoc, rev_app_distr. reflexivity.
    + rewrite lstrip_app_nonspace by exact Hc.
      rewrite rev_app_distr. reflexivity.
Qed.


Lemma rstrip_all_space_eq (s : pystr) :
  forallb py_isspace (rstrip s) = forallb py_isspace s.
Proof.
  induction s as [|c s IH]; [reflexivity|].
  rewrite rstrip_cons.
  destruct (forallb py_isspace (c :: s)) eqn:Hall; [reflexivity|].
  simpl in *. now rewrite IH.
Qed.

Lemma rstrip_idem (s : pystr) : rstrip (rstrip s) = rstrip s.
Proof.
  induction s as [|c s IH]; [reflexivity|].
  rewrite rstrip_cons.
  destruct (forallb py_isspace (c :: s)) eqn:Hall; [reflexivity|].
  rewrite rstrip_cons. simpl in *.
  now rewrite rstrip_all_space_eq, Hall, IH.
Qed.

Lemma collapsed_rstrip (b : bool) (s : pystr) :
  collapsed b s = true -> collapsed b (rstrip s) = true.
Proof.
  revert b; induction s as [|c s IH]; intros b H; [reflexivity|].
  rewrite rstrip_cons.
  destruct (forallb py_isspace (c :: s)); [reflexivity|].
  simpl in *. destruct (py_isspace c).
  - apply andb_prop in H as [H1 H2]. rewrite H1. simpl. now apply IH.
  - now apply IH.
Qed.

Lemma lstrip_starts (s : pystr) : starts_with_space (lstrip s) = false.
Proof.
  induction s as [|c s IH]; simpl; [reflexivity|].
  destruct (py_isspace c) eqn:Hc; [exact IH|exact Hc].
Qed.

Lemma lstrip_fixed (s : pystr) :
  starts_with_space s = false -> lstrip s = s.
Proof. destruct s as [|c s]; simpl; [reflexivity|]. now intros ->. Qed.

Lemma rstrip_starts (s : pystr) :
  starts_with_space s = false -> starts_with_space (rstrip s) = false.
Proof.
  destruct s as [|c s]; [reflexivity|]. intros H. rewrite rstrip_cons.
  destruct (forallb py_isspace (c :: s)); [reflexivity|exact H].
Qed.

Lemma rstrip_ends (s : pystr) : ends_with_space (rstrip s) = false.
Proof.
  unfold ends_with_space, rstrip. rewrite rev_involutive. apply lstrip_starts.
Qed.

Lemma lstrip_decomp (s : pystr) :
  exists l, s = l ++ lstrip s /\ forallb py_isspace l = true.
Proof.
  induction s as [|c s (l & Hs & Hl)]; simpl.
  - now exists [].
  - destruct (py_isspace c) eqn:Hc.
    + exists (c :: l). simpl. rewrite Hc, Hl. now rewrite <- Hs.
    + now exists [].
Qed.

Lemma rstrip_decomp (s : pystr) :
  exists r, s = rstrip s ++ r /\ forallb py_isspace r = true.
Proof.
  destruct (lstrip_decomp (rev s)) as (l & Hs & Hl).
  exists (rev l). split.
  - unfold rstrip. rewrite <- rev_app_distr, <- Hs. symmetry. apply rev_involutive.
  - now rewrite forallb_rev_eq.
Qed.

Lemma strip_idem (s : pystr) : strip (strip s) = strip s.
Proof.
  unfold strip.
  rewrite (lstrip_fixed (rstrip (lstrip s))).
  - apply rstrip_idem.
  - apply rstrip_starts, lstrip_starts.
Qed.

Lemma collapsed_strip (s : pystr) :
  collapsed false s = true -> collapsed false (strip s) = true.
Proof.
  intros H. unfold strip. apply collapsed_rstrip.
  now apply collapsed_lstrip with (b := false).
Qed.

(** The result of [clean_text] is a fixed point of both of its steps. *)
Lemma clean_text_collapsed (s : pystr) :
  collapsed false (clean_text s) = true.
Proof. unfold clean_text. apply collapsed_strip, sub_ws_collapsed. Qed.

(** C5.  [clean_text] is idempotent: normalising a normalised string
    changes nothing, for every input string. *)
Theorem clean_text_idempotent (s : pystr) :
  clean_text (clean_text s) = clean_text s.
Proof.
  unfold clean_text at 1. unfold re_sub_ws.
  rewrite (collapsed_sub_ws _ _ (clean_text_collapsed s)).
  unfold clean_text. apply strip_idem.
Qed.

(** *** The scan against the run-by-run reading *)

Lemma runs_head (s : pystr) :
  match runs s with
  | [] => s = []
  | (b, _) :: _ => b = starts_with_space s
  end.
Proof.
  destruct s as [|c s]; simpl; [reflexivity|].
  destruct (runs s) as [|[b run] others]; [reflexivity|].
  destruct (py_isspace c), b; reflexivity.
Qed.

Lemma collapse_runs_cons (c : N) (s : pystr) :
  collapse_runs (c :: s) =
  if py_isspace c
  then (if starts_with_space s then collapse_runs s else SPACE :: collapse_runs s)
  else c :: collapse_runs s.
Proof.
  unfold collapse_runs. simpl. pose proof (runs_head s) as Hh.
  destruct (runs s) as [|[b run] others].
  - subst s. simpl. unfold replace_run. simpl.
    destruct (py_isspace c); reflexivity.
  - rewrite <- Hh. unfold replace_run.
    destruct (py_isspace c), b; simpl; reflexivity.
Qed.

Lemma collapse_runs_space (c : N) (s : pystr) :
  py_isspace c = true ->
  collapse_runs (c :: s) = SPACE :: collapse_runs (lstrip s).
Proof.
  intros Hc. revert c Hc. induction s as [|d s IH]; intros c Hc.
  - rewrite collapse_runs_cons, Hc. reflexivity.
  - rewrite collapse_runs_cons, Hc. simpl.
    destruct (py_isspace d) eqn:Hd; [now apply IH|reflexivity].
Qed.

Lemma sub_ws_in_match (s : pystr) : sub_ws true s = sub_ws false (lstrip s).
Proof.
  induction s as [|c s IH]; simpl; [reflexivity|].
  destruct (py_isspace c) eqn:Hc; [exact IH|].
  simpl. now rewrite Hc.
Qed.

Lemma lstrip_length (s : pystr) : length (lstrip s) <= length s.
Proof.
  induction s as [|c s IH]; simpl; [lia|].
  destruct (py_isspace c); simpl; lia.
Qed.

Lemma re_sub_ws_runs (s : pystr) : re_sub_ws s = collapse_runs s.
Proof.
  unfold re_sub_ws.
  assert (H : forall n s, length s <= n -> sub_ws false s = collapse_runs s).
  { clear s. induction n as [|n IH]; intros [|c s] Hn; simpl in *;
      try reflexivity; try lia.
    destruct (py_isspace c) eqn:Hc.
    - rewrite collapse_runs_space by exact Hc.
      rewrite sub_ws_in_match. f_equal. apply IH.
      pose proof (lstrip_length s). lia.
    - rewrite collapse_runs_cons, Hc. f_equal. apply IH. lia. }
  now apply H with (n := length s).
Qed.

(** What makes [runs] the cut into maximal runs: the runs concatenate
    to the text, each is non-empty and of one kind, and neighbours are
    of different kinds. *)
Lemma runs_concat (s : pystr) : concat (map snd (runs s)) = s.
Proof.
  induction s as [|c s IH]; simpl; [reflexivity|].
  destruct (runs s) as [|[b run] others]; simpl in *.
  - now subst s.
  - destruct (Bool.eqb (py_isspace c) b); simpl; now rewrite <- IH.
Qed.

Lemma runs_kind (s : pystr) :
  Forall (fun r => snd r <> [] /\ Forall (fun c => py_isspace c = fst r) (snd r))
         (runs s).
Proof.
  induction s as [|c s IH]; simpl; [constructor|].
  destruct (runs s) as [|[b run] others].
  - repeat constructor. discriminate.
  - inversion IH as [|? ? [Hne Hall] Hothers]; subst.
    destruct (Bool.eqb (py_isspace c) b) eqn:Hb.
    + apply eqb_prop in Hb. constructor; [|exact Hothers].
      split; [discriminate|]. constructor; [exact Hb|exact Hall].
    + constructor; [|exact IH]. split; [discriminate|]. now repeat constructor.
Qed.

Lemma runs_alternating (s : pystr) : alternating (runs s) = true.
Proof.
  induction s as [|c s IH]; simpl; [reflexivity|].
  destruct (runs s) as [|[b run] others]; [reflexivity|].
  destruct (Bool.eqb (py_isspace c) b) eqn:Hb.
  - exact IH.
  - change (negb (Bool.eqb (py_isspace c) b) && alternating ((b, run) :: others) = true).
    now rewrite Hb, IH.
Qed.

(** ** The monad and the trace *)

Lemma trace_log (ev : event) (w : World) : trace (log ev w) = trace w ++ [ev].
Proof. reflexivity. Qed.

Lemma trace_tick (w : World) : trace (tick w) = trace w.
Proof. reflexivity. Qed.

Lemma indexes_log (ev : event) (w : World) : indexes (log ev w) = indexes w.
Proof. reflexivity. Qed.

Lemma indexes_tick (w : World) : indexes (tick w) = indexes w.
Proof. reflexivity. Qed.

(** The two ways a dependency call ends. *)
Lemma ext_cases (A : Type) (op : ext_op) (arg : pystr)
      (sem : World -> result A * World) (w : World) (r : result A) (w' : World) :
  silent sem ->
  ext op arg sem w = (r, w') ->
  (exists a, r = Ok a /\ trace w' = trace w ++ [Called op arg]) \/
  (exists e, r = Raise e /\ trace w' = trace w ++ [Failed op e]).
Proof.
  intros Hsem. unfold ext.
  destruct (fault w (clock w) op) as [e|].
  - intros H. inversion H; subst. right. exists e. now split.
  - destruct (sem (tick w)) as [[a|e|] v] eqn:Hs;
      destruct (Hsem _ _ _ Hs) as [Ht Hp]; intros H; inversion H; subst.
    + left. exists a. split; [reflexivity|]. now rewrite trace_log, Ht.
    + right. exists e. split; [reflexivity|]. now rewrite trace_log, Ht.
    + now contradiction Hp.
Qed.

Ltac silent_sem :=
  let v := fresh "v" in
  let r := fresh "r" in
  let v' := fresh "v'" in
  let H := fresh "H" in
  intros v r v' H;
  repeat match type of H with
         | context [if ?c then _ else _] => destruct c
         | context [resources ?w ?p] => destruct (resources w p)
         | context [find_index ?n ?ixs] => destruct (find_index n ixs)
         end;
  inversion H; subst; (split; [reflexivity | discriminate]).

Lemma quiet_app (a b : list event) : quiet a -> quiet b -> quiet (a ++ b).
Proof. unfold quiet. intros Ha Hb. apply Forall_app. now split. Qed.

Lemma faithful_ret (A : Type) (a : A) : faithful (ret a).
Proof.
  intros w r w' H. inversion H; subst. exists []. rewrite app_nil_r.
  split; [reflexivity|]. left. constructor.
Qed.

Lemma faithful_raise (A : Type) (e : exn) : faithful (@raise A e).
Proof.
  intros w r w' H. inversion H; subst. exists []. rewrite app_nil_r.
  split; [reflexivity|]. left. constructor.
Qed.

Lemma faithful_print (msg : pystr) : faithful (print msg).
Proof.
  intros w r w' H. inversion H; subst. exists [Printed msg].
  split; [reflexivity|]. left. now repeat constructor.
Qed.

Lemma faithful_getenv (name : pystr) : faithful (os_getenv name).
Proof.
  intros w r w' H. inversion H; subst. exists []. rewrite app_nil_r.
  split; [reflexivity|]. left. constructor.
Qed.

Lemma faithful_call_sleep (o : pyobj) (seconds : nat) :
  faithful (call_sleep o seconds).
Proof.
  unfold call_sleep. destruct (hasattr o "sleep"); [|apply faithful_raise].
  intros w r w' H. inversion H; subst. exists [Slept seconds].
  split; [reflexivity|]. left. now repeat constructor.
Qed.

Lemma faithful_ext (A : Type) (op : ext_op) (arg : pystr)
      (sem : World -> result A * World) :
  silent sem -> faithful (ext op arg sem).
Proof.
  intros Hsem w r w' H.
  destruct (ext_cases _ _ _ _ _ _ _ Hsem H) as [(a & -> & Ht)|(e & -> & Ht)].
  - exists [Called op arg]. split; [exact Ht|]. left. now repeat constructor.
  - exists [Failed op e]. split; [exact Ht|]. right.
    exists [], op, e. repeat split. constructor.
Qed.

Lemma faithful_bind (A B : Type) (m : M A) (k : A -> M B) :
  faithful m -> (forall a, faithful (k a)) -> faithful (bind m k).
Proof.
  intros Hm Hk w r w'. unfold bind.
  destruct (m w) as [[a|e|] w1] eqn:Hmw;
    destruct (Hm _ _ _ Hmw) as (evs1 & Ht1 & Hev1).
  - intros Hkw. destruct (Hk a _ _ _ Hkw) as (evs2 & Ht2 & Hev2).
    exists (evs1 ++ evs2). split.
    { now rewrite Ht2, Ht1, app_assoc. }
    destruct Hev1 as [Hq1|(before & op & e & _ & _ & Habs)]; [|discriminate].
    destruct Hev2 as [Hq2|(before & op & e & -> & Hq2 & ->)].
    + left. now apply quiet_app.
    + right. exists (evs1 ++ before), op, e.
      rewrite app_assoc. repeat split. now apply quiet_app.
  - intros H. inversion H; subst. exists evs1. split; [exact Ht1|].
    destruct Hev1 as [Hq1|(before & op & e' & -> & Hq & Heq)]; [now left|].
    right. exists before, op, e'. inversion Heq; subst. now repeat split.
  - intros H. inversion H; subst. exists evs1. split; [exact Ht1|].
    destruct Hev1 as [Hq1|(before & op & e' & _ & _ & Habs)];
      [now left|discriminate].
Qed.

Lemma faithful_while (fuel : nat) (cond : M bool) (body : M unit) :
  faithful cond -> faithful body -> faithful (while_loop fuel cond body).
Proof.
  intros Hc Hb. induction fuel as [|fuel IH]; simpl.
  - intros w r w' H. inversion H; subst. exists []. rewrite app_nil_r.
    split; [reflexivity|]. left. constructor.
  - apply faithful_bind; [exact Hc|]. intros [|]; [|apply faithful_ret].
    apply faithful_bind; [exact Hb|]. intros _. exact IH.
Qed.

Lemma faithful_for_each (A : Type) (xs : list A) (body : A -> M unit) :
  (forall x, faithful (body x)) -> faithful (for_each xs body).
Proof.
  intros Hb. induction xs as [|x xs IH]; simpl; [apply faithful_ret|].
  apply faithful_bind; [apply Hb|]. intros _. exact IH.
Qed.

Lemma faithful_propagates (A : Type) (m : M A) : faithful m -> propagates m.
Proof.
  intros Hm w r w' evs op e Hrun Ht Hin.
  destruct (Hm _ _ _ Hrun) as (evs' & Ht' & Hev).
  rewrite Ht' in Ht. apply app_inv_head in Ht. subst evs'.
  destruct Hev as [Hq|(before & op' & e' & -> & Hq & ->)].
  - unfold quiet in Hq. rewrite Forall_forall in Hq.
    specialize (Hq _ Hin). discriminate.
  - apply in_app_or in Hin as [Hin|[Heq|[]]].
    + unfold quiet in Hq. rewrite Forall_forall in Hq.
      specialize (Hq _ Hin). discriminate.
    + inversion Heq; subst. split; [reflexivity|]. now exists before.
Qed.

Create HintDb faithful.

#[local] Hint Resolve faithful_ret faithful_raise faithful_print faithful_getenv
  faithful_call_sleep : faithful.

Ltac faithful_step :=
  match goal with
  | |- faithful (bind _ _) => apply faithful_bind; [|intros]
  | |- faithful (ext _ _ _) => apply faithful_ext; silent_sem
  | |- faithful (while_loop _ _ _) => apply faithful_while
  | |- faithful (for_each _ _) => apply faithful_for_each; intros
  | |- faithful (if ?c then _ else _) => destruct c
  | |- faithful (match ?c with _ => _ end) => destruct c
  | |- faithful _ => solve [auto with faithful]
  end.

Lemma faithful_create_chunks (file_path : pystr) : faithful (create_chunks file_path).
Proof.
  unfold create_chunks, PyPDFLoader_load, split_documents. repeat faithful_step.
Qed.

Lemma faithful_extend_chunks (pdfs : list pystr) (chunks : list Document) :
  faithful (extend_chunks pdfs chunks).
Proof.
  revert chunks. induction pdfs as [|pdf rest IH]; intros chunks; simpl.
  - apply faithful_ret.
  - apply faithful_bind; [apply faithful_create_chunks|]. intros more. apply IH.
Qed.

Lemma faithful_add_documents_to_vector_store
      (vs : PineconeVectorStore) (pdfs : list pystr) :
  faithful (add_documents_to_vector_store vs pdfs).
Proof.
  unfold add_documents_to_vector_store, add_documents.
  apply faithful_bind; [apply faithful_extend_chunks|]. intros. faithful_step.
Qed.

Lemma faithful_getEmbeddingModel : faithful getEmbeddingModel.
Proof. unfold getEmbeddingModel, FastEmbedEmbeddings_new. repeat faithful_step. Qed.

Lemma faithful_create_vector_store (fuel : nat) (pc : Pinecone) (name : pystr)
      (pdfs : list pystr) (emb : Embedding) :
  faithful (create_vector_store fuel pc name pdfs emb).
Proof.
  unfold create_vector_store, create_index, not_ready, describe_index, pc_Index,
    PineconeVectorStore_new.
  repeat (apply faithful_add_documents_to_vector_store || faithful_step).
Qed.

Lemma faithful_get_vector_store (fuel : nat) (name : pystr) (pdfs : list pystr) :
  faithful (get_vector_store fuel name pdfs).
Proof.
  unfold get_vector_store, Pinecone_new, list_indexes, pc_Index,
    PineconeVectorStore_new.
  repeat (apply faithful_getEmbeddingModel || apply faithful_create_vector_store
          || faithful_step).
Qed.

Lemma faithful_getLLM : faithful getLLM.
Proof. unfold getLLM, GoogleGenerativeAI_new. repeat faithful_step. Qed.

Lemma faithful_getPromptTemplate (chat_history : pystr) :
  faithful (getPromptTemplate chat_history).
Proof. unfold getPromptTemplate, PromptTemplate_new. repeat faithful_step. Qed.

Lemma faithful_createRagChain (llm : GoogleGenerativeAI)
      (vs : PineconeVectorStore) (p : PromptTemplate) :
  faithful (createRagChain llm vs p).
Proof. unfold createRagChain, as_retriever, from_chain_type. repeat faithful_step. Qed.

Lemma faithful_printResponse (response : Response) :
  faithful (printResponse response).
Proof. unfold printResponse, getitem. repeat faithful_step. Qed.

(** A PDF that cannot be read: the loader's failure ends
    [get_vector_store], which raises it, the failed call being the last
    thing done. *)
Example unreadable_pdf_ends_the_run :
  let run := get_vector_store 1 (lit "icyco") [lit "flavors.pdf"] (fresh_world true) in
  fst run = Raise (FileError (lit "resources/flavors.pdf"))
  /\ last (trace (snd run)) (Slept 0)
     = Failed OpPdfLoad (FileError (lit "resources/flavors.pdf")).
Proof. vm_compute. split; reflexivity. Qed.

(** C9.  No function of the module catches, translates or recovers from
    the failure of a dependency: in every run of every function, a
    dependency call that fails is the last thing the run does, and the
    run raises the exception of that call to its caller. *)
Theorem dependency_errors_propagate :
  (forall fuel name pdfs, propagates (get_vector_store fuel name pdfs)) /\
  (forall fuel pc name pdfs emb,
      propagates (create_vector_store fuel pc name pdfs emb)) /\
  (forall file_path, propagates (create_chunks file_path)) /\
  (forall vs pdfs, propagates (add_documents_to_vector_store vs pdfs)) /\
  propagates getEmbeddingModel /\
  propagates getLLM /\
  (forall chat_history, propagates (getPromptTemplate chat_history)) /\
  (forall llm vs p, propagates (createRagChain llm vs p)) /\
  (forall response, propagates (printResponse response)).
Proof.
  split; [intros fuel name pdfs; apply faithful_propagates, faithful_get_vector_store|].
  split; [intros fuel pc name pdfs emb;
          apply faithful_propagates, faithful_create_vector_store|].
  split; [intros file_path; apply faithful_propagates, faithful_create_chunks|].
  split; [intros vs pdfs;
          apply faithful_propagates, faithful_add_documents_to_vector_store|].
  split; [apply faithful_propagates, faithful_getEmbeddingModel|].
  split; [apply faithful_propagates, faithful_getLLM|].
  split; [intros chat_history; apply faithful_propagates, faithful_getPromptTemplate|].
  split; [intros llm vs p; apply faithful_propagates, faithful_createRagChain|].
  intros response. apply faithful_propagates, faithful_printResponse.
Qed.

(** ** The readiness poll of [create_vector_store] *)

Lemma silent_create_index (name : pystr) (dimension : nat) (metric cloud region : pystr) :
  silent (fun w : World =>
            if has_index name (indexes w)
            then (Raise (Conflict name), w)
            else (Ok tt,
                  set_indexes
                    (indexes w ++ [mkIndex name dimension metric cloud region []]) w)).
Proof. silent_sem. Qed.

Lemma silent_describe_index (name : pystr) :
  silent (fun w : World =>
            if has_index name (indexes w)
            then (Ok (mkIndexStatus (ready w (clock w))), w)
            else (Raise (NotFound name), w)).
Proof. silent_sem. Qed.

(** The name [time] has no attribute [sleep]: the body of the loop
    raises before anything is slept. *)
Lemma time_sleep_raises (seconds : nat) (w : World) :
  call_sleep time seconds w = (Raise (AttributeError "datetime.time" "sleep"), w).
Proof. reflexivity. Qed.

(** One evaluation of the loop condition decides the run. *)
Lemma poll_not_ready (fuel : nat) (pc : Pinecone) (name : pystr)
      (w : World) (st : IndexStatus) (w' : World) :
  describe_index pc name w = (Ok st, w') ->
  status_ready st = false ->
  while_loop (S fuel) (not_ready pc name) (call_sleep time 1) w
  = (Raise (AttributeError "datetime.time" "sleep"), w').
Proof.
  intros Hd Hst. simpl. unfold bind, not_ready, bind. rewrite Hd.
  unfold ret. rewrite Hst. reflexivity.
Qed.

Lemma poll_ready (fuel : nat) (pc : Pinecone) (name : pystr)
      (w : World) (st : IndexStatus) (w' : World) :
  describe_index pc name w = (Ok st, w') ->
  status_ready st = true ->
  while_loop (S fuel) (not_ready pc name) (call_sleep time 1) w = (Ok tt, w').
Proof.
  intros Hd Hst. simpl. unfold bind, not_ready, bind. rewrite Hd.
  unfold ret. now rewrite Hst.
Qed.

Lemma poll_fails (fuel : nat) (pc : Pinecone) (name : pystr)
      (w : World) (e : exn) (w' : World) :
  describe_index pc name w = (Raise e, w') ->
  while_loop (S fuel) (not_ready pc name) (call_sleep time 1) w = (Raise e, w').
Proof.
  intros Hd. simpl. unfold bind, not_ready, bind. now rewrite Hd.
Qed.

Lemma create_vector_store_not_ready (fuel : nat) (pc : Pinecone) (name : pystr)
      (pdfs : list pystr) (emb : Embedding) (w w1 w2 : World) (st : IndexStatus) :
  create_index pc name 384 (lit "cosine") (lit "aws") (lit "us-east-1") w = (Ok tt, w1) ->
  describe_index pc name w1 = (Ok st, w2) ->
  status_ready st = false ->
  create_vector_store (S fuel) pc name pdfs emb w
  = (Raise (AttributeError "datetime.time" "sleep"), w2)
  /\ trace w2 = trace w ++ [Called OpCreateIndex name; Called OpDescribeIndex name].
Proof.
  intros Hc Hd Hst. split.
  - unfold create_vector_store. unfold bind at 1. rewrite Hc.
    unfold bind at 1. now rewrite (poll_not_ready fuel _ _ _ _ _ Hd Hst).
  - destruct (ext_cases _ _ _ _ _ _ _ (silent_create_index _ _ _ _ _) Hc)
      as [(a & _ & Ht1)|(e & Habs & _)]; [|discriminate].
    destruct (ext_cases _ _ _ _ _ _ _ (silent_describe_index _) Hd)
      as [(a' & _ & Ht2)|(e & Habs & _)]; [|discriminate].
    rewrite Ht2, Ht1, <- app_assoc. reflexivity.
Qed.

Lemma create_vector_store_ingests_when_ready (fuel : nat) (pc : Pinecone)
      (name : pystr) (pdfs : list pystr) (emb : Embedding)
      (w : World) (r : result PineconeVectorStore) (w' : World) (evs : list event) :
  create_vector_store fuel pc name pdfs emb w = (r, w') ->
  trace w' = trace w ++ evs ->
  existsb ingestion_event evs = true ->
  exists w1 st w2,
    create_index pc name 384 (lit "cosine") (lit "aws") (lit "us-east-1") w = (Ok tt, w1)
    /\ describe_index pc name w1 = (Ok st, w2)
    /\ status_ready st = true.
Proof.
  intros Hrun Ht Hev.
  destruct (create_index pc name 384 (lit "cosine") (lit "aws") (lit "us-east-1") w)
    as [r0 w1] eqn:Hc.
  destruct (ext_cases _ _ _ _ _ _ _ (silent_create_index _ _ _ _ _) Hc)
    as [([] & -> & Ht1)|(e & -> & Ht1)].
  2:{ (* index creation failed *)
    unfold create_vector_store in Hrun. unfold bind at 1 in Hrun.
    rewrite Hc in Hrun. inversion Hrun; subst.
    rewrite Ht1 in Ht. apply app_inv_head in Ht. subst evs. discriminate. }
  destruct fuel as [|fuel].
  { (* the loop is not examined *)
    unfold create_vector_store in Hrun. unfold bind at 1 in Hrun.
    rewrite Hc in Hrun.
    unfold bind at 1 in Hrun. simpl in Hrun. inversion Hrun; subst.
    rewrite Ht1 in Ht. apply app_inv_head in Ht. subst evs. discriminate. }
  destruct (describe_index pc name w1) as [r1 w2] eqn:Hd.
  destruct (ext_cases _ _ _ _ _ _ _ (silent_describe_index _) Hd)
    as [(st & -> & Ht2)|(e & -> & Ht2)].
  - destruct (status_ready st) eqn:Hst.
    + now exists w1, st, w2.
    + destruct (create_vector_store_not_ready fuel pc name pdfs emb _ _ _ _ Hc Hd Hst)
        as [Hrun' Ht'].
      rewrite Hrun' in Hrun. inversion Hrun; subst.
      rewrite Ht' in Ht. apply app_inv_head in Ht. subst evs. discriminate.
  - unfold create_vector_store in Hrun. unfold bind at 1 in Hrun.
    rewrite Hc in Hrun.
    unfold bind at 1 in Hrun. rewrite (poll_fails fuel _ _ _ _ _ Hd) in Hrun.
    inversion Hrun; subst.
    rewrite Ht2, Ht1, <- app_assoc in Ht. apply app_inv_head in Ht.
    subst evs. discriminate.
Qed.

(** C2.  When the first readiness check of [create_vector_store] answers
    not-ready, the wait step raises [AttributeError] instead of
    sleeping, because [time] is [datetime.time]: the run ends there,
    having created the index and asked once, without any sleep.  And a
    run reaches the ingestion step only if the first readiness check
    answered ready. *)
Theorem not_ready_raises_instead_of_sleeping
        (fuel : nat) (pc : Pinecone) (name : pystr) (pdfs : list pystr)
        (emb : Embedding) (w : World) :
  (forall w1 st w2,
      create_index pc name 384 (lit "cosine") (lit "aws") (lit "us-east-1") w
      = (Ok tt, w1) ->
      describe_index pc name w1 = (Ok st, w2) ->
      status_ready st = false ->
      create_vector_store (S fuel) pc name pdfs emb w
      = (Raise (AttributeError "datetime.time" "sleep"), w2)
      /\ trace w2 = trace w ++ [Called OpCreateIndex name; Called OpDescribeIndex name])
  /\
  (forall r w' evs,
      create_vector_store (S fuel) pc name pdfs emb w = (r, w') ->
      trace w' = trace w ++ evs ->
      existsb ingestion_event evs = true ->
      exists w1 st w2,
        create_index pc name 384 (lit "cosine") (lit "aws") (lit "us-east-1") w
        = (Ok tt, w1)
        /\ describe_index pc name w1 = (Ok st, w2)
        /\ status_ready st = true).
Proof.
  split.
  - intros w1 st w2. apply create_vector_store_not_ready.
  - intros r w' evs. apply create_vector_store_ingests_when_ready.
Qed.

Lemma not_ready_raises_witness :
  (create_vector_store 1 sample_pc (lit "icyco") [lit "menu.pdf"] mkEmbedding
                       (fresh_world false)
   = (Raise (AttributeError "datetime.time" "sleep"),
      snd (describe_index sample_pc (lit "icyco")
             (snd (create_index sample_pc (lit "icyco") 384 (lit "cosine")
                                (lit "aws") (lit "us-east-1") (fresh_world false)))))
   /\ trace (snd (describe_index sample_pc (lit "icyco")
             (snd (create_index sample_pc (lit "icyco") 384 (lit "cosine")
                                (lit "aws") (lit "us-east-1") (fresh_world false)))))
      = trace (fresh_world false)
        ++ [Called OpCreateIndex (lit "icyco"); Called OpDescribeIndex (lit "icyco")])
  /\
  (exists w1 st w2,
      create_index sample_pc (lit "icyco") 384 (lit "cosine") (lit "aws")
                   (lit "us-east-1") (fresh_world true) = (Ok tt, w1)
      /\ describe_index sample_pc (lit "icyco") w1 = (Ok st, w2)
      /\ status_ready st = true).
Proof.
  split.
  - apply (proj1 (not_ready_raises_instead_of_sleeping
                    0 sample_pc (lit "icyco") [lit "menu.pdf"] mkEmbedding
                    (fresh_world false))
                 (snd (create_index sample_pc (lit "icyco") 384 (lit "cosine")
                                    (lit "aws") (lit "us-east-1") (fresh_world false)))
                 (mkIndexStatus false)); vm_compute; reflexivity.
  - apply (proj2 (not_ready_raises_instead_of_sleeping
                    0 sample_pc (lit "icyco") [lit "menu.pdf"] mkEmbedding
                    (fresh_world true))
                 (fst (create_vector_store 1 sample_pc (lit "icyco") [lit "menu.pdf"]
                                           mkEmbedding (fresh_world true)))
                 (snd (create_vector_store 1 sample_pc (lit "icyco") [lit "menu.pdf"]
                                           mkEmbedding (fresh_world true)))
                 (trace (snd (create_vector_store 1 sample_pc (lit "icyco")
                                [lit "menu.pdf"] mkEmbedding (fresh_world true)))));
      vm_compute; reflexivity.
Defined.

(** C1.  The run the claim is about: the provider never reports the
    index ready and no dependency fails.  Whatever the number of loop
    iterations examined, [create_vector_store] does not wait: it asks
    for the status once, sleeps never, and raises [AttributeError]. *)
Theorem never_ready_poll_raises (fuel : nat) :
  let run := create_vector_store (S fuel) sample_pc (lit "icyco") [lit "menu.pdf"]
                                 mkEmbedding (fresh_world false) in
  fst run = Raise (AttributeError "datetime.time" "sleep")
  /\ length (filter describe_event (trace (snd run))) = 1
  /\ filter sleep_event (trace (snd run)) = [].
Proof.
  pose (w1 := snd (create_index sample_pc (lit "icyco") 384 (lit "cosine")
                                (lit "aws") (lit "us-east-1") (fresh_world false))).
  pose (w2 := snd (describe_index sample_pc (lit "icyco") w1)).
  destruct (create_vector_store_not_ready
              fuel sample_pc (lit "icyco") [lit "menu.pdf"] mkEmbedding
              (fresh_world false) w1 w2 (mkIndexStatus false))
    as [Hrun Ht]; try (vm_compute; reflexivity).
  cbv zeta. rewrite Hrun. cbn [fst snd]. rewrite Ht.
  split; [reflexivity|]. split; vm_compute; reflexivity.
Qed.

(** What the loop would do were [time] the module [time]: against a
    provider that never reports ready, every examined iteration sleeps
    one second and the loop is still running. *)
Lemma poll_with_module_time_waits (fuel : nat) (pc : Pinecone) (name : pystr)
      (w : World) :
  (forall t op, fault w t op = None) ->
  (forall t, ready w t = false) ->
  has_index name (indexes w) = true ->
  exists w',
    while_loop fuel (not_ready pc name) (call_sleep time_module 1) w = (Pending, w')
    /\ length (filter sleep_event (trace w'))
       = length (filter sleep_event (trace w)) + fuel.
Proof.
  revert w. induction fuel as [|fuel IH]; intros w Hf Hr Hi.
  - exists w. split; [reflexivity|lia].
  - simpl. unfold bind at 1. unfold not_ready. unfold bind at 1.
    unfold describe_index, ext. rewrite Hf, indexes_tick, Hi.
    change (ready (tick w)) with (ready w). rewrite Hr.
    unfold ret. cbn [status_ready negb]. unfold bind at 1.
    change (call_sleep time_module 1) with
      (fun w0 : World => (@Ok unit tt, log (Slept 1) w0)).
    cbv beta.
    destruct (IH (log (Slept 1) (log (Called OpDescribeIndex name) (tick w))))
      as (w' & Hrun & Hlen); [exact Hf|exact Hr|exact Hi|].
    exists w'. split; [exact Hrun|].
    rewrite Hlen, !trace_log, trace_tick, !filter_app, !length_app. simpl. lia.
Qed.

(** ** The index-exists short-circuit of [get_vector_store] *)

Lemma pystr_eqb_eq (a b : pystr) : pystr_eqb a b = true <-> a = b.
Proof.
  revert b. induction a as [|x a IH]; intros [|y b]; simpl;
    try (split; [discriminate|discriminate]); [now split|].
  rewrite andb_true_iff, N.eqb_eq, IH. split.
  - now intros [-> ->].
  - intros H. inversion H. now split.
Qed.

Lemma pystr_eqb_sym (a b : pystr) : pystr_eqb a b = pystr_eqb b a.
Proof.
  destruct (pystr_eqb a b) eqn:Hab.
  - apply pystr_eqb_eq in Hab. subst. symmetry. now apply pystr_eqb_eq.
  - destruct (pystr_eqb b a) eqn:Hba; [|reflexivity].
    apply pystr_eqb_eq in Hba. subst.
    assert (H : pystr_eqb a a = true) by now apply pystr_eqb_eq.
    congruence.
Qed.

(** The membership test of line 24 is the provider's own notion of
    having the index. *)
Lemma in_existing_indexes (name : pystr) (ixs : list Index) :
  existsb (pystr_eqb name) (map ix_name ixs) = has_index name ixs.
Proof.
  unfold has_index. induction ixs as [|ix ixs IH]; simpl; [reflexivity|].
  now rewrite IH, pystr_eqb_sym.
Qed.

Lemma has_index_app (name : pystr) (a b : list Index) :
  has_index name (a ++ b) = has_index name a || has_index name b.
Proof. unfold has_index. apply existsb_app. Qed.

Lemma has_index_upsert (n name : pystr) (chunks : list Document) (ixs : list Index) :
  has_index n (map (upsert name chunks) ixs) = has_index n ixs.
Proof.
  unfold has_index. induction ixs as [|ix ixs IH]; simpl; [reflexivity|].
  rewrite IH. f_equal. unfold upsert.
  destruct (pystr_eqb (ix_name ix) name); reflexivity.
Qed.

Lemma bind_ok_inv (A B : Type) (m : M A) (k : A -> M B) (w : World) (b : B)
      (w' : World) :
  bind m k w = (Ok b, w') ->
  exists a w1, m w = (Ok a, w1) /\ k a w1 = (Ok b, w').
Proof.
  unfold bind. destruct (m w) as [[a|e|] w1]; intros H; try discriminate.
  now exists a, w1.
Qed.

Lemma keeps_ret (A : Type) (a : A) : keeps_names (ret a).
Proof. intros w r w' n H. now inversion H. Qed.

Lemma keeps_raise (A : Type) (e : exn) : keeps_names (@raise A e).
Proof. intros w r w' n H. now inversion H. Qed.

Lemma keeps_print (msg : pystr) : keeps_names (print msg).
Proof. intros w r w' n H. now inversion H. Qed.

Lemma keeps_getenv (name : pystr) : keeps_names (os_getenv name).
Proof. intros w r w' n H. now inversion H. Qed.

Lemma keeps_call_sleep (o : pyobj) (seconds : nat) : keeps_names (call_sleep o seconds).
Proof.
  unfold call_sleep. destruct (hasattr o "sleep"); [|apply keeps_raise].
  intros w r w' n H. now inversion H.
Qed.

Lemma keeps_ext (A : Type) (op : ext_op) (arg : pystr)
      (sem : World -> result A * World) :
  sem_keeps_names sem -> keeps_names (ext op arg sem).
Proof.
  intros Hsem w r w' n. unfold ext.
  destruct (fault w (clock w) op) as [e|].
  - intros H. now inversion H.
  - destruct (sem (tick w)) as [[a|e|] v] eqn:Hs; intros H; inversion H; subst;
      try rewrite indexes_log; now rewrite (Hsem _ _ _ n Hs).
Qed.

Lemma keeps_bind (A B : Type) (m : M A) (k : A -> M B) :
  keeps_names m -> (forall a, keeps_names (k a)) -> keeps_names (bind m k).
Proof.
  intros Hm Hk w r w' n. unfold bind.
  destruct (m w) as [[a|e|] w1] eqn:Hmw; intros H.
  - now rewrite (Hk a _ _ _ n H), (Hm _ _ _ n Hmw).
  - inversion H; subst. apply (Hm _ _ _ n Hmw).
  - inversion H; subst. apply (Hm _ _ _ n Hmw).
Qed.

Lemma keeps_while (fuel : nat) (cond : M bool) (body : M unit) :
  keeps_names cond -> keeps_names body -> keeps_names (while_loop fuel cond body).
Proof.
  intros Hc Hb. induction fuel as [|fuel IH]; simpl.
  - intros w r w' n H. now inversion H.
  - apply keeps_bind; [exact Hc|]. intros [|]; [|apply keeps_ret].
    apply keeps_bind; [exact Hb|]. intros _. exact IH.
Qed.

Ltac sem_keeps :=
  let v := fresh "v" in
  let r := fresh "r" in
  let v' := fresh "v'" in
  let n := fresh "n" in
  let H := fresh "H" in
  intros v r v' n H;
  repeat match type of H with
         | context [if ?c then _ else _] => destruct c
         | context [resources ?w ?p] => destruct (resources w p)
         | context [find_index ?m ?ixs] => destruct (find_index m ixs)
         end;
  inversion H; subst; try reflexivity.

Create HintDb keeps.

#[local] Hint Resolve keeps_ret keeps_raise keeps_print keeps_getenv
  keeps_call_sleep : keeps.

Ltac keeps_step :=
  match goal with
  | |- keeps_names (bind _ _) => apply keeps_bind; [|intros]
  | |- keeps_names (ext _ _ _) => apply keeps_ext; sem_keeps
  | |- keeps_names (while_loop _ _ _) => apply keeps_while
  | |- keeps_names _ => solve [auto with keeps]
  end.

Lemma keeps_create_chunks (file_path : pystr) : keeps_names (create_chunks file_path).
Proof.
  unfold create_chunks, PyPDFLoader_load, split_documents. repeat keeps_step.
Qed.

Lemma keeps_extend_chunks (pdfs : list pystr) (chunks : list Document) :
  keeps_names (extend_chunks pdfs chunks).
Proof.
  revert chunks. induction pdfs as [|pdf rest IH]; intros chunks; simpl.
  - apply keeps_ret.
  - apply keeps_bind; [apply keeps_create_chunks|]. intros more. apply IH.
Qed.

Lemma keeps_add_documents_to_vector_store
      (vs : PineconeVectorStore) (pdfs : list pystr) :
  keeps_names (add_documents_to_vector_store vs pdfs).
Proof.
  unfold add_documents_to_vector_store, add_documents.
  apply keeps_bind; [apply keeps_extend_chunks|]. intros chunks.
  apply keeps_ext. sem_keeps. cbn [indexes set_indexes]. apply has_index_upsert.
Qed.

Lemma keeps_getEmbeddingModel : keeps_names getEmbeddingModel.
Proof. unfold getEmbeddingModel, FastEmbedEmbeddings_new. repeat keeps_step. Qed.

Lemma keeps_poll (fuel : nat) (pc : Pinecone) (name : pystr) :
  keeps_names (while_loop fuel (not_ready pc name) (call_sleep time 1)).
Proof. unfold not_ready, describe_index. repeat keeps_step. Qed.

(** Once [create_index] has returned, the provider has the index. *)
Lemma create_index_has_index (pc : Pinecone) (name : pystr) (dimension : nat)
      (metric cloud region : pystr) (w w' : World) :
  create_index pc name dimension metric cloud region w = (Ok tt, w') ->
  has_index name (indexes w') = true.
Proof.
  unfold create_index, ext.
  destruct (fault w (clock w) OpCreateIndex); [discriminate|].
  destruct (has_index name (indexes (tick w))); [discriminate|].
  intros H. inversion H; subst. cbn [indexes log set_indexes].
  rewrite has_index_app. apply orb_true_iff. right.
  unfold has_index. simpl. rewrite orb_false_r. now apply pystr_eqb_eq.
Qed.

Lemma create_vector_store_has_index (fuel : nat) (pc : Pinecone) (name : pystr)
      (pdfs : list pystr) (emb : Embedding) (w : World)
      (vs : PineconeVectorStore) (w' : World) :
  create_vector_store fuel pc name pdfs emb w = (Ok vs, w') ->
  has_index name (indexes w') = true.
Proof.
  unfold create_vector_store. intros H.
  apply bind_ok_inv in H as ([] & w1 & Hc & H).
  apply create_index_has_index in Hc. rewrite <- Hc.
  revert H. generalize (Ok vs). intros r H. revert H.
  match goal with
  | |- ?m w1 = _ -> _ => assert (Hk : keeps_names m)
  end.
  { unfold pc_Index, PineconeVectorStore_new.
    repeat (apply keeps_poll || apply keeps_add_documents_to_vector_store
            || keeps_step). }
  intros H. apply (Hk _ _ _ name H).
Qed.

Lemma bind_cong (A B : Type) (m : M A) (k1 k2 : A -> M B) (w : World) :
  (forall a w1, m w = (Ok a, w1) -> k1 a w1 = k2 a w1) ->
  bind m k1 w = bind m k2 w.
Proof.
  intros H. unfold bind. destruct (m w) as [[a|e|] w1]; try reflexivity.
  now apply H.
Qed.

Lemma list_indexes_ok (pc : Pinecone) (w : World) (infos : list Index) (w' : World) :
  list_indexes pc w = (Ok infos, w') -> infos = indexes w /\ indexes w' = indexes w.
Proof.
  unfold list_indexes, ext. destruct (fault w (clock w) OpListIndexes); [discriminate|].
  intros H. inversion H; subst. now split.
Qed.

Lemma get_vector_store_existing (fuel : nat) (name : pystr) (pdfs : list pystr)
      (w : World) :
  has_index name (indexes w) = true ->
  get_vector_store fuel name pdfs w = reuse_vector_store name w.
Proof.
  intros Hi. unfold get_vector_store, reuse_vector_store.
  apply bind_cong. intros [] w1 H1.
  rewrite <- (keeps_print _ _ _ _ name H1) in Hi.
  apply bind_cong. intros api_key w2 H2.
  rewrite <- (keeps_getenv _ _ _ _ name H2) in Hi.
  apply bind_cong. intros pc w3 H3.
  assert (Hi3 : has_index name (indexes w3) = true).
  { rewrite <- Hi. revert H3. unfold Pinecone_new.
    apply (keeps_ext _ OpPinecone). sem_keeps. }
  apply bind_cong. intros emb w4 H4.
  rewrite <- (keeps_getEmbeddingModel _ _ _ name H4) in Hi3.
  apply bind_cong. intros infos w5 H5.
  apply list_indexes_ok in H5 as [-> H5].
  cbv zeta. rewrite in_existing_indexes, Hi3. reflexivity.
Qed.


Lemma reuse_vector_store_trace (name : pystr) (w : World)
      (r : result PineconeVectorStore) (w' : World) (evs : list event) :
  reuse_vector_store name w = (r, w') ->
  trace w' = trace w ++ evs ->
  existsb creation_event evs = false
  /\ existsb ingestion_event evs = false
  /\ indexes w' = indexes w
  /\ (forall vs, r = Ok vs -> vs = mkVectorStore name mkEmbedding).
Proof.
  unfold reuse_vector_store, getEmbeddingModel, Pinecone_new, FastEmbedEmbeddings_new,
    list_indexes, pc_Index, PineconeVectorStore_new, bind, ext, print, os_getenv, ret.
  repeat (cbn [fault clock log tick set_clock];
          match goal with
          | |- context [fault w ?c ?op] => destruct (fault w c op)
          end);
    intros H Ht; inversion H; subst;
    cbn [trace indexes log tick set_clock] in *;
    repeat rewrite <- app_assoc in Ht; apply app_inv_head in Ht; subst evs;
    (split; [reflexivity|]); (split; [reflexivity|]); (split; [reflexivity|]);
    intros vs Hvs; inversion Hvs; reflexivity.
Qed.

Lemma keeps_handle (pc : Pinecone) (name : pystr) (emb : Embedding) :
  keeps_names (index <- pc_Index pc name ;; PineconeVectorStore_new index emb).
Proof. unfold pc_Index, PineconeVectorStore_new. repeat keeps_step. Qed.

Lemma handle_value (pc : Pinecone) (name : pystr) (emb : Embedding) (w : World)
      (vs : PineconeVectorStore) (w' : World) :
  (index <- pc_Index pc name ;; PineconeVectorStore_new index emb) w = (Ok vs, w') ->
  vs = mkVectorStore name mkEmbedding.
Proof.
  intros H. apply bind_ok_inv in H as (index & w1 & Hi & H).
  unfold pc_Index, ext in Hi.
  destruct (fault w (clock w) OpIndex); [discriminate|]. inversion Hi; subst.
  unfold PineconeVectorStore_new, ext in H.
  destruct (fault _ _ OpVectorStore); [discriminate|]. inversion H; subst.
  now destruct emb.
Qed.

(** A call that returns leaves the index at the provider and returns
    the handle to it. *)
Lemma get_vector_store_returns (fuel : nat) (name : pystr) (pdfs : list pystr)
      (w : World) (vs : PineconeVectorStore) (w1 : World) :
  get_vector_store fuel name pdfs w = (Ok vs, w1) ->
  has_index name (indexes w1) = true /\ vs = mkVectorStore name mkEmbedding.
Proof.
  unfold get_vector_store. intros H.
  apply bind_ok_inv in H as ([] & wa & _ & H).
  apply bind_ok_inv in H as (api_key & wb & _ & H).
  apply bind_ok_inv in H as (pc & wc & _ & H).
  apply bind_ok_inv in H as (emb & wd & _ & H).
  apply bind_ok_inv in H as (infos & we & Hl & H).
  cbv zeta in H.
  apply bind_ok_inv in H as ([] & wf & Hbranch & H).
  split; [|exact (handle_value _ _ _ _ _ _ H)].
  rewrite (keeps_handle pc name emb _ _ _ name H).
  apply list_indexes_ok in Hl as [-> Hl]. rewrite in_existing_indexes in Hbranch.
  destruct (has_index name (indexes wd)) eqn:Hmem; simpl in Hbranch.
  - inversion Hbranch; subst. now rewrite Hl.
  - apply bind_ok_inv in Hbranch as ([] & wg & _ & Hbranch).
    apply bind_ok_inv in Hbranch as (vs' & wh & Hc & Hbranch).
    inversion Hbranch; subst.
    exact (create_vector_store_has_index _ _ _ _ _ _ _ _ Hc).
Qed.

(** C3.  When the named index is in the provider's list,
    [get_vector_store] creates nothing and ingests nothing, leaves the
    indexes as they are and returns the handle to the existing index,
    whatever PDF list is supplied.  Hence of two calls with the same
    name, the second, made after the first has returned, performs no
    index creation and no ingestion. *)
Theorem ingestion_only_on_first_call (name : pystr) :
  (forall fuel pdfs w r w' evs,
      has_index name (indexes w) = true ->
      get_vector_store fuel name pdfs w = (r, w') ->
      trace w' = trace w ++ evs ->
      existsb creation_event evs = false
      /\ existsb ingestion_event evs = false
      /\ indexes w' = indexes w
      /\ (forall vs, r = Ok vs -> vs = mkVectorStore name mkEmbedding)
      /\ (forall fuel' pdfs', get_vector_store fuel' name pdfs' w = (r, w')))
  /\
  (forall fuel1 pdfs1 w vs1 w1 fuel2 pdfs2 r w2 evs,
      get_vector_store fuel1 name pdfs1 w = (Ok vs1, w1) ->
      get_vector_store fuel2 name pdfs2 w1 = (r, w2) ->
      trace w2 = trace w1 ++ evs ->
      existsb creation_event evs = false
      /\ existsb ingestion_event evs = false
      /\ indexes w2 = indexes w1
      /\ (forall vs2, r = Ok vs2 -> vs2 = vs1)).
Proof.
  assert (Hexisting :
            forall fuel pdfs w r w' evs,
              has_index name (indexes w) = true ->
              get_vector_store fuel name pdfs w = (r, w') ->
              trace w' = trace w ++ evs ->
              existsb creation_event evs = false
              /\ existsb ingestion_event evs = false
              /\ indexes w' = indexes w
              /\ (forall vs, r = Ok vs -> vs = mkVectorStore name mkEmbedding)
              /\ (forall fuel' pdfs', get_vector_store fuel' name pdfs' w = (r, w'))).
  { intros fuel pdfs w r w' evs Hi Hrun Ht.
    rewrite (get_vector_store_existing fuel name pdfs w Hi) in Hrun.
    destruct (reuse_vector_store_trace name w r w' evs Hrun Ht)
      as (Hc & Hg & Hx & Hv).
    repeat (split; [assumption|]).
    intros fuel' pdfs'. now rewrite (get_vector_store_existing fuel' name pdfs' w Hi). }
  split; [exact Hexisting|].
  intros fuel1 pdfs1 w vs1 w1 fuel2 pdfs2 r w2 evs H1 H2 Ht.
  destruct (get_vector_store_returns _ _ _ _ _ _ H1) as [Hi ->].
  destruct (Hexisting fuel2 pdfs2 w1 r w2 evs Hi H2 Ht) as (Hc & Hg & Hx & Hv & _).
  now repeat split.
Qed.

Lemma ingestion_only_on_first_call_witness :
  let first := get_vector_store 1 (lit "icyco") [lit "menu.pdf"] (fresh_world true) in
  let second := get_vector_store 1 (lit "icyco") [lit "flavors.pdf"] (snd first) in
  existsb creation_event (skipn (length (trace (snd first))) (trace (snd second))) = false
  /\ existsb ingestion_event
             (skipn (length (trace (snd first))) (trace (snd second))) = false
  /\ indexes (snd second) = indexes (snd first)
  /\ (forall vs2, fst second = Ok vs2 -> vs2 = mkVectorStore (lit "icyco") mkEmbedding).
Proof.
  cbv zeta.
  apply (proj2 (ingestion_only_on_first_call (lit "icyco"))
               1 [lit "menu.pdf"] (fresh_world true)
               (mkVectorStore (lit "icyco") mkEmbedding)
               (snd (get_vector_store 1 (lit "icyco") [lit "menu.pdf"] (fresh_world true)))
               1 [lit "flavors.pdf"]);
    vm_compute; reflexivity.
Defined.

(** The wait that raises leaves an index behind that later calls take
    for populated: after a first call against a provider that is not
    ready at once, a second call returns a handle to an empty index. *)
Example empty_index_after_failed_wait :
  let first := get_vector_store 1 (lit "icyco") [lit "menu.pdf"] (fresh_world false) in
  let second := get_vector_store 1 (lit "icyco") [lit "menu.pdf"] (snd first) in
  fst first = Raise (AttributeError "datetime.time" "sleep")
  /\ fst second = Ok (mkVectorStore (lit "icyco") mkEmbedding)
  /\ map ix_vectors (indexes (snd second)) = [[]].
Proof. vm_compute. repeat split. Qed.

(** ** The prompt template *)

Lemma template_head_slot :
  template_head = before_context ++ lit "{context}" ++ after_context.
Proof. vm_compute. reflexivity. Qed.

Lemma template_tail_slot :
  template_tail = before_question ++ lit "{question}" ++ after_question.
Proof. vm_compute. reflexivity. Qed.

Lemma fixed_text_brace_free :
  brace_free before_context = true
  /\ brace_free (after_context ++ history_indent) = true
  /\ brace_free (history_indent ++ before_question) = true
  /\ brace_free after_question = true.
Proof. vm_compute. repeat split. Qed.

Lemma fmt_prefix_app (a b : pystr) (r : format_result) :
  fmt_prefix a (fmt_prefix b r) = fmt_prefix (a ++ b) r.
Proof. destruct r; simpl; [now rewrite app_assoc|reflexivity|reflexivity]. Qed.

Lemma fmt_prefix_nil (r : format_result) : fmt_prefix [] r = r.
Proof. now destruct r. Qed.

Lemma brace_free_app (a b : pystr) :
  brace_free (a ++ b) = brace_free a && brace_free b.
Proof. unfold brace_free. apply forallb_app. Qed.

(** Text without braces is scanned as literal text. *)
Lemma tokenize_literal (s rest : pystr) :
  brace_free s = true ->
  tokenize InLiteral (s ++ rest)
  = (map Lit s ++ fst (tokenize InLiteral rest), snd (tokenize InLiteral rest)).
Proof.
  induction s as [|c s IH]; intros Hs.
  - simpl. now destruct (tokenize InLiteral rest).
  - simpl in Hs. apply andb_prop in Hs as [Hc Hs].
    apply negb_true_iff, orb_false_iff in Hc as [Hl Hr].
    cbn [app tokenize]. rewrite Hl, Hr, (IH Hs). reflexivity.
Qed.

Lemma tokenize_context (rest : pystr) :
  tokenize InLiteral (lit "{context}" ++ rest)
  = push (Field (lit "context") None []) (tokenize InLiteral rest).
Proof. reflexivity. Qed.

Lemma tokenize_question (rest : pystr) :
  tokenize InLiteral (lit "{question}" ++ rest)
  = push (Field (lit "question") None []) (tokenize InLiteral rest).
Proof. reflexivity. Qed.

Lemma format_tokens_literal (kw : pydict) (s : pystr) (tokens : list token)
      (error : option string) :
  format_tokens kw (map Lit s ++ tokens) error
  = fmt_prefix s (format_tokens kw tokens error).
Proof.
  induction s as [|c s IH]; simpl.
  - now rewrite fmt_prefix_nil.
  - rewrite IH. now rewrite (fmt_prefix_app [c] s).
Qed.

Lemma field_names_literal (s : pystr) (tokens : list token) :
  field_names (map Lit s ++ tokens) = field_names tokens.
Proof. induction s as [|c s IH]; simpl; [reflexivity|exact IH]. Qed.

Lemma field_names_field (name : pystr) (conversion : option N) (spec : pystr)
      (tokens : list token) :
  field_names (Field name conversion spec :: tokens) = name :: field_names tokens.
Proof. reflexivity. Qed.

(** Literal text without braces is copied. *)
Lemma vformat_literal (kw : pydict) (s rest : pystr) :
  brace_free s = true ->
  vformat kw (s ++ rest) = fmt_prefix s (vformat kw rest).
Proof.
  intros Hs. unfold vformat. rewrite (tokenize_literal _ _ Hs).
  cbn [fst snd]. apply format_tokens_literal.
Qed.

Lemma vformat_nil (kw : pydict) : vformat kw [] = Formatted [].
Proof. reflexivity. Qed.

Lemma vformat_context (context question rest : pystr) :
  vformat [(lit "context", context); (lit "question", question)]
          (lit "{context}" ++ rest)
  = fmt_prefix context
      (vformat [(lit "context", context); (lit "question", question)] rest).
Proof. reflexivity. Qed.

Lemma vformat_question (context question rest : pystr) :
  vformat [(lit "context", context); (lit "question", question)]
          (lit "{question}" ++ rest)
  = fmt_prefix question
      (vformat [(lit "context", context); (lit "question", question)] rest).
Proof. reflexivity. Qed.

Lemma vformat_two_slots (context question a b d : pystr) :
  brace_free a = true -> brace_free b = true -> brace_free d = true ->
  vformat [(lit "context", context); (lit "question", question)]
          (a ++ lit "{context}" ++ b ++ lit "{question}" ++ d)
  = Formatted (a ++ context ++ b ++ question ++ d).
Proof.
  intros Ha Hb Hd.
  rewrite (vformat_literal _ _ _ Ha), vformat_context.
  rewrite (vformat_literal _ _ _ Hb), vformat_question.
  rewrite <- (app_nil_r d) at 1. rewrite (vformat_literal _ _ _ Hd).
  rewrite vformat_nil, !fmt_prefix_app. simpl fmt_prefix.
  repeat rewrite <- app_assoc. now rewrite app_nil_r.
Qed.

Lemma template_shape (chat_history : pystr) :
  template_head ++ template_history chat_history ++ template_tail
  = before_context ++ lit "{context}"
      ++ (after_context ++ history_indent) ++ chat_history
      ++ (history_indent ++ before_question) ++ lit "{question}" ++ after_question.
Proof.
  rewrite template_head_slot, template_tail_slot. unfold template_history.
  fold history_indent. now repeat rewrite <- app_assoc.
Qed.

(** The prompt of a question under a template whose chat history has no
    brace. *)
Lemma vformat_brace_free (chat_history context question : pystr) :
  brace_free chat_history = true ->
  vformat [(lit "context", context); (lit "question", question)]
          (template_head ++ template_history chat_history ++ template_tail)
  = Formatted (prompt_text context chat_history question).
Proof.
  intros Hh. destruct fixed_text_brace_free as (H1 & H2 & H3 & H4).
  rewrite template_shape.
  replace (before_context ++ lit "{context}"
             ++ (after_context ++ history_indent) ++ chat_history
             ++ (history_indent ++ before_question) ++ lit "{question}"
             ++ after_question)
    with (before_context ++ lit "{context}"
            ++ ((after_context ++ history_indent) ++ chat_history
                  ++ (history_indent ++ before_question))
            ++ lit "{question}" ++ after_question)
    by now repeat rewrite <- app_assoc.
  rewrite vformat_two_slots; [|exact H1| |exact H4].
  - unfold prompt_text. now repeat rewrite <- app_assoc.
  - now rewrite brace_free_app, H2, brace_free_app, Hh, H3.
Qed.

Lemma assemble_template (template : pystr) (variables : list pystr)
      (context question : pystr) :
  assemble (mkPromptTemplate template variables) context question
  = vformat [(lit "context", context); (lit "question", question)] template.
Proof. reflexivity. Qed.

(** The constructor, by what it finds in the template. *)
Lemma getPromptTemplate_returns (chat_history : pystr) (variables : list pystr)
      (w : World) :
  template_variables (template_head ++ template_history chat_history ++ template_tail)
  = inr variables ->
  getPromptTemplate chat_history w
  = (Ok (mkPromptTemplate
           (template_head ++ template_history chat_history ++ template_tail)
           variables),
     log (Printed (lit "Initializing prompt template...")) w).
Proof.
  intros H. unfold getPromptTemplate, PromptTemplate_new, bind, print.
  now rewrite H.
Qed.

Lemma getPromptTemplate_raises (chat_history : pystr) (msg : string) (w : World) :
  template_variables (template_head ++ template_history chat_history ++ template_tail)
  = inl msg ->
  getPromptTemplate chat_history w
  = (Raise (ValueError msg),
     log (Printed (lit "Initializing prompt template...")) w).
Proof.
  intros H. unfold getPromptTemplate, PromptTemplate_new, bind, print.
  now rewrite H.
Qed.

(** The scan of a template of the module's shape, up to the chat
    history. *)
Lemma tokenize_up_to_history (a b rest : pystr) :
  brace_free a = true -> brace_free b = true ->
  tokenize InLiteral (a ++ lit "{context}" ++ b ++ rest)
  = (map Lit a ++ Field (lit "context") None [] :: map Lit b
       ++ fst (tokenize InLiteral rest),
     snd (tokenize InLiteral rest)).
Proof.
  intros Ha Hb.
  rewrite (tokenize_literal _ _ Ha), tokenize_context.
  rewrite (tokenize_literal _ _ Hb). reflexivity.
Qed.

Lemma tokenize_last_slot (d : pystr) :
  brace_free d = true ->
  tokenize InLiteral (lit "{question}" ++ d)
  = (Field (lit "question") None [] :: map Lit d, None).
Proof.
  intros Hd. rewrite tokenize_question.
  rewrite <- (app_nil_r d) at 1. rewrite (tokenize_literal _ _ Hd).
  cbn [tokenize push fst snd]. now rewrite app_nil_r.
Qed.

Lemma template_variables_brace_free (chat_history : pystr) :
  brace_free chat_history = true ->
  template_variables (template_head ++ template_history chat_history ++ template_tail)
  = inr [lit "context"; lit "question"].
Proof.
  intros Hh. destruct fixed_text_brace_free as (H1 & H2 & H3 & H4).
  rewrite template_shape.
  replace (before_context ++ lit "{context}"
             ++ (after_context ++ history_indent) ++ chat_history
             ++ (history_indent ++ before_question) ++ lit "{question}"
             ++ after_question)
    with (before_context ++ lit "{context}"
            ++ ((after_context ++ history_indent) ++ chat_history
                  ++ (history_indent ++ before_question))
            ++ lit "{question}" ++ after_question)
    by now repeat rewrite <- app_assoc.
  unfold template_variables.
  rewrite tokenize_up_to_history;
    [|exact H1|now rewrite brace_free_app, H2, brace_free_app, Hh, H3].
  rewrite (tokenize_last_slot _ H4). cbn [fst snd].
  rewrite field_names_literal, field_names_field.
  rewrite field_names_literal, field_names_field.
  rewrite <- (app_nil_r (map Lit after_question)), field_names_literal.
  reflexivity.
Qed.

Lemma getPromptTemplate_brace_free (chat_history : pystr) (w : World) :
  brace_free chat_history = true ->
  getPromptTemplate chat_history w
  = (Ok (mkPromptTemplate
           (template_head ++ template_history chat_history ++ template_tail)
           [lit "context"; lit "question"]),
     log (Printed (lit "Initializing prompt template...")) w).
Proof.
  intros Hh. apply getPromptTemplate_returns.
  now apply template_variables_brace_free.
Qed.

Example sample_prompt_constructed (w : World) :
  getPromptTemplate (lit "user: hi") w
  = (Ok sample_prompt, log (Printed (lit "Initializing prompt template...")) w).
Proof. apply getPromptTemplate_brace_free. vm_compute. reflexivity. Qed.

(** Positional fields, which a prompt has no argument for: the empty
    name and names of decimal digits, ASCII or not ([1635] is the
    Arabic-Indic digit three); a superscript two is a digit and no
    decimal, and is looked up as a keyword.  A field is filled before
    the text after it is scanned. *)
Example positional_fields :
  let kw := [(lit "context", lit "C"); (lit "question", lit "Q")] in
  vformat kw (lit "{}") = FormatRaises IndexError
  /\ vformat kw (lit "{0}") = FormatRaises IndexError
  /\ vformat kw [LBRACE; 1635%N; RBRACE] = FormatRaises IndexError
  /\ vformat kw [LBRACE; 178%N; RBRACE] = FormatRaises (KeyError [178%N])
  /\ vformat kw (lit "{9223372036854775808}")
     = FormatRaises (ValueError "Too many decimal digits in format string")
  /\ vformat kw (lit "{cones}{") = FormatRaises (KeyError (lit "cones"))
  /\ vformat kw (lit "{question}{")
     = FormatRaises (ValueError "Single '{' encountered in format string")
  /\ vformat kw (lit "{{question}}") = Formatted (lit "{question}").
Proof. vm_compute. repeat split. Qed.

(** Chat histories the constructor refuses. *)
Example constructor_refuses (w : World) :
  getPromptTemplate (lit "user: what is {") w
  = (Raise (ValueError "unmatched '{' in format spec"),
     log (Printed (lit "Initializing prompt template...")) w)
  /\ getPromptTemplate (lit "user: a } b") w
     = (Raise (ValueError "Single '}' encountered in format string"),
        log (Printed (lit "Initializing prompt template...")) w)
  /\ getPromptTemplate (lit "user: {0} scoops") w
     = (Raise (ValueError "Invalid variable name in f-string template"),
        log (Printed (lit "Initializing prompt template...")) w)
  /\ getPromptTemplate (lit "user: {menu.price}") w
     = (Raise (ValueError "Invalid variable name in f-string template"),
        log (Printed (lit "Initializing prompt template...")) w).
Proof.
  repeat split; apply getPromptTemplate_raises; vm_compute; reflexivity.
Qed.

Lemma prompt_text_in_order (context chat_history question : pystr) :
  in_order context chat_history question
           (prompt_text context chat_history question).
Proof.
  exists before_context, (after_context ++ history_indent),
    (history_indent ++ before_question), after_question.
  reflexivity.
Qed.

(** C7.  A chat history with a brace in it: the text is put into the
    template unescaped, so the formatter takes [{cones}] for a
    replacement field, and assembling the prompt raises [KeyError]
    instead of producing a prompt that contains the chat history. *)
Theorem braces_in_chat_history_break_prompt (w : World) :
  exists p w',
    getPromptTemplate (lit "user: Do you sell {cones}?") w = (Ok p, w')
    /\ assemble p (lit "Icyco sells cups.") (lit "And sprinkles?")
       = FormatRaises (KeyError (lit "cones")).
Proof.
  eexists. eexists.
  split; [apply (getPromptTemplate_returns
                   _ [lit "cones"; lit "context"; lit "question"]);
          vm_compute; reflexivity|].
  vm_compute. reflexivity.
Qed.

(** For a chat history without braces the template has the two input
    variables [context] and [question], and the prompt holds the
    context, the chat history and the question, in this order. *)
Lemma prompt_contains_all_three (chat_history context question : pystr) (w : World) :
  brace_free chat_history = true ->
  exists p w' text,
    getPromptTemplate chat_history w = (Ok p, w')
    /\ input_variables p = [lit "context"; lit "question"]
    /\ assemble p context question = Formatted text
    /\ in_order context chat_history question text.
Proof.
  intros Hh. eexists. eexists. eexists.
  split; [now apply getPromptTemplate_brace_free|].
  split; [reflexivity|].
  split; [rewrite assemble_template; now apply vformat_brace_free
         |apply prompt_text_in_order].
Qed.

(** C10.  The chat history is interpolated into the template text
    unescaped, so it is no constant of the template.  With the history
    [user: {question}] the template still declares [context] and
    [question], and two questions asked through this one template are
    shown two different chat histories, each its own text.  With the
    history [user: I like {topping}] the template declares three input
    variables. *)
Theorem chat_history_varies_with_question (w : World) :
  (exists p w',
      getPromptTemplate (lit "user: {question}") w = (Ok p, w')
      /\ input_variables p = [lit "context"; lit "question"]
      /\ assemble p (lit "Cups.") (lit "Cones?")
         = Formatted (prompt_text (lit "Cups.") (lit "user: Cones?") (lit "Cones?"))
      /\ assemble p (lit "Cups.") (lit "Bowls?")
         = Formatted (prompt_text (lit "Cups.") (lit "user: Bowls?") (lit "Bowls?")))
  /\ (exists p w',
         getPromptTemplate (lit "user: I like {topping}") w = (Ok p, w')
         /\ input_variables p = [lit "context"; lit "question"; lit "topping"]).
Proof.
  split.
  - eexists. eexists.
    split; [apply (getPromptTemplate_returns _ [lit "context"; lit "question"]);
            vm_compute; reflexivity|].
    split; [reflexivity|]. split; vm_compute; reflexivity.
  - eexists. eexists.
    split; [apply (getPromptTemplate_returns
                     _ [lit "context"; lit "question"; lit "topping"]);
            vm_compute; reflexivity|].
    reflexivity.
Qed.

(** ** Normalisation of the loaded pages *)

Lemma strip_decomp (s : pystr) :
  exists l r,
    s = l ++ strip s ++ r
    /\ forallb py_isspace l = true /\ forallb py_isspace r = true.
Proof.
  destruct (lstrip_decomp s) as (l & Hl & Hlw).
  destruct (rstrip_decomp (lstrip s)) as (r & Hr & Hrw).
  exists l, r. unfold strip. split; [|now split].
  now rewrite <- Hr.
Qed.

(** C6.  [clean_text] replaces every maximal run of whitespace by one
    space and removes the whitespace at both ends of the result; and
    [create_chunks] splits the pages it loaded only after replacing the
    text of every page by its [clean_text], metadata untouched. *)
Theorem clean_text_normalizes_pages :
  (forall s,
      re_sub_ws s = collapse_runs s
      /\ exists l r,
          re_sub_ws s = l ++ clean_text s ++ r
          /\ forallb py_isspace l = true
          /\ forallb py_isspace r = true
          /\ starts_with_space (clean_text s) = false
          /\ ends_with_space (clean_text s) = false)
  /\
  (forall file_path w pages w1,
      PyPDFLoader_load (lit "resources/" ++ file_path) w = (Ok pages, w1) ->
      create_chunks file_path w
      = split_documents getTextSplitter (map normalize_page pages) w1
      /\ map page_content (map normalize_page pages)
         = map clean_text (map page_content pages)
      /\ map metadata (map normalize_page pages) = map metadata pages).
Proof.
  split.
  - intros s. split; [apply re_sub_ws_runs|].
    destruct (strip_decomp (re_sub_ws s)) as (l & r & Hs & Hl & Hr).
    exists l, r. unfold clean_text. repeat split; try assumption.
    + unfold strip. apply rstrip_starts, lstrip_starts.
    + unfold strip. apply rstrip_ends.
  - intros file_path w pages w1 Hload. split; [|split].
    + unfold create_chunks. unfold bind at 1. rewrite Hload.
      unfold bind. cbv zeta.
      destruct (split_documents getTextSplitter (map normalize_page pages) w1)
        as [[chunks|e|] w2]; reflexivity.
    + rewrite !map_map. reflexivity.
    + rewrite map_map. reflexivity.
Qed.

Lemma clean_text_normalizes_pages_witness :
  create_chunks (lit "menu.pdf") (fresh_world true)
  = split_documents getTextSplitter (map normalize_page [sample_page])
      (snd (PyPDFLoader_load (lit "resources/menu.pdf") (fresh_world true)))
  /\ map page_content (map normalize_page [sample_page])
     = [lit "Icyco offers vanilla, chocolate, and strawberry flavors."].
Proof.
  destruct (proj2 clean_text_normalizes_pages (lit "menu.pdf") (fresh_world true)
                  [sample_page]
                  (snd (PyPDFLoader_load (lit "resources/menu.pdf") (fresh_world true))))
    as (Hrun & Hc & _).
  - vm_compute. reflexivity.
  - split; [exact Hrun|]. rewrite Hc. vm_compute. reflexivity.
Defined.

(** ** Chunking *)

Section Windows.

Variables size step : nat.
Hypothesis step_pos : 0 < step.
Hypothesis step_le_size : step <= size.

Lemma windows_head (fuel : nat) (t : pystr) :
  length t <= fuel -> 0 < length t ->
  exists later, windows fuel size step t = firstn size t :: later.
Proof.
  intros Hf Ht. destruct fuel as [|fuel]; [lia|]. simpl.
  destruct (length t <=? size) eqn:Hle.
  - apply Nat.leb_le in Hle. destruct t as [|c t]; [simpl in Ht; lia|].
    exists []. now rewrite firstn_all2.
  - now eexists.
Qed.

Lemma windows_bound (fuel : nat) (t : pystr) :
  Forall (fun c => length c <= size) (windows fuel size step t).
Proof.
  revert t. induction fuel as [|fuel IH]; intros t; simpl; [constructor|].
  destruct (length t <=? size) eqn:Hle.
  - apply Nat.leb_le in Hle. destruct t; repeat constructor. exact Hle.
  - constructor; [apply firstn_le_length|apply IH].
Qed.

Lemma windows_later (fuel : nat) (t : pystr) :
  length t <= fuel -> size - step < length t ->
  concat (map (skipn (size - step)) (windows fuel size step t))
  = skipn (size - step) t.
Proof.
  revert t. induction fuel as [|fuel IH]; intros t Hf Ht; [lia|]. simpl.
  destruct (length t <=? size) eqn:Hle.
  - destruct t as [|c t]; [simpl in Ht; lia|]. simpl. apply app_nil_r.
  - apply Nat.leb_gt in Hle. simpl.
    rewrite IH by (rewrite length_skipn; lia).
    rewrite skipn_skipn.
    replace (size - step + step) with size by lia.
    rewrite <- (firstn_skipn size t) at 3.
    rewrite skipn_app, length_firstn.
    replace (size - step - Nat.min size (length t)) with 0 by lia.
    reflexivity.
Qed.

Lemma windows_stitch (fuel : nat) (t : pystr) :
  length t <= fuel -> size < length t ->
  stitch (size - step) (windows fuel size step t) = t.
Proof.
  intros Hf Ht. destruct fuel as [|fuel]; [lia|]. simpl.
  destruct (length t <=? size) eqn:Hle; [apply Nat.leb_le in Hle; lia|].
  simpl. rewrite windows_later by (rewrite length_skipn; lia).
  rewrite skipn_skipn. replace (size - step + step) with size by lia.
  apply firstn_skipn.
Qed.

Lemma windows_overlapping (fuel : nat) (t : pystr) :
  length t <= fuel -> size - step < length t ->
  overlapping (size - step) (windows fuel size step t).
Proof.
  revert t. induction fuel as [|fuel IH]; intros t Hf Ht; [lia|]. simpl.
  destruct (length t <=? size) eqn:Hle.
  - destruct t; exact I.
  - apply Nat.leb_gt in Hle.
    assert (Hlen : length (skipn step t) <= fuel) by (rewrite length_skipn; lia).
    assert (Hov : size - step < length (skipn step t))
      by (rewrite length_skipn; lia).
    destruct (windows_head fuel (skipn step t) Hlen) as (later & Hw); [lia|].
    specialize (IH _ Hlen Hov). rewrite Hw in *.
    cbn [overlapping]. split; [|split; [|exact IH]].
    + rewrite length_firstn.
      replace (Nat.min size (length t) - (size - step)) with step by lia.
      rewrite skipn_firstn_comm, firstn_firstn.
      now replace (Nat.min (size - step) size) with (size - step) by lia.
    + rewrite firstn_firstn, length_firstn. lia.
Qed.

Lemma windows_at_least_two (fuel : nat) (t : pystr) :
  length t <= fuel -> size < length t ->
  2 <= length (windows fuel size step t).
Proof.
  intros Hf Ht. destruct fuel as [|fuel]; [lia|]. simpl.
  destruct (length t <=? size) eqn:Hle; [apply Nat.leb_le in Hle; lia|].
  destruct (windows_head fuel (skipn step t)) as (later & ->);
    try (rewrite length_skipn; lia).
  simpl. lia.
Qed.

End Windows.

(** C4.  Under the splitter's configuration, a text longer than the
    chunk size is cut into at least two chunks which together cover the
    text, each beginning with the last 50 characters of the chunk
    before it, and none longer than 400 characters. *)
Theorem chunks_cover_overlap_bounded (text : pystr) :
  chunk_size getTextSplitter < length text ->
  stitch 50 (split_text getTextSplitter text) = text
  /\ overlapping 50 (split_text getTextSplitter text)
  /\ Forall (fun chunk => length chunk <= 400) (split_text getTextSplitter text)
  /\ 2 <= length (split_text getTextSplitter text).
Proof.
  intros Hlen. unfold split_text. cbn [getTextSplitter chunk_size chunk_overlap] in *.
  change (400 - 50) with 350.
  assert (Hstep : 0 < 350) by lia. assert (Hle : 350 <= 400) by lia.
  split; [|split; [|split]].
  - apply (windows_stitch 400 350 Hstep Hle); lia.
  - apply (windows_overlapping 400 350 Hstep Hle); lia.
  - apply windows_bound.
  - apply (windows_at_least_two 400 350 Hstep Hle); lia.
Qed.

Lemma chunks_cover_overlap_bounded_witness :
  400 < length (repeat 97%N 1000)
  /\ stitch 50 (split_text getTextSplitter (repeat 97%N 1000)) = repeat 97%N 1000
  /\ map (@length N) (split_text getTextSplitter (repeat 97%N 1000)) = [400; 400; 300].
Proof.
  assert (Hlen : chunk_size getTextSplitter < length (repeat 97%N 1000))
    by (vm_compute; lia).
  destruct (chunks_cover_overlap_bounded (repeat 97%N 1000) Hlen) as (Hcover & _).
  split; [exact Hlen|]. split; [exact Hcover|].
  vm_compute. reflexivity.
Defined.

(** ** The retrieval chain *)

Lemma insert_nearest_perm (score : Document -> N) (d : Document) (l : list Document) :
  Permutation (insert_nearest score d l) (d :: l).
Proof.
  induction l as [|x l IH]; simpl; [apply Permutation_refl|].
  destruct (score x <? score d)%N; [apply Permutation_refl|].
  apply perm_trans with (x :: d :: l); [now apply perm_skip|apply perm_swap].
Qed.

Lemma nearest_first_perm (score : Document -> N) (docs : list Document) :
  Permutation (nearest_first score docs) docs.
Proof.
  induction docs as [|d docs IH]; simpl; [apply perm_nil|].
  apply perm_trans with (d :: nearest_first score docs).
  - apply insert_nearest_perm.
  - now apply perm_skip.
Qed.

Lemma insert_nearest_sorted (score : Document -> N) (d : Document) (l : list Document) :
  by_nearness score l -> by_nearness score (insert_nearest score d l).
Proof.
  unfold by_nearness. induction l as [|x l IH]; intros Hs; simpl.
  - repeat constructor.
  - inversion Hs as [|? ? Hl Hx]; subst.
    destruct (score x <? score d)%N eqn:Hlt.
    + apply N.ltb_lt in Hlt. constructor; [exact Hs|].
      constructor; [lia|]. revert Hx. apply Forall_impl. intros y Hy. lia.
    + apply N.ltb_ge in Hlt. constructor; [now apply IH|].
      apply (Permutation_Forall (Permutation_sym (insert_nearest_perm score d l))).
      constructor; [lia|exact Hx].
Qed.

Lemma nearest_first_sorted (score : Document -> N) (docs : list Document) :
  by_nearness score (nearest_first score docs).
Proof.
  induction docs as [|d docs IH]; simpl; [constructor|].
  now apply insert_nearest_sorted.
Qed.

Lemma sorted_split (score : Document -> N) (k : nat) (l : list Document) :
  by_nearness score l ->
  forall d d', In d (firstn k l) -> In d' (skipn k l) -> (score d' <= score d)%N.
Proof.
  unfold by_nearness. revert l. induction k as [|k IH]; intros l Hs d d' Hd Hd'.
  - destruct Hd.
  - destruct l as [|x l]; [destruct Hd|]. simpl in Hd, Hd'.
    inversion Hs as [|? ? Hl Hx]; subst. destruct Hd as [->|Hd].
    + rewrite Forall_forall in Hx. apply Hx.
      rewrite <- (firstn_skipn k l). apply in_or_app. now right.
    + now apply (IH l).
Qed.

(** What [top_k] returns: [k] chunks, or all of them when the index
    holds fewer; no chunk left out is nearer than a chunk returned. *)
Lemma top_k_nearest (k : nat) (score : Document -> N) (docs : list Document) :
  length (top_k k score docs) = Nat.min k (length docs)
  /\ exists farther,
      Permutation (top_k k score docs ++ farther) docs
      /\ forall d d', In d (top_k k score docs) -> In d' farther ->
                      (score d' <= score d)%N.
Proof.
  unfold top_k. split.
  - rewrite length_firstn. f_equal.
    apply Permutation_length, nearest_first_perm.
  - exists (skipn k (nearest_first score docs)). split.
    + rewrite firstn_skipn. apply nearest_first_perm.
    + apply sorted_split, nearest_first_sorted.
Qed.

Lemma createRagChain_value (llm : GoogleGenerativeAI) (vs : PineconeVectorStore)
      (p : PromptTemplate) (w : World) (qa : RetrievalQA) (w' : World) :
  createRagChain llm vs p w = (Ok qa, w') ->
  qa = mkRetrievalQA llm (mkRetriever vs 3) (lit "stuff") true p.
Proof.
  unfold createRagChain. intros H.
  apply bind_ok_inv in H as ([] & w1 & _ & H).
  apply bind_ok_inv in H as (retriever & w2 & Hr & H).
  apply bind_ok_inv in H as (qa_chain & w3 & Hq & H).
  apply bind_ok_inv in H as ([] & w4 & _ & H).
  inversion H; subst. clear H.
  unfold as_retriever, ext in Hr.
  destruct (fault w1 (clock w1) OpAsRetriever); [discriminate|].
  inversion Hr; subst. clear Hr.
  unfold from_chain_type, ext in Hq.
  destruct (fault _ _ OpRetrievalQA); [discriminate|].
  now inversion Hq.
Qed.

Lemma retrieve_value (r : Retriever) (question : pystr) (w : World)
      (docs : list Document) (w' : World) :
  retrieve r question w = (Ok docs, w') ->
  exists ix,
    find_index (vs_index (retriever_store r)) (indexes w) = Some ix
    /\ docs = top_k (search_k r) (similarity w question) (ix_vectors ix)
    /\ completion w' = completion w.
Proof.
  unfold retrieve, ext.
  destruct (fault w (clock w) OpSimilaritySearch); [discriminate|].
  rewrite indexes_tick.
  destruct (find_index (vs_index (retriever_store r)) (indexes w)) as [ix|];
    [|discriminate].
  intros H. inversion H; subst. now exists ix.
Qed.

Lemma format_prompt_value (p : PromptTemplate) (context question : pystr)
      (w : World) (text : pystr) (w' : World) :
  format_prompt p context question w = (Ok text, w') ->
  assemble p context question = Formatted text /\ w' = w.
Proof.
  unfold format_prompt.
  destruct (assemble p context question); intros H; inversion H; now subst.
Qed.

Lemma complete_value (llm : GoogleGenerativeAI) (prompt : pystr) (w : World)
      (answer : pystr) (w' : World) :
  complete llm prompt w = (Ok answer, w') -> answer = completion w prompt.
Proof.
  unfold complete, ext. destruct (fault w (clock w) OpLLM); [discriminate|].
  intros H. now inversion H.
Qed.

(** C8.  The chain built by [createRagChain] queries its retriever with
    [k = 3] and returns source documents.  For every question it
    answers, the response holds the retrieved chunks, which are the 3
    nearest chunks of the index by similarity (all of them when the
    index holds fewer than 3), together with the answer the model
    generated for the prompt made of these chunks and the question. *)
Theorem chain_answers_with_three_nearest
        (llm : GoogleGenerativeAI) (vs : PineconeVectorStore) (p : PromptTemplate)
        (w : World) (qa : RetrievalQA) (w1 : World) :
  createRagChain llm vs p w = (Ok qa, w1) ->
  search_k (qa_retriever qa) = 3
  /\ qa_return_source_documents qa = true
  /\ forall question w2 response w3,
      RetrievalQA_invoke qa question w2 = (Ok response, w3) ->
      exists ix docs farther prompt,
        find_index (vs_index vs) (indexes w2) = Some ix
        /\ response_source_documents response = Some docs
        /\ docs = top_k 3 (similarity w2 question) (ix_vectors ix)
        /\ length docs = Nat.min 3 (length (ix_vectors ix))
        /\ Permutation (docs ++ farther) (ix_vectors ix)
        /\ (forall d d', In d docs -> In d' farther ->
                         (similarity w2 question d' <= similarity w2 question d)%N)
        /\ assemble p (join [NEWLINE; NEWLINE] (map page_content docs)) question
           = Formatted prompt
        /\ response_result response = completion w2 prompt.
Proof.
  intros Hqa. apply createRagChain_value in Hqa. subst qa. cbn.
  split; [reflexivity|]. split; [reflexivity|].
  intros question w2 response w3 H. unfold RetrievalQA_invoke in H.
  apply bind_ok_inv in H as (docs & wa & Hr & H). cbv zeta in H.
  apply bind_ok_inv in H as (prompt & wb & Hf & H).
  apply bind_ok_inv in H as (answer & wc & Hc & H).
  inversion H; subst. clear H. cbn in *.
  apply retrieve_value in Hr as (ix & Hix & -> & Hcomp). cbn in *.
  apply format_prompt_value in Hf as [Hf ->].
  apply complete_value in Hc. rewrite Hcomp in Hc.
  destruct (top_k_nearest 3 (similarity w2 question) (ix_vectors ix))
    as (Hlen & farther & Hperm & Hnear).
  exists ix, (top_k 3 (similarity w2 question) (ix_vectors ix)), farther, prompt.
  repeat split; assumption || reflexivity.
Qed.

Lemma chain_answers_witness :
  exists docs,
    response_source_documents
      (mkResponse (lit "Vanilla, chocolate and strawberry!")
                  (Some [mkDocument (lit "Vanilla and chocolate") [];
                         mkDocument (lit "Opening hours") [];
                         mkDocument (lit "Strawberry") []])) = Some docs
    /\ length docs = Nat.min 3 (length sample_chunks).
Proof.
  destruct (chain_answers_with_three_nearest
              sample_llm sample_store sample_prompt stocked_world
              (mkRetrievalQA sample_llm (mkRetriever sample_store 3)
                             (lit "stuff") true sample_prompt)
              (snd (createRagChain sample_llm sample_store sample_prompt stocked_world)))
    as (_ & _ & Hinvoke); [vm_compute; reflexivity|].
  destruct (Hinvoke (lit "Which flavors?") stocked_world
                    (mkResponse (lit "Vanilla, chocolate and strawberry!")
                                (Some [mkDocument (lit "Vanilla and chocolate") [];
                                       mkDocument (lit "Opening hours") [];
                                       mkDocument (lit "Strawberry") []]))
                    (snd (RetrievalQA_invoke
                            (mkRetrievalQA sample_llm (mkRetriever sample_store 3)
                                           (lit "stuff") true sample_prompt)
                            (lit "Which flavors?") stocked_world)))
    as (ix & docs & farther & prompt & Hix & Hdocs & _ & Hlen & _);
    [vm_compute; reflexivity|].
  exists docs. split; [exact Hdocs|].
  rewrite Hlen. vm_compute in Hix. inversion Hix. reflexivity.
Defined.

(* ================================================================== *)
(** * Part III: further properties of the module                       *)
(* ================================================================== *)

(** ** [clean_text]: edge cases and invariants *)

Lemma sub_ws_all_space (b : bool) (s : pystr) :
  forallb py_isspace (sub_ws b s) = forallb py_isspace s.
Proof.
  revert b. induction s as [|c s IH]; intros b; simpl; [reflexivity|].
  destruct (py_isspace c) eqn:Hc.
  - destruct b; simpl; [apply IH|]. change (py_isspace SPACE) with true. apply IH.
  - simpl. now rewrite Hc.
Qed.

Lemma lstrip_nil_iff (s : pystr) :
  lstrip s = [] <-> forallb py_isspace s = true.
Proof.
  split; [|apply lstrip_all_space].
  induction s as [|c s IH]; simpl; [reflexivity|].
  destruct (py_isspace c); simpl; [exact IH|discriminate].
Qed.

Lemma strip_nil_iff (s : pystr) :
  strip s = [] <-> forallb py_isspace s = true.
Proof.
  unfold strip. split.
  - intros H.
    assert (Ha : forallb py_isspace (rstrip (lstrip s)) = true) by now rewrite H.
    rewrite rstrip_all_space_eq in Ha.
    pose proof (lstrip_starts s) as Hs.
    destruct (lstrip s) as [|c t] eqn:Hl; [now apply lstrip_nil_iff|].
    simpl in Ha, Hs. rewrite Hs in Ha. discriminate.
  - intros H. now rewrite (lstrip_all_space _ H).
Qed.

(** X1.  [clean_text] returns the empty string exactly for the inputs
    made of whitespace only (the empty string among them). *)
Theorem clean_text_empty_iff (s : pystr) :
  clean_text s = [] <-> forallb py_isspace s = true.
Proof.
  unfold clean_text, re_sub_ws. rewrite strip_nil_iff. now rewrite sub_ws_all_space.
Qed.

Lemma filter_rev_eq (A : Type) (f : A -> bool) (l : list A) :
  filter f (rev l) = rev (filter f l).
Proof.
  induction l as [|x l IH]; simpl; [reflexivity|].
  rewrite filter_app, IH. simpl. destruct (f x); simpl; [reflexivity|apply app_nil_r].
Qed.

Lemma lstrip_visible (s : pystr) :
  filter (fun c => negb (py_isspace c)) (lstrip s)
  = filter (fun c => negb (py_isspace c)) s.
Proof.
  induction s as [|c s IH]; simpl; [reflexivity|].
  destruct (py_isspace c) eqn:Hc; simpl; [exact IH|]. now rewrite Hc.
Qed.

Lemma sub_ws_visible (b : bool) (s : pystr) :
  filter (fun c => negb (py_isspace c)) (sub_ws b s)
  = filter (fun c => negb (py_isspace c)) s.
Proof.
  revert b. induction s as [|c s IH]; intros b; simpl; [reflexivity|].
  destruct (py_isspace c) eqn:Hc; simpl.
  - destruct b; simpl; [apply IH|]. change (py_isspace SPACE) with true. apply IH.
  - rewrite Hc. simpl. now rewrite IH.
Qed.

(** X2.  [clean_text] touches whitespace only: the characters that are
    not whitespace come out as they went in, all of them and in the
    same order. *)
Theorem clean_text_keeps_visible (s : pystr) :
  filter (fun c => negb (py_isspace c)) (clean_text s)
  = filter (fun c => negb (py_isspace c)) s.
Proof.
  unfold clean_text, strip, rstrip, re_sub_ws.
  rewrite filter_rev_eq, lstrip_visible, filter_rev_eq, rev_involutive.
  now rewrite lstrip_visible, sub_ws_visible.
Qed.

Lemma sub_ws_length (b : bool) (s : pystr) : length (sub_ws b s) <= length s.
Proof.
  revert b. induction s as [|c s IH]; intros b; simpl; [lia|].
  pose proof (IH true). pose proof (IH false).
  destruct (py_isspace c); [destruct b|]; simpl; lia.
Qed.

(** X3.  [clean_text] never lengthens a string. *)
Theorem clean_text_length (s : pystr) : length (clean_text s) <= length s.
Proof.
  unfold clean_text, strip, rstrip, re_sub_ws.
  rewrite length_rev.
  pose proof (lstrip_length (rev (lstrip (sub_ws false s)))) as H1.
  rewrite length_rev in H1.
  pose proof (lstrip_length (sub_ws false s)) as H2.
  pose proof (sub_ws_length false s) as H3. lia.
Qed.

(** X4.  The strings [clean_text] leaves unchanged are exactly those in
    which every whitespace character is a single space standing
    between two other characters. *)
Theorem clean_text_fixed_points (s : pystr) :
  clean_text s = s
  <-> collapsed false s = true
      /\ starts_with_space s = false
      /\ ends_with_space s = false.
Proof.
  split.
  - intros H. rewrite <- H. split; [apply clean_text_collapsed|].
    unfold clean_text, strip.
    split; [apply rstrip_starts, lstrip_starts|apply rstrip_ends].
  - intros (Hc & Hs & He). unfold clean_text, re_sub_ws.
    rewrite (collapsed_sub_ws _ _ Hc). unfold strip.
    rewrite (lstrip_fixed _ Hs). unfold rstrip.
    unfold ends_with_space in He. rewrite (lstrip_fixed _ He).
    apply rev_involutive.
Qed.

(** ** The prompt: what a chat history does to it *)

Lemma name_char_range (c : N) :
  name_char c = true ->
  (48 <= c <= 57 \/ 65 <= c <= 90 \/ c = 95 \/ 97 <= c <= 122)%N.
Proof.
  unfold name_char, name_start, ascii_digit. intros H.
  repeat (rewrite ?orb_true_iff, ?andb_true_iff, ?N.leb_le, ?N.eqb_eq in H).
  lia.
Qed.

Lemma name_start_range (c : N) :
  name_start c = true -> (65 <= c <= 90 \/ c = 95 \/ 97 <= c <= 122)%N.
Proof.
  unfold name_start. intros H.
  repeat (rewrite ?orb_true_iff, ?andb_true_iff, ?N.leb_le, ?N.eqb_eq in H).
  lia.
Qed.

(** No character of a keyword name has a meaning of its own in a
    replacement field. *)
Lemma name_char_plain (c : N) :
  name_char c = true ->
  (c =? LBRACE)%N = false /\ (c =? RBRACE)%N = false /\ (c =? COLON)%N = false
  /\ (c =? BANG)%N = false /\ (c =? LBRACKET)%N = false
  /\ (c =? RBRACKET)%N = false /\ (c =? DOT)%N = false.
Proof.
  intros H. apply name_char_range in H.
  unfold LBRACE, RBRACE, COLON, BANG, LBRACKET, RBRACKET, DOT.
  repeat split; apply N.eqb_neq; lia.
Qed.

Lemma keyword_name_chars (name : pystr) :
  keyword_name name = true -> forallb name_char name = true.
Proof.
  destruct name as [|c name]; [discriminate|]. cbn [keyword_name forallb].
  intros H. apply andb_prop in H as [Hc Hn]. unfold name_char at 1.
  now rewrite Hc, Hn.
Qed.

(** Inside a replacement field, a keyword name runs up to the closing
    brace. *)
Lemma tokenize_name (name acc rest : pystr) :
  forallb name_char name = true ->
  tokenize (InName acc false) (name ++ RBRACE :: rest)
  = push (Field (acc ++ name) None []) (tokenize InLiteral rest).
Proof.
  revert acc. induction name as [|c name IH]; intros acc Hn.
  - rewrite app_nil_r. reflexivity.
  - cbn [forallb] in Hn. apply andb_prop in Hn as [Hc Hn].
    destruct (name_char_plain _ Hc) as (H1 & H2 & H3 & H4 & H5 & _).
    cbn [app tokenize]. rewrite H1, H2, H3, H4, H5.
    etransitivity; [apply (IH (acc ++ [c]) Hn)|]. now rewrite <- app_assoc.
Qed.

Lemma tokenize_keyword_field (name rest : pystr) :
  keyword_name name = true ->
  tokenize InLiteral (LBRACE :: name ++ RBRACE :: rest)
  = push (Field name None []) (tokenize InLiteral rest).
Proof.
  intros Hk. pose proof (keyword_name_chars _ Hk) as Hn.
  destruct name as [|c name]; [discriminate|].
  change (tokenize InLiteral (LBRACE :: (c :: name) ++ RBRACE :: rest))
    with (if (c =? LBRACE)%N
          then push (Lit LBRACE) (tokenize InLiteral (name ++ RBRACE :: rest))
          else tokenize (InName [] false) ((c :: name) ++ RBRACE :: rest)).
  cbn [forallb] in Hn. apply andb_prop in Hn as [Hc Hn'].
  destruct (name_char_plain _ Hc) as (H1 & _). rewrite H1.
  apply (tokenize_name (c :: name) [] rest). cbn [forallb]. now rewrite Hc, Hn'.
Qed.

Lemma first_part_keyword (name : pystr) :
  forallb name_char name = true -> first_part name = (name, []).
Proof.
  induction name as [|c name IH]; [reflexivity|]. cbn [forallb]. intros H.
  apply andb_prop in H as [Hc Hn].
  destruct (name_char_plain _ Hc) as (_ & _ & _ & _ & H5 & _ & H7).
  cbn [first_part]. rewrite H5, H7, (IH Hn). reflexivity.
Qed.

Lemma keyword_not_a_number (name : pystr) :
  keyword_name name = true -> str_isindex name = false /\ str_isdigit name = false.
Proof.
  destruct name as [|c name]; [discriminate|]. cbn [keyword_name].
  intros H. apply andb_prop in H as [Hc _]. apply name_start_range in Hc.
  assert (Ha : ascii_digit c = false).
  { unfold ascii_digit. apply andb_false_iff.
    destruct (N.leb_spec 48 c); [right; apply N.leb_gt; lia|now left]. }
  assert (Hb : (128 <=? c)%N = false) by (apply N.leb_gt; lia).
  unfold str_isindex, str_isdigit. cbn [forallb].
  unfold py_isdecimal, py_isdigit. now rewrite Ha, Hb.
Qed.

Lemma keyword_valid_variable (name : pystr) :
  keyword_name name = true -> invalid_variable name = false.
Proof.
  intros Hk. unfold invalid_variable.
  destruct (keyword_not_a_number _ Hk) as [_ ->]. rewrite orb_false_r.
  pose proof (keyword_name_chars _ Hk) as Hn. clear Hk.
  induction name as [|c name IH]; [reflexivity|].
  cbn [forallb] in Hn. apply andb_prop in Hn as [Hc Hn].
  destruct (name_char_plain _ Hc) as (_ & _ & _ & _ & H5 & H6 & H7).
  cbn [existsb]. now rewrite H5, H6, H7, (IH Hn).
Qed.

(** A keyword name in a field stands for the keyword argument of that
    name. *)
Lemma fill_field_keyword (kw : pydict) (name : pystr) :
  keyword_name name = true ->
  fill_field kw name None []
  = match dict_get name kw with
    | Some value => Formatted value
    | None => FormatRaises (KeyError name)
    end.
Proof.
  intros Hk. unfold fill_field.
  rewrite (first_part_keyword _ (keyword_name_chars _ Hk)). cbn [fst snd].
  destruct (keyword_not_a_number _ Hk) as [-> _].
  destruct name as [|c name]; [discriminate|]. cbn [is_empty].
  destruct (dict_get (c :: name) kw); reflexivity.
Qed.

Lemma vformat_keyword_field (kw : pydict) (name rest : pystr) :
  keyword_name name = true ->
  vformat kw (LBRACE :: name ++ RBRACE :: rest)
  = match dict_get name kw with
    | Some value => fmt_prefix value (vformat kw rest)
    | None => FormatRaises (KeyError name)
    end.
Proof.
  intros Hk. unfold vformat. rewrite (tokenize_keyword_field _ _ Hk).
  cbn [push fst snd format_tokens]. rewrite (fill_field_keyword _ _ Hk).
  destruct (dict_get name kw); reflexivity.
Qed.

Lemma dict_get_other (name context question : pystr) :
  name <> lit "context" -> name <> lit "question" ->
  dict_get name [(lit "context", context); (lit "question", question)] = None.
Proof.
  intros Hc Hq. cbn [dict_get].
  destruct (pystr_eqb (lit "context") name) eqn:E1.
  { apply pystr_eqb_eq in E1. now contradiction Hc. }
  destruct (pystr_eqb (lit "question") name) eqn:E2.
  { apply pystr_eqb_eq in E2. now contradiction Hq. }
  reflexivity.
Qed.

(** The format of a template of the module's shape, up to the chat
    history. *)
Lemma vformat_up_to_history (context question a b rest : pystr) :
  brace_free a = true -> brace_free b = true ->
  vformat [(lit "context", context); (lit "question", question)]
          (a ++ lit "{context}" ++ b ++ rest)
  = fmt_prefix (a ++ context ++ b)
      (vformat [(lit "context", context); (lit "question", question)] rest).
Proof.
  intros Ha Hb.
  rewrite (vformat_literal _ _ _ Ha), vformat_context, (vformat_literal _ _ _ Hb).
  rewrite !fmt_prefix_app. now repeat rewrite <- app_assoc.
Qed.

Lemma In_insert_name (x name : pystr) (sorted : list pystr) :
  In x (insert_name name sorted) <-> x = name \/ In x sorted.
Proof.
  induction sorted as [|y rest IH]; cbn [insert_name].
  - simpl. intuition.
  - destruct (pystr_eqb name y) eqn:E.
    + apply pystr_eqb_eq in E. subst y. simpl. intuition.
    + destruct (pystr_ltb name y); simpl; [intuition|].
      rewrite IH. intuition.
Qed.

Lemma In_sorted_set (x : pystr) (names : list pystr) :
  In x (sorted_set names) <-> In x names.
Proof.
  unfold sorted_set. induction names as [|n names IH]; cbn [fold_right].
  - reflexivity.
  - rewrite In_insert_name, IH. simpl. intuition.
Qed.

(** X5.  With a chat history free of braces, the prompt of every
    context and every question, braces in them or not, is the fixed
    text with the context, the chat history and the question put in
    verbatim, in this order. *)
Theorem prompt_of_plain_history (chat_history context question : pystr) (w : World) :
  brace_free chat_history = true ->
  exists p w',
    getPromptTemplate chat_history w = (Ok p, w')
    /\ assemble p context question
       = Formatted (prompt_text context chat_history question)
    /\ in_order context chat_history question
                (prompt_text context chat_history question).
Proof.
  intros Hh. eexists. eexists.
  split; [now apply getPromptTemplate_brace_free|].
  split; [rewrite assemble_template; now apply vformat_brace_free
         |apply prompt_text_in_order].
Qed.

Lemma prompt_of_plain_history_witness :
  exists p w',
    getPromptTemplate (lit "user: hi") (fresh_world true) = (Ok p, w')
    /\ assemble p (lit "{cups}") (lit "Why {}?")
       = Formatted (prompt_text (lit "{cups}") (lit "user: hi") (lit "Why {}?")).
Proof.
  assert (Hh : brace_free (lit "user: hi") = true) by (vm_compute; reflexivity).
  destruct (prompt_of_plain_history (lit "user: hi") (lit "{cups}") (lit "Why {}?")
                                    (fresh_world true) Hh)
    as (p & w' & Hp & Hf & _).
  exists p, w'. split; [exact Hp|exact Hf].
Defined.

Lemma history_with_question_shape (a b : pystr) :
  template_head ++ template_history (a ++ lit "{question}" ++ b) ++ template_tail
  = before_context ++ lit "{context}" ++ ((after_context ++ history_indent) ++ a)
      ++ lit "{question}" ++ (b ++ history_indent ++ before_question)
      ++ lit "{question}" ++ after_question.
Proof. rewrite template_shape. now repeat rewrite <- app_assoc. Qed.

(** X6.  A chat history that contains the text [{question}] is not
    quoted back: the template takes it for its own slot, and the prompt
    shows the current question in its place. *)
Theorem history_slot_is_substituted (a b context question : pystr) (w : World) :
  brace_free a = true -> brace_free b = true ->
  exists p w',
    getPromptTemplate (a ++ lit "{question}" ++ b) w = (Ok p, w')
    /\ assemble p context question
       = Formatted (prompt_text context (a ++ question ++ b) question).
Proof.
  intros Ha Hb. destruct fixed_text_brace_free as (H1 & H2 & H3 & H4).
  assert (Ha' : brace_free ((after_context ++ history_indent) ++ a) = true)
    by now rewrite brace_free_app, H2, Ha.
  assert (Hb' : brace_free (b ++ history_indent ++ before_question) = true)
    by now rewrite brace_free_app, Hb, H3.
  eexists. eexists.
  split.
  - apply (getPromptTemplate_returns _ [lit "context"; lit "question"]).
    rewrite history_with_question_shape. unfold template_variables.
    rewrite (tokenize_up_to_history _ _ _ H1 Ha'), tokenize_question.
    rewrite (tokenize_literal _ _ Hb'), (tokenize_last_slot _ H4).
    cbn [push fst snd].
    rewrite field_names_literal, field_names_field.
    rewrite field_names_literal, field_names_field.
    rewrite field_names_literal, field_names_field.
    rewrite <- (app_nil_r (map Lit after_question)), field_names_literal.
    reflexivity.
  - rewrite assemble_template, history_with_question_shape.
    rewrite (vformat_up_to_history _ _ _ _ _ H1 Ha').
    rewrite vformat_question, (vformat_literal _ _ _ Hb').
    rewrite vformat_question. rewrite <- (app_nil_r after_question) at 1.
    rewrite (vformat_literal _ _ _ H4), vformat_nil.
    rewrite !fmt_prefix_app. simpl fmt_prefix.
    unfold prompt_text. repeat rewrite <- app_assoc. now rewrite app_nil_r.
Qed.

Lemma history_slot_is_substituted_witness :
  exists p w',
    getPromptTemplate (lit "user: say {question} twice") (fresh_world true) = (Ok p, w')
    /\ assemble p (lit "Cups.") (lit "Cones?")
       = Formatted (prompt_text (lit "Cups.") (lit "user: say Cones? twice")
                                (lit "Cones?")).
Proof.
  assert (Ha : brace_free (lit "user: say ") = true) by (vm_compute; reflexivity).
  assert (Hb : brace_free (lit " twice") = true) by (vm_compute; reflexivity).
  destruct (history_slot_is_substituted (lit "user: say ") (lit " twice")
                                        (lit "Cups.") (lit "Cones?") (fresh_world true)
                                        Ha Hb)
    as (p & w' & Hp & Hf).
  exists p, w'. split; [exact Hp|exact Hf].
Defined.

Lemma history_with_field_shape (a name b : pystr) :
  template_head ++ template_history (a ++ [LBRACE] ++ name ++ [RBRACE] ++ b)
    ++ template_tail
  = before_context ++ lit "{context}" ++ ((after_context ++ history_indent) ++ a)
      ++ LBRACE :: name ++ RBRACE
           :: (b ++ (history_indent ++ before_question) ++ lit "{question}"
                 ++ after_question).
Proof. rewrite template_shape. repeat rewrite <- app_assoc. reflexivity. Qed.

(** X7.  A chat history with a keyword name in braces, other than
    [context] and [question], after text without braces: whatever
    follows the name in the history, either the construction of the
    template raises [ValueError], or the template has the name among
    its input variables and formatting it raises [KeyError] of that
    name, whatever the context and the question.  When no brace follows
    the name, it is the second: the template is constructed, with the
    three input variables. *)
Theorem history_field_raises_key_error
        (a name b context question : pystr) (w : World) :
  brace_free a = true ->
  keyword_name name = true ->
  name <> lit "context" -> name <> lit "question" ->
  ((exists msg w',
       getPromptTemplate (a ++ [LBRACE] ++ name ++ [RBRACE] ++ b) w
       = (Raise (ValueError msg), w'))
   \/ (exists p w',
          getPromptTemplate (a ++ [LBRACE] ++ name ++ [RBRACE] ++ b) w = (Ok p, w')
          /\ In name (input_variables p)
          /\ assemble p context question = FormatRaises (KeyError name)))
  /\ (brace_free b = true ->
      exists p w',
        getPromptTemplate (a ++ [LBRACE] ++ name ++ [RBRACE] ++ b) w = (Ok p, w')
        /\ input_variables p = sorted_set [lit "context"; name; lit "question"]
        /\ assemble p context question = FormatRaises (KeyError name)).
Proof.
  intros Ha Hn Hc Hq. destruct fixed_text_brace_free as (H1 & H2 & H3 & H4).
  assert (Ha' : brace_free ((after_context ++ history_indent) ++ a) = true)
    by now rewrite brace_free_app, H2, Ha.
  assert (Hfmt :
            vformat [(lit "context", context); (lit "question", question)]
                    (template_head
                       ++ template_history (a ++ [LBRACE] ++ name ++ [RBRACE] ++ b)
                       ++ template_tail)
            = FormatRaises (KeyError name)).
  { rewrite history_with_field_shape.
    rewrite (vformat_up_to_history _ _ _ _ _ H1 Ha').
    rewrite (vformat_keyword_field _ _ _ Hn), (dict_get_other _ _ _ Hc Hq).
    reflexivity. }
  assert (Hscan :
            forall variables,
              template_variables
                (template_head
                   ++ template_history (a ++ [LBRACE] ++ name ++ [RBRACE] ++ b)
                   ++ template_tail) = inr variables ->
              exists others,
                variables = sorted_set (lit "context" :: name :: others)).
  { intros variables. rewrite history_with_field_shape. unfold template_variables.
    rewrite (tokenize_up_to_history _ _ _ H1 Ha'), (tokenize_keyword_field _ _ Hn).
    cbn [push fst snd].
    match goal with
    | |- context [tokenize InLiteral ?t] => destruct (tokenize InLiteral t) as [ts [msg|]]
    end; cbn [fst snd]; [discriminate|].
    rewrite field_names_literal, field_names_field.
    rewrite field_names_literal, field_names_field.
    destruct (existsb invalid_variable _); [discriminate|].
    intros H. inversion H. now exists (field_names ts). }
  split.
  - destruct (template_variables
                (template_head
                   ++ template_history (a ++ [LBRACE] ++ name ++ [RBRACE] ++ b)
                   ++ template_tail)) as [msg|variables] eqn:E.
    + left. eexists. eexists. apply (getPromptTemplate_raises _ _ _ E).
    + right. eexists. eexists.
      split; [apply (getPromptTemplate_returns _ _ _ E)|].
      split; [|rewrite assemble_template; exact Hfmt].
      destruct (Hscan _ eq_refl) as (others & ->). cbn [input_variables].
      apply In_sorted_set. right. now left.
  - intros Hb.
    assert (Hb' : brace_free (b ++ history_indent ++ before_question) = true)
      by now rewrite brace_free_app, Hb, H3.
    eexists. eexists.
    split; [apply (getPromptTemplate_returns
                     _ (sorted_set [lit "context"; name; lit "question"]))|].
    + rewrite history_with_field_shape. unfold template_variables.
      rewrite (tokenize_up_to_history _ _ _ H1 Ha'), (tokenize_keyword_field _ _ Hn).
      replace (b ++ (history_indent ++ before_question) ++ lit "{question}"
                 ++ after_question)
        with ((b ++ history_indent ++ before_question) ++ lit "{question}"
                ++ after_question)
        by now repeat rewrite <- app_assoc.
      rewrite (tokenize_literal _ _ Hb'), (tokenize_last_slot _ H4).
      cbn [push fst snd].
      rewrite field_names_literal, field_names_field.
      rewrite field_names_literal, field_names_field.
      rewrite field_names_literal, field_names_field.
      rewrite <- (app_nil_r (map Lit after_question)), field_names_literal.
      cbn [field_names flat_map existsb].
      rewrite (keyword_valid_variable _ Hn). reflexivity.
    + split; [reflexivity|]. rewrite assemble_template. exact Hfmt.
Qed.

Lemma history_field_raises_key_error_witness :
  exists p w',
    getPromptTemplate (lit "Assistant: try {flavor} today") (fresh_world true)
    = (Ok p, w')
    /\ input_variables p = [lit "context"; lit "flavor"; lit "question"]
    /\ assemble p (lit "Cups.") (lit "Cones?") = FormatRaises (KeyError (lit "flavor")).
Proof.
  assert (Ha : brace_free (lit "Assistant: try ") = true) by (vm_compute; reflexivity).
  assert (Hn : keyword_name (lit "flavor") = true) by (vm_compute; reflexivity).
  assert (Hc : lit "flavor" <> lit "context") by discriminate.
  assert (Hq : lit "flavor" <> lit "question") by discriminate.
  assert (Hb : brace_free (lit " today") = true) by (vm_compute; reflexivity).
  destruct (history_field_raises_key_error
              (lit "Assistant: try ") (lit "flavor") (lit " today")
              (lit "Cups.") (lit "Cones?") (fresh_world true) Ha Hn Hc Hq)
    as (_ & Hplain).
  destruct (Hplain Hb) as (p & w' & Hp & Hv & Hf).
  exists p, w'. split; [exact Hp|]. split; [exact Hv|exact Hf].
Defined.

(** ** Runs come to an end *)

Lemma ends_ret (A : Type) (a : A) : comes_to_an_end (ret a).
Proof. intros w r w' H. inversion H. discriminate. Qed.

Lemma ends_raise (A : Type) (e : exn) : comes_to_an_end (@raise A e).
Proof. intros w r w' H. inversion H. discriminate. Qed.

Lemma ends_print (msg : pystr) : comes_to_an_end (print msg).
Proof. intros w r w' H. inversion H. discriminate. Qed.

Lemma ends_getenv (name : pystr) : comes_to_an_end (os_getenv name).
Proof. intros w r w' H. inversion H. discriminate. Qed.

Lemma ends_ext (A : Type) (op : ext_op) (arg : pystr)
      (sem : World -> result A * World) :
  silent sem -> comes_to_an_end (ext op arg sem).
Proof.
  intros Hsem w r w' H.
  destruct (ext_cases _ _ _ _ _ _ _ Hsem H) as [(a & -> & _)|(e & -> & _)];
    discriminate.
Qed.

Lemma ends_bind (A B : Type) (m : M A) (k : A -> M B) :
  comes_to_an_end m -> (forall a, comes_to_an_end (k a)) ->
  comes_to_an_end (bind m k).
Proof.
  intros Hm Hk w r w'. unfold bind.
  destruct (m w) as [[a|e|] w1] eqn:Hmw; intros H.
  - exact (Hk a _ _ _ H).
  - inversion H. discriminate.
  - now contradiction (Hm _ _ _ Hmw).
Qed.

Lemma ends_for_each (A : Type) (xs : list A) (body : A -> M unit) :
  (forall x, comes_to_an_end (body x)) -> comes_to_an_end (for_each xs body).
Proof.
  intros Hb. induction xs as [|x xs IH]; simpl; [apply ends_ret|].
  apply ends_bind; [apply Hb|]. intros _. exact IH.
Qed.

Create HintDb ends.

#[local] Hint Resolve ends_ret ends_raise ends_print ends_getenv : ends.

Ltac ends_step :=
  match goal with
  | |- comes_to_an_end (bind _ _) => apply ends_bind; [|intros]
  | |- comes_to_an_end (ext _ _ _) => apply ends_ext; silent_sem
  | |- comes_to_an_end (for_each _ _) => apply ends_for_each; intros
  | |- comes_to_an_end (if ?c then _ else _) => destruct c
  | |- comes_to_an_end (match ?c with _ => _ end) => destruct c
  | |- comes_to_an_end _ => solve [auto with ends]
  end.

Lemma bind_cong_left (A B : Type) (m1 m2 : M A) (k : A -> M B) (w : World) :
  m1 w = m2 w -> bind m1 k w = bind m2 k w.
Proof. intros H. unfold bind. now rewrite H. Qed.

(** The loop of line 42 is decided by the first evaluation of its
    condition: its body raises. *)
Lemma poll_once (fuel : nat) (pc : Pinecone) (name : pystr) (w : World) :
  while_loop (S fuel) (not_ready pc name) (call_sleep time 1) w
  = while_loop 1 (not_ready pc name) (call_sleep time 1) w.
Proof.
  simpl. unfold bind at 1 3.
  destruct (not_ready pc name w) as [[[|]|e|] w1]; reflexivity.
Qed.

Lemma ends_not_ready (pc : Pinecone) (name : pystr) :
  comes_to_an_end (not_ready pc name).
Proof. unfold not_ready, describe_index. repeat ends_step. Qed.

Lemma ends_poll (fuel : nat) (pc : Pinecone) (name : pystr) :
  comes_to_an_end (while_loop (S fuel) (not_ready pc name) (call_sleep time 1)).
Proof.
  intros w r w' H. rewrite poll_once in H. revert H. simpl.
  apply ends_bind; [apply ends_not_ready|].
  intros [|]; [|apply ends_ret].
  intros v r' v' H. unfold bind in H. simpl in H. inversion H. discriminate.
Qed.

Lemma ends_create_chunks (file_path : pystr) : comes_to_an_end (create_chunks file_path).
Proof.
  unfold create_chunks, PyPDFLoader_load, split_documents. repeat ends_step.
Qed.

Lemma ends_extend_chunks (pdfs : list pystr) (chunks : list Document) :
  comes_to_an_end (extend_chunks pdfs chunks).
Proof.
  revert chunks. induction pdfs as [|pdf rest IH]; intros chunks; simpl.
  - apply ends_ret.
  - apply ends_bind; [apply ends_create_chunks|]. intros more. apply IH.
Qed.

Lemma ends_add_documents_to_vector_store (vs : PineconeVectorStore)
      (pdfs : list pystr) :
  comes_to_an_end (add_documents_to_vector_store vs pdfs).
Proof.
  unfold add_documents_to_vector_store, add_documents.
  apply ends_bind; [apply ends_extend_chunks|]. intros. ends_step.
Qed.

Lemma ends_create_vector_store (fuel : nat) (pc : Pinecone) (name : pystr)
      (pdfs : list pystr) (emb : Embedding) :
  comes_to_an_end (create_vector_store (S fuel) pc name pdfs emb).
Proof.
  unfold create_vector_store, create_index, pc_Index, PineconeVectorStore_new.
  repeat (apply ends_poll || apply ends_add_documents_to_vector_store || ends_step).
Qed.

Lemma create_vector_store_fuel (fuel : nat) (pc : Pinecone) (name : pystr)
      (pdfs : list pystr) (emb : Embedding) (w : World) :
  create_vector_store (S fuel) pc name pdfs emb w
  = create_vector_store 1 pc name pdfs emb w.
Proof.
  unfold create_vector_store. apply bind_cong. intros [] w1 _.
  unfold bind at 1 3. now rewrite poll_once.
Qed.

(** X8.  Provisioning always comes to an end: examined with at least
    one evaluation of the loop condition, no run of [get_vector_store]
    or [create_vector_store] is left waiting, and allowing the loop more
    iterations changes neither the outcome nor the world, since the loop
    body never completes an iteration. *)
Theorem provisioning_never_waits (fuel : nat) (name : pystr) (pdfs : list pystr) :
  (forall w, get_vector_store (S fuel) name pdfs w = get_vector_store 1 name pdfs w)
  /\ comes_to_an_end (get_vector_store (S fuel) name pdfs)
  /\ (forall pc emb w,
         create_vector_store (S fuel) pc name pdfs emb w
         = create_vector_store 1 pc name pdfs emb w)
  /\ (forall pc emb, comes_to_an_end (create_vector_store (S fuel) pc name pdfs emb)).
Proof.
  split; [|split; [|split]].
  - intros w. unfold get_vector_store.
    do 5 (apply bind_cong; intros ? ? _). cbv zeta.
    destruct (negb _); [|reflexivity].
    apply bind_cong_left. apply bind_cong. intros [] w5 _.
    apply bind_cong_left. apply create_vector_store_fuel.
  - unfold get_vector_store, Pinecone_new, getEmbeddingModel, FastEmbedEmbeddings_new,
      list_indexes, pc_Index, PineconeVectorStore_new.
    repeat (apply ends_create_vector_store || ends_step).
  - intros pc emb w. apply create_vector_store_fuel.
  - intros pc emb. apply ends_create_vector_store.
Qed.

(** ** No sleep, one status request *)

Lemma calm_quiet (A : Type) (m : M A) :
  (forall w r w', m w = (r, w') -> trace w' = trace w) -> calm 0 m.
Proof.
  intros Hm w r w' H. exists []. rewrite app_nil_r.
  split; [exact (Hm _ _ _ H)|]. split; [reflexivity|simpl; lia].
Qed.

Lemma calm_ret (A : Type) (a : A) : calm 0 (ret a).
Proof. apply calm_quiet. intros w r w' H. now inversion H. Qed.

Lemma calm_raise (A : Type) (e : exn) : calm 0 (@raise A e).
Proof. apply calm_quiet. intros w r w' H. now inversion H. Qed.

Lemma calm_getenv (name : pystr) : calm 0 (os_getenv name).
Proof. apply calm_quiet. intros w r w' H. now inversion H. Qed.

Lemma calm_print (msg : pystr) : calm 0 (print msg).
Proof.
  intros w r w' H. inversion H; subst. exists [Printed msg].
  split; [reflexivity|]. split; [reflexivity|simpl; lia].
Qed.

Lemma calm_mono (n m : nat) (A : Type) (c : M A) : n <= m -> calm n c -> calm m c.
Proof.
  intros Hle Hc w r w' H. destruct (Hc _ _ _ H) as (evs & Ht & Hs & Hd).
  exists evs. repeat split; try assumption. lia.
Qed.

Lemma calm_ext (A : Type) (op : ext_op) (arg : pystr)
      (sem : World -> result A * World) :
  silent sem -> op <> OpDescribeIndex -> calm 0 (ext op arg sem).
Proof.
  intros Hsem Hop w r w' H.
  destruct (ext_cases _ _ _ _ _ _ _ Hsem H) as [(a & -> & Ht)|(e & -> & Ht)].
  - exists [Called op arg]. split; [exact Ht|]. split; [reflexivity|].
    destruct op; simpl; try lia. now contradiction Hop.
  - exists [Failed op e]. split; [exact Ht|]. split; [reflexivity|].
    destruct op; simpl; try lia. now contradiction Hop.
Qed.

Lemma calm_describe (pc : Pinecone) (name : pystr) : calm 1 (describe_index pc name).
Proof.
  intros w r w' H.
  destruct (ext_cases _ _ _ _ _ _ _ (silent_describe_index name) H)
    as [(a & -> & Ht)|(e & -> & Ht)];
    eexists; (split; [exact Ht|]); split; try reflexivity; simpl; lia.
Qed.

Lemma calm_bind (a b : nat) (A B : Type) (m : M A) (k : A -> M B) :
  calm a m -> (forall x, calm b (k x)) -> calm (a + b) (bind m k).
Proof.
  intros Hm Hk w r w'. unfold bind.
  destruct (m w) as [[x|e|] w1] eqn:Hmw;
    destruct (Hm _ _ _ Hmw) as (evs1 & Ht1 & Hs1 & Hd1); intros H.
  - destruct (Hk x _ _ _ H) as (evs2 & Ht2 & Hs2 & Hd2).
    exists (evs1 ++ evs2). split; [now rewrite Ht2, Ht1, app_assoc|].
    rewrite existsb_app, Hs1, Hs2, filter_app, length_app.
    split; [reflexivity|lia].
  - inversion H; subst. exists evs1. repeat split; try assumption. lia.
  - inversion H; subst. exists evs1. repeat split; try assumption. lia.
Qed.

Lemma calm_bind0 (A B : Type) (m : M A) (k : A -> M B) :
  calm 0 m -> (forall x, calm 0 (k x)) -> calm 0 (bind m k).
Proof. apply (calm_bind 0 0). Qed.

Ltac calm_step :=
  match goal with
  | |- calm 0 (bind _ _) => apply calm_bind0; [|intros]
  | |- calm 0 (ext _ _ _) => apply calm_ext; [silent_sem|discriminate]
  | |- calm 0 (ret _) => apply calm_ret
  | |- calm 0 (raise _) => apply calm_raise
  | |- calm 0 (print _) => apply calm_print
  | |- calm 0 (os_getenv _) => apply calm_getenv
  end.

Lemma calm_poll (fuel : nat) (pc : Pinecone) (name : pystr) :
  calm 1 (while_loop fuel (not_ready pc name) (call_sleep time 1)).
Proof.
  destruct fuel as [|fuel].
  - apply (calm_mono 0); [lia|]. apply calm_quiet. intros w r w' H. now inversion H.
  - intros w r w' H. rewrite poll_once in H. revert w r w' H.
    change (calm 1 (while_loop 1 (not_ready pc name) (call_sleep time 1))).
    simpl. apply (calm_bind 1 0).
    + unfold not_ready. apply (calm_bind 1 0); [apply calm_describe|].
      intros st. apply calm_ret.
    + intros [|]; [|apply calm_ret].
      apply calm_quiet. intros w r w' H. unfold bind in H. simpl in H.
      now inversion H.
Qed.

Lemma calm_create_chunks (file_path : pystr) : calm 0 (create_chunks file_path).
Proof.
  unfold create_chunks, PyPDFLoader_load, split_documents. repeat calm_step.
Qed.

Lemma calm_extend_chunks (pdfs : list pystr) (chunks : list Document) :
  calm 0 (extend_chunks pdfs chunks).
Proof.
  revert chunks. induction pdfs as [|pdf rest IH]; intros chunks; simpl.
  - apply calm_ret.
  - apply calm_bind0; [apply calm_create_chunks|]. intros more. apply IH.
Qed.

Lemma calm_add_documents_to_vector_store (vs : PineconeVectorStore)
      (pdfs : list pystr) :
  calm 0 (add_documents_to_vector_store vs pdfs).
Proof.
  unfold add_documents_to_vector_store, add_documents.
  apply calm_bind0; [apply calm_extend_chunks|]. intros. calm_step.
Qed.

Lemma calm_create_vector_store (fuel : nat) (pc : Pinecone) (name : pystr)
      (pdfs : list pystr) (emb : Embedding) :
  calm 1 (create_vector_store fuel pc name pdfs emb).
Proof.
  unfold create_vector_store.
  apply (calm_bind 0 1); [unfold create_index; calm_step|]. intros _.
  apply (calm_bind 1 0); [apply calm_poll|]. intros _.
  unfold pc_Index, PineconeVectorStore_new.
  repeat (apply calm_add_documents_to_vector_store || calm_step).
Qed.

Lemma calm_get_vector_store (fuel : nat) (name : pystr) (pdfs : list pystr) :
  calm 1 (get_vector_store fuel name pdfs).
Proof.
  unfold get_vector_store, Pinecone_new, getEmbeddingModel, FastEmbedEmbeddings_new,
    list_indexes.
  apply (calm_bind 0 1); [calm_step|]. intros _.
  apply (calm_bind 0 1); [calm_step|]. intros api_key.
  apply (calm_bind 0 1); [calm_step|]. intros pc.
  apply (calm_bind 0 1); [repeat calm_step|]. intros emb.
  apply (calm_bind 0 1); [calm_step|]. intros infos. cbv zeta.
  apply (calm_bind 1 0).
  - destruct (negb _); [|apply (calm_mono 0); [lia|apply calm_ret]].
    apply (calm_bind 0 1); [calm_step|]. intros _.
    apply (calm_bind 1 0); [apply calm_create_vector_store|]. intros _.
    apply calm_ret.
  - intros _. unfold pc_Index, PineconeVectorStore_new. repeat calm_step.
Qed.

(** X9.  In no run, whatever the provider answers and whichever
    dependency fails, does [get_vector_store] or [create_vector_store]
    sleep, and in no run is the provider asked for the status of the
    index more than once. *)
Theorem provisioning_asks_once_and_never_sleeps
        (fuel : nat) (name : pystr) (pdfs : list pystr) :
  (forall w r w' evs,
      get_vector_store fuel name pdfs w = (r, w') ->
      trace w' = trace w ++ evs ->
      existsb sleep_event evs = false
      /\ length (filter describe_event evs) <= 1)
  /\
  (forall pc emb w r w' evs,
      create_vector_store fuel pc name pdfs emb w = (r, w') ->
      trace w' = trace w ++ evs ->
      existsb sleep_event evs = false
      /\ length (filter describe_event evs) <= 1).
Proof.
  split.
  - intros w r w' evs H Ht.
    destruct (calm_get_vector_store fuel name pdfs _ _ _ H) as (evs' & Ht' & Hs & Hd).
    rewrite Ht' in Ht. apply app_inv_head in Ht. subst evs'. now split.
  - intros pc emb w r w' evs H Ht.
    destruct (calm_create_vector_store fuel pc name pdfs emb _ _ _ H)
      as (evs' & Ht' & Hs & Hd).
    rewrite Ht' in Ht. apply app_inv_head in Ht. subst evs'. now split.
Qed.

Lemma provisioning_asks_once_witness :
  let run := get_vector_store 3 (lit "icyco") [lit "menu.pdf"] (fresh_world true) in
  existsb sleep_event (trace (snd run)) = false
  /\ length (filter describe_event (trace (snd run))) <= 1.
Proof.
  cbv zeta.
  apply (proj1 (provisioning_asks_once_and_never_sleeps
                  3 (lit "icyco") [lit "menu.pdf"])
               (fresh_world true)
               (fst (get_vector_store 3 (lit "icyco") [lit "menu.pdf"] (fresh_world true)))
               (snd (get_vector_store 3 (lit "icyco") [lit "menu.pdf"] (fresh_world true))));
    vm_compute; reflexivity.
Defined.

(** ** What provisioning does to the provider's indexes *)

Section Respects.

Variable R : World -> World -> Prop.
Hypothesis R_refl : forall w, R w w.
Hypothesis R_trans : forall a b c, R a b -> R b c -> R a c.
Hypothesis R_log : forall ev w, R w (log ev w).
Hypothesis R_tick : forall w, R w (tick w).

Lemma respects_ret (A : Type) (a : A) : respects R (ret a).
Proof. intros w r w' H. inversion H; subst. apply R_refl. Qed.

Lemma respects_raise (A : Type) (e : exn) : respects R (@raise A e).
Proof. intros w r w' H. inversion H; subst. apply R_refl. Qed.

Lemma respects_print (msg : pystr) : respects R (print msg).
Proof. intros w r w' H. inversion H; subst. apply R_log. Qed.

Lemma respects_getenv (name : pystr) : respects R (os_getenv name).
Proof. intros w r w' H. inversion H; subst. apply R_refl. Qed.

Lemma respects_call_sleep (o : pyobj) (seconds : nat) :
  respects R (call_sleep o seconds).
Proof.
  unfold call_sleep. destruct (hasattr o "sleep"); [|apply respects_raise].
  intros w r w' H. inversion H; subst. apply R_log.
Qed.

Lemma respects_ext (A : Type) (op : ext_op) (arg : pystr)
      (sem : World -> result A * World) :
  (forall v r v', sem v = (r, v') -> R v v') -> respects R (ext op arg sem).
Proof.
  intros Hsem w r w'. unfold ext.
  destruct (fault w (clock w) op) as [e|].
  - intros H. inversion H; subst. eapply R_trans; [apply R_tick|apply R_log].
  - destruct (sem (tick w)) as [[a|e|] v] eqn:Hs; intros H; inversion H; subst;
      (eapply R_trans; [apply R_tick|]);
      (eapply R_trans; [apply (Hsem _ _ _ Hs)|]);
      try apply R_log; apply R_refl.
Qed.

Lemma respects_bind (A B : Type) (m : M A) (k : A -> M B) :
  respects R m -> (forall a, respects R (k a)) -> respects R (bind m k).
Proof.
  intros Hm Hk w r w'. unfold bind.
  destruct (m w) as [[a|e|] w1] eqn:Hmw; intros H.
  - eapply R_trans; [apply (Hm _ _ _ Hmw)|apply (Hk a _ _ _ H)].
  - inversion H; subst. apply (Hm _ _ _ Hmw).
  - inversion H; subst. apply (Hm _ _ _ Hmw).
Qed.

Lemma respects_while (fuel : nat) (cond : M bool) (body : M unit) :
  respects R cond -> respects R body -> respects R (while_loop fuel cond body).
Proof.
  intros Hc Hb. induction fuel as [|fuel IH]; simpl.
  - intros w r w' H. inversion H; subst. apply R_refl.
  - apply respects_bind; [exact Hc|]. intros [|]; [|apply respects_ret].
    apply respects_bind; [exact Hb|]. intros _. exact IH.
Qed.

End Respects.

Lemma same_indexes_refl (w : World) : same_indexes w w.
Proof. reflexivity. Qed.

Lemma same_indexes_trans (a b c : World) :
  same_indexes a b -> same_indexes b c -> same_indexes a c.
Proof. unfold same_indexes. congruence. Qed.

Lemma same_indexes_log (ev : event) (w : World) : same_indexes w (log ev w).
Proof. reflexivity. Qed.

Lemma same_indexes_tick (w : World) : same_indexes w (tick w).
Proof. reflexivity. Qed.

Ltac same_indexes_sem :=
  let v := fresh "v" in
  let r := fresh "r" in
  let v' := fresh "v'" in
  let H := fresh "H" in
  intros v r v' H;
  repeat match type of H with
         | context [if ?c then _ else _] => destruct c
         | context [resources ?w ?p] => destruct (resources w p)
         end;
  inversion H; subst; reflexivity.

Ltac same_indexes_step :=
  match goal with
  | |- respects same_indexes (bind _ _) =>
      apply (respects_bind same_indexes same_indexes_trans); [|intros]
  | |- respects same_indexes (ext _ _ _) =>
      apply (respects_ext same_indexes same_indexes_refl same_indexes_trans
                          same_indexes_log same_indexes_tick);
      same_indexes_sem
  | |- respects same_indexes (ret _) => apply (respects_ret same_indexes same_indexes_refl)
  | |- respects same_indexes (raise _) =>
      apply (respects_raise same_indexes same_indexes_refl)
  | |- respects same_indexes (print _) =>
      apply (respects_print same_indexes same_indexes_log)
  | |- respects same_indexes (os_getenv _) =>
      apply (respects_getenv same_indexes same_indexes_refl)
  | |- respects same_indexes (call_sleep _ _) =>
      apply (respects_call_sleep same_indexes same_indexes_refl same_indexes_log)
  | |- respects same_indexes (while_loop _ _ _) =>
      apply (respects_while same_indexes same_indexes_refl same_indexes_trans)
  end.

Lemma same_indexes_create_chunks (file_path : pystr) :
  respects same_indexes (create_chunks file_path).
Proof.
  unfold create_chunks, PyPDFLoader_load, split_documents. repeat same_indexes_step.
Qed.

Lemma same_indexes_extend_chunks (pdfs : list pystr) (chunks : list Document) :
  respects same_indexes (extend_chunks pdfs chunks).
Proof.
  revert chunks. induction pdfs as [|pdf rest IH]; intros chunks; simpl.
  - same_indexes_step.
  - same_indexes_step; [apply same_indexes_create_chunks|apply IH].
Qed.

Lemma same_indexes_poll (fuel : nat) (pc : Pinecone) (name : pystr) :
  respects same_indexes (while_loop fuel (not_ready pc name) (call_sleep time 1)).
Proof. unfold not_ready, describe_index. repeat same_indexes_step. Qed.

Lemma same_resources_refl (w : World) : same_resources w w.
Proof. reflexivity. Qed.

Lemma same_resources_trans (a b c : World) :
  same_resources a b -> same_resources b c -> same_resources a c.
Proof. unfold same_resources. congruence. Qed.

Lemma same_resources_log (ev : event) (w : World) : same_resources w (log ev w).
Proof. reflexivity. Qed.

Lemma same_resources_tick (w : World) : same_resources w (tick w).
Proof. reflexivity. Qed.

Ltac same_resources_step :=
  match goal with
  | |- respects same_resources (bind _ _) =>
      apply (respects_bind same_resources same_resources_trans); [|intros]
  | |- respects same_resources (ext _ _ _) =>
      apply (respects_ext same_resources same_resources_refl same_resources_trans
                          same_resources_log same_resources_tick);
      same_indexes_sem
  | |- respects same_resources (ret _) =>
      apply (respects_ret same_resources same_resources_refl)
  | |- respects same_resources (raise _) =>
      apply (respects_raise same_resources same_resources_refl)
  | |- respects same_resources (print _) =>
      apply (respects_print same_resources same_resources_log)
  | |- respects same_resources (call_sleep _ _) =>
      apply (respects_call_sleep same_resources same_resources_refl
                                 same_resources_log)
  | |- respects same_resources (while_loop _ _ _) =>
      apply (respects_while same_resources same_resources_refl same_resources_trans)
  end.

(** Up to the ingestion, [create_vector_store] leaves the [resources/]
    directory alone. *)
Lemma same_resources_create_index (pc : Pinecone) (name : pystr) (dimension : nat)
      (metric cloud region : pystr) :
  respects same_resources (create_index pc name dimension metric cloud region).
Proof. unfold create_index. same_resources_step. Qed.

Lemma same_resources_poll (fuel : nat) (pc : Pinecone) (name : pystr) :
  respects same_resources (while_loop fuel (not_ready pc name) (call_sleep time 1)).
Proof. unfold not_ready, describe_index. repeat same_resources_step. Qed.

Lemma same_resources_pc_Index (pc : Pinecone) (name : pystr) :
  respects same_resources (pc_Index pc name).
Proof. unfold pc_Index. same_resources_step. Qed.

Lemma same_resources_PineconeVectorStore_new (index : pystr) (emb : Embedding) :
  respects same_resources (PineconeVectorStore_new index emb).
Proof. unfold PineconeVectorStore_new. same_resources_step. Qed.

(** The two ways a bound computation ends. *)
Lemma bind_cases (A B : Type) (m : M A) (k : A -> M B) (w : World)
      (r : result B) (w' : World) :
  bind m k w = (r, w') ->
  (exists a w1, m w = (Ok a, w1) /\ k a w1 = (r, w'))
  \/ (exists r0, m w = (r0, w') /\ (forall a, r0 <> Ok a) /\ (forall b, r <> Ok b)).
Proof.
  unfold bind. destruct (m w) as [[a|e|] w1]; intros H.
  - left. now exists a, w1.
  - right. inversion H; subst. exists (Raise e). repeat split; discriminate.
  - right. inversion H; subst. exists Pending. repeat split; discriminate.
Qed.

Lemma create_index_inv (pc : Pinecone) (name : pystr) (dimension : nat)
      (metric cloud region : pystr) (w : World) (r : result unit) (w' : World) :
  create_index pc name dimension metric cloud region w = (r, w') ->
  (r = Ok tt /\ has_index name (indexes w) = false
   /\ indexes w' = indexes w ++ [mkIndex name dimension metric cloud region []])
  \/ ((forall a, r <> Ok a) /\ indexes w' = indexes w).
Proof.
  unfold create_index, ext.
  destruct (fault w (clock w) OpCreateIndex).
  { intros H. inversion H; subst. right. split; [discriminate|reflexivity]. }
  rewrite indexes_tick.
  destruct (has_index name (indexes w)) eqn:Hi; intros H; inversion H; subst.
  - right. split; [discriminate|reflexivity].
  - left. repeat split.
Qed.

Lemma add_documents_inv (vs : PineconeVectorStore) (chunks : list Document)
      (w : World) (r : result unit) (w' : World) :
  add_documents vs chunks w = (r, w') ->
  (r = Ok tt /\ has_index (vs_index vs) (indexes w) = true
   /\ indexes w' = map (upsert (vs_index vs) chunks) (indexes w))
  \/ ((forall a, r <> Ok a) /\ indexes w' = indexes w).
Proof.
  unfold add_documents, ext.
  destruct (fault w (clock w) OpAddDocuments).
  { intros H. inversion H; subst. right. split; [discriminate|reflexivity]. }
  rewrite indexes_tick.
  destruct (has_index (vs_index vs) (indexes w)) eqn:Hi; intros H; inversion H; subst.
  - left. repeat split.
  - right. split; [discriminate|reflexivity].
Qed.

Lemma ingestion_all_or_nothing (vs : PineconeVectorStore) (pdfs : list pystr)
      (w : World) (r : result unit) (w' : World) :
  add_documents_to_vector_store vs pdfs w = (r, w') ->
  (r = Ok tt
   /\ exists chunks w1,
       extend_chunks pdfs [] w = (Ok chunks, w1)
       /\ has_index (vs_index vs) (indexes w) = true
       /\ indexes w' = map (upsert (vs_index vs) chunks) (indexes w))
  \/ ((forall a, r <> Ok a) /\ indexes w' = indexes w).
Proof.
  unfold add_documents_to_vector_store. intros H.
  apply bind_cases in H as [(chunks & w1 & He & H)|(r0 & He & _ & Hr)].
  - pose proof (same_indexes_extend_chunks _ _ _ _ _ He) as Hs.
    unfold same_indexes in Hs.
    apply add_documents_inv in H as [(-> & Hi & Hx)|(Hr & Hx)].
    + left. split; [reflexivity|]. exists chunks, w1. rewrite <- Hs. now repeat split.
    + right. split; [exact Hr|congruence].
  - right. split; [exact Hr|].
    exact (same_indexes_extend_chunks _ _ _ _ _ He).
Qed.

Lemma loading_only_refl (w : World) : loading_only w w.
Proof.
  repeat split. exists []. split; [now rewrite app_nil_r|reflexivity].
Qed.

Lemma loading_only_trans (a b c : World) :
  loading_only a b -> loading_only b c -> loading_only a c.
Proof.
  intros (Hx1 & Hr1 & e1 & Ht1 & Hq1) (Hx2 & Hr2 & e2 & Ht2 & Hq2).
  split; [congruence|]. split; [congruence|].
  exists (e1 ++ e2). split.
  - rewrite Ht2, Ht1. now rewrite app_assoc.
  - rewrite existsb_app, Hq1, Hq2. reflexivity.
Qed.

Lemma PyPDFLoader_load_run (path : pystr) (w : World) (r : result (list Document))
      (w' : World) :
  PyPDFLoader_load path w = (r, w') ->
  loading_only w w' /\ forall pages, r = Ok pages -> resources w path = Some pages.
Proof.
  unfold PyPDFLoader_load, ext. destruct (fault w (clock w) OpPdfLoad) as [e|].
  { intros H. inversion H; subst. split; [|discriminate].
    repeat split. exists [Failed OpPdfLoad e]. now split. }
  cbn [resources tick set_clock].
  destruct (resources w path) as [pages|]; intros H; inversion H; subst.
  - split; [|intros pages' Hp; now inversion Hp].
    repeat split. exists [Called OpPdfLoad path]. now split.
  - split; [|discriminate].
    repeat split. exists [Failed OpPdfLoad (FileError path)]. now split.
Qed.

Lemma split_documents_run (sp : TextSplitter) (documents : list Document)
      (w : World) (r : result (list Document)) (w' : World) :
  split_documents sp documents w = (r, w') ->
  loading_only w w'
  /\ forall chunks, r = Ok chunks -> chunks = flat_map (split_document sp) documents.
Proof.
  unfold split_documents, ext. destruct (fault w (clock w) OpSplitDocuments) as [e|];
    intros H; inversion H; subst.
  - split; [|discriminate].
    repeat split. exists [Failed OpSplitDocuments e]. now split.
  - split; [|intros chunks Hc; now inversion Hc].
    repeat split. exists [Called OpSplitDocuments []]. now split.
Qed.

Lemma create_chunks_run (file_path : pystr) (w : World) (r : result (list Document))
      (w' : World) :
  create_chunks file_path w = (r, w') ->
  loading_only w w'
  /\ forall chunks,
      r = Ok chunks ->
      exists pages,
        resources w (lit "resources/" ++ file_path) = Some pages
        /\ chunks = pdf_chunks pages.
Proof.
  unfold create_chunks. intros H.
  apply bind_cases in H as [(pages & w1 & Hl & H)|(r0 & Hl & _ & Hr)].
  2:{ apply PyPDFLoader_load_run in Hl as [Hl _]. split; [exact Hl|].
      intros chunks Hc. now contradiction (Hr chunks). }
  apply PyPDFLoader_load_run in Hl as [Hl Hpages]. specialize (Hpages _ eq_refl).
  cbv zeta in H.
  apply bind_cases in H as [(chunks & w2 & Hs & H)|(r0 & Hs & _ & Hr)].
  2:{ apply split_documents_run in Hs as [Hs _].
      split; [exact (loading_only_trans _ _ _ Hl Hs)|].
      intros chunks Hc. now contradiction (Hr chunks). }
  apply split_documents_run in Hs as [Hs Hchunks]. specialize (Hchunks _ eq_refl).
  inversion H; subst. split; [exact (loading_only_trans _ _ _ Hl Hs)|].
  intros chunks Hc. inversion Hc; subst. now exists pages.
Qed.

Lemma all_chunks_resources (w w' : World) (pdfs : list pystr) :
  resources w' = resources w -> all_chunks w' pdfs = all_chunks w pdfs.
Proof. intros H. unfold all_chunks. now rewrite H. Qed.

(** The loop over the PDFs: it only loads and splits; when it returns,
    every PDF was readable and the list holds the chunks of them all. *)
Lemma extend_chunks_run (pdfs : list pystr) (acc : list Document) (w : World)
      (r : result (list Document)) (w' : World) :
  extend_chunks pdfs acc w = (r, w') ->
  loading_only w w'
  /\ forall chunks,
      r = Ok chunks ->
      chunks = acc ++ all_chunks w pdfs /\ Forall (readable w) pdfs.
Proof.
  revert acc w. induction pdfs as [|pdf rest IH]; intros acc w H.
  - inversion H; subst. split; [apply loading_only_refl|].
    intros chunks Hc. inversion Hc; subst. split; [|constructor].
    cbn [all_chunks flat_map]. now rewrite app_nil_r.
  - cbn [extend_chunks] in H.
    apply bind_cases in H as [(more & w1 & Hc & H)|(r0 & Hc & _ & Hr)].
    2:{ apply create_chunks_run in Hc as [Hc _]. split; [exact Hc|].
        intros chunks Hk. now contradiction (Hr chunks). }
    apply create_chunks_run in Hc as [Hl Hmore].
    destruct (Hmore _ eq_refl) as (pages & Hres & ->).
    apply IH in H as [Hl' Hrest].
    split; [exact (loading_only_trans _ _ _ Hl Hl')|].
    intros chunks Hk. destruct (Hrest _ Hk) as [-> Hall].
    destruct Hl as (_ & Hr1 & _).
    split.
    + rewrite (all_chunks_resources _ _ _ Hr1).
      unfold all_chunks at 2. cbn [flat_map]. rewrite Hres.
      now rewrite <- app_assoc.
    + constructor.
      * unfold readable. rewrite Hres. discriminate.
      * unfold readable in *. rewrite <- Hr1. exact Hall.
Qed.

Lemma add_documents_event (vs : PineconeVectorStore) (chunks : list Document)
      (w : World) (r : result unit) (w' : World) :
  add_documents vs chunks w = (r, w') ->
  exists ev,
    trace w' = trace w ++ [ev]
    /\ upsert_event ev = true
    /\ (r = Ok tt ->
        ev = Called OpAddDocuments (vs_index vs)
        /\ indexes w' = map (upsert (vs_index vs) chunks) (indexes w)).
Proof.
  unfold add_documents, ext. destruct (fault w (clock w) OpAddDocuments) as [e|].
  { intros H. inversion H; subst. exists (Failed OpAddDocuments e).
    repeat split; discriminate. }
  rewrite indexes_tick.
  destruct (has_index (vs_index vs) (indexes w)); intros H; inversion H; subst.
  - exists (Called OpAddDocuments (vs_index vs)). repeat split.
  - exists (Failed OpAddDocuments (NotFound (vs_index vs))).
    repeat split; discriminate.
Qed.

(** X10.  [add_documents_to_vector_store] sends nothing to the index
    before every PDF of the list has been loaded and split.  When a
    load or a split fails, the run ends there: no upsert was requested,
    and the indexes are as they were.  Otherwise every PDF was readable
    and one upsert follows, the last event of the run; when it returns,
    the index holds, after what it held, the chunks of all the PDFs in
    the order of the list. *)
Theorem upsert_follows_all_chunks
        (vs : PineconeVectorStore) (pdfs : list pystr) (w : World) :
  match add_documents_to_vector_store vs pdfs w with
  | (r, w') =>
      ((forall chunks, fst (extend_chunks pdfs [] w) <> Ok chunks)
       /\ (forall a, r <> Ok a)
       /\ w' = snd (extend_chunks pdfs [] w)
       /\ loading_only w w')
      \/ (exists w1 ev,
             extend_chunks pdfs [] w = (Ok (all_chunks w pdfs), w1)
             /\ Forall (readable w) pdfs
             /\ loading_only w w1
             /\ trace w' = trace w1 ++ [ev]
             /\ upsert_event ev = true
             /\ (r = Ok tt ->
                 ev = Called OpAddDocuments (vs_index vs)
                 /\ indexes w'
                    = map (upsert (vs_index vs) (all_chunks w pdfs)) (indexes w)))
  end.
Proof.
  destruct (add_documents_to_vector_store vs pdfs w) as [r w'] eqn:H.
  unfold add_documents_to_vector_store in H.
  apply bind_cases in H as [(chunks & w1 & He & H)|(r0 & He & Hr0 & Hr)].
  - right. pose proof (extend_chunks_run _ _ _ _ _ He) as [Hl Hc].
    destruct (Hc _ eq_refl) as [-> Hall]. cbn [app] in *.
    destruct (add_documents_event _ _ _ _ _ H) as (ev & Ht & Hu & Hok).
    exists w1, ev. repeat split; try assumption.
    + apply Hl.
    + apply Hl.
    + apply Hl.
    + now apply Hok.
    + destruct Hl as (Hx & _). rewrite <- Hx. now apply Hok.
  - left. rewrite He. cbn [fst snd]. repeat split; try assumption.
    + exact (proj1 (proj1 (extend_chunks_run _ _ _ _ _ He))).
    + exact (proj1 (proj2 (proj1 (extend_chunks_run _ _ _ _ _ He)))).
    + exact (proj2 (proj2 (proj1 (extend_chunks_run _ _ _ _ _ He)))).
Qed.

Lemma map_upsert_absent (name : pystr) (chunks : list Document) (ixs : list Index) :
  has_index name ixs = false -> map (upsert name chunks) ixs = ixs.
Proof.
  unfold has_index. induction ixs as [|ix ixs IH]; simpl; [reflexivity|].
  intros H. apply orb_false_iff in H as [Hx Hr].
  rewrite (IH Hr). unfold upsert. now rewrite Hx.
Qed.

Lemma pystr_eqb_refl (a : pystr) : pystr_eqb a a = true.
Proof. now apply pystr_eqb_eq. Qed.

Lemma upsert_new_index (name : pystr) (chunks : list Document) (ixs : list Index) :
  has_index name ixs = false ->
  map (upsert name chunks) (ixs ++ [new_index name []]) = ixs ++ [new_index name chunks].
Proof.
  intros H. rewrite map_app, (map_upsert_absent _ _ _ H). simpl.
  unfold upsert. cbn [ix_name new_index]. now rewrite pystr_eqb_refl.
Qed.

Lemma pc_Index_inv (pc : Pinecone) (name : pystr) (w : World) (r : result pystr)
      (w' : World) :
  pc_Index pc name w = (r, w') ->
  indexes w' = indexes w /\ forall a, r = Ok a -> a = name.
Proof.
  unfold pc_Index, ext. destruct (fault w (clock w) OpIndex); intros H;
    inversion H; subst; (split; [reflexivity|]); intros a Ha; now inversion Ha.
Qed.

Lemma PineconeVectorStore_new_inv (index : pystr) (emb : Embedding) (w : World)
      (r : result PineconeVectorStore) (w' : World) :
  PineconeVectorStore_new index emb w = (r, w') ->
  indexes w' = indexes w /\ forall vs, r = Ok vs -> vs = mkVectorStore index emb.
Proof.
  unfold PineconeVectorStore_new, ext.
  destruct (fault w (clock w) OpVectorStore); intros H;
    inversion H; subst; (split; [reflexivity|]); intros a Ha; now inversion Ha.
Qed.

(** The three ways [create_vector_store] leaves the provider: nothing
    created, the index created and left empty, the index created and
    filled. *)
Lemma create_vector_store_indexes (fuel : nat) (pc : Pinecone) (name : pystr)
      (pdfs : list pystr) (emb : Embedding) (w : World)
      (r : result PineconeVectorStore) (w' : World) :
  create_vector_store fuel pc name pdfs emb w = (r, w') ->
  (indexes w' = indexes w /\ forall vs, r <> Ok vs)
  \/ (has_index name (indexes w) = false
      /\ indexes w' = indexes w ++ [new_index name []]
      /\ forall vs, r <> Ok vs)
  \/ (has_index name (indexes w) = false
      /\ r = Ok (mkVectorStore name emb)
      /\ exists chunks w0 w1,
          extend_chunks pdfs [] w0 = (Ok chunks, w1)
          /\ indexes w' = indexes w ++ [new_index name chunks]
          /\ resources w0 = resources w).
Proof.
  unfold create_vector_store. intros H.
  apply bind_cases in H as [([] & w1 & Hc & H)|(r0 & Hc & Hr0 & Hr)].
  2:{ left. split; [|exact Hr].
      apply create_index_inv in Hc as [(-> & _)|(_ & Hx)]; [|exact Hx].
      now contradiction (Hr0 tt). }
  pose proof (same_resources_create_index _ _ _ _ _ _ _ _ _ Hc) as Hs1.
  apply create_index_inv in Hc as [(_ & Habs & Hx1)|(Hn & _)];
    [|now contradiction (Hn tt)].
  fold (new_index name []) in Hx1.
  apply bind_cases in H as [([] & w2 & Hp & H)|(r0 & Hp & _ & Hr)].
  2:{ right. left. repeat split; try assumption.
      now rewrite (same_indexes_poll _ _ _ _ _ _ Hp). }
  pose proof (same_indexes_poll _ _ _ _ _ _ Hp) as Hx2. unfold same_indexes in Hx2.
  pose proof (same_resources_poll _ _ _ _ _ _ Hp) as Hs2.
  apply bind_cases in H as [([] & w3 & Hpr & H)|(r0 & Hpr & Hn & _)].
  2:{ inversion Hpr; subst. now contradiction (Hn tt). }
  inversion Hpr; subst w3. clear Hpr.
  apply bind_cases in H as [(index & w4 & Hi & H)|(r0 & Hi & _ & Hr)].
  2:{ right. left. repeat split; try assumption.
      destruct (pc_Index_inv _ _ _ _ _ Hi) as [Hx _].
      rewrite Hx, indexes_log. congruence. }
  destruct (pc_Index_inv _ _ _ _ _ Hi) as [Hx4 Hname].
  rewrite indexes_log in Hx4. specialize (Hname _ eq_refl). subst index.
  apply bind_cases in H as [(vs & w5 & Hv & H)|(r0 & Hv & _ & Hr)].
  2:{ right. left. repeat split; try assumption.
      destruct (PineconeVectorStore_new_inv _ _ _ _ _ Hv) as [Hx _]. congruence. }
  destruct (PineconeVectorStore_new_inv _ _ _ _ _ Hv) as [Hx5 Hvs].
  specialize (Hvs _ eq_refl). subst vs.
  apply bind_cases in H as [([] & w6 & Ha & H)|(r0 & Ha & Hn0 & Hr)].
  - inversion H; subst. right. right. split; [exact Habs|]. split; [reflexivity|].
    apply ingestion_all_or_nothing in Ha
      as [(_ & chunks & wa & He & _ & Hx6)|(Hn & _)]; [|now contradiction (Hn tt)].
    exists chunks, w5, wa. split; [exact He|]. split.
    + cbn [vs_index] in Hx6. rewrite Hx6, Hx5, Hx4, Hx2, Hx1.
      now apply upsert_new_index.
    + pose proof (same_resources_pc_Index _ _ _ _ _ Hi) as Hs4.
      pose proof (same_resources_PineconeVectorStore_new _ _ _ _ _ Hv) as Hs5.
      unfold same_resources in *. cbn [resources log] in Hs4. congruence.
  - right. left. repeat split; try assumption.
    apply ingestion_all_or_nothing in Ha as [(Hok & _)|(_ & Hx6)].
    + now contradiction (Hn0 tt).
    + congruence.
Qed.

(** X11.  When [create_vector_store] returns, the index was not at the
    provider before, every PDF of the list was readable, and the
    provider's list is the one before followed by the new index:
    dimension 384, cosine metric, AWS region us-east-1, holding the
    chunks of all the PDFs, in the order of the list. *)
Theorem create_vector_store_returns_filled_index
        (fuel : nat) (pc : Pinecone) (name : pystr) (pdfs : list pystr)
        (emb : Embedding) (w : World) (vs : PineconeVectorStore) (w' : World) :
  create_vector_store fuel pc name pdfs emb w = (Ok vs, w') ->
  vs = mkVectorStore name emb
  /\ has_index name (indexes w) = false
  /\ Forall (readable w) pdfs
  /\ indexes w' = indexes w ++ [new_index name (all_chunks w pdfs)].
Proof.
  intros H.
  apply create_vector_store_indexes in H
    as [(_ & Hr)|[(_ & _ & Hr)|(Habs & Hvs & chunks & w0 & w1 & He & Hx & Hres)]];
    try (now contradiction (Hr vs)).
  inversion Hvs; subst vs.
  destruct (extend_chunks_run _ _ _ _ _ He) as [_ Hc].
  destruct (Hc _ eq_refl) as [-> Hall]. cbn [app] in Hx.
  rewrite (all_chunks_resources _ _ _ Hres) in Hx.
  repeat split; try assumption.
  unfold readable in *. rewrite <- Hres. exact Hall.
Qed.

Lemma create_vector_store_returns_filled_index_witness :
  map (fun ix => (ix_name ix, ix_dimension ix, map page_content (ix_vectors ix)))
      (indexes (snd (create_vector_store 1 sample_pc (lit "icyco") [lit "menu.pdf"]
                                         mkEmbedding (fresh_world true))))
  = [(lit "icyco", 384,
      [lit "Icyco offers vanilla, chocolate, and strawberry flavors."])].
Proof.
  assert (Hrun :
            create_vector_store 1 sample_pc (lit "icyco") [lit "menu.pdf"]
                                mkEmbedding (fresh_world true)
            = (Ok sample_store,
               snd (create_vector_store 1 sample_pc (lit "icyco") [lit "menu.pdf"]
                                        mkEmbedding (fresh_world true))))
    by (vm_compute; reflexivity).
  destruct (create_vector_store_returns_filled_index _ _ _ _ _ _ _ _ Hrun)
    as (_ & _ & _ & Hx).
  rewrite Hx. vm_compute. reflexivity.
Defined.

Lemma get_vector_store_indexes (fuel : nat) (name : pystr) (pdfs : list pystr)
      (w : World) (r : result PineconeVectorStore) (w' : World) :
  get_vector_store fuel name pdfs w = (r, w') ->
  indexes w' = indexes w
  \/ (has_index name (indexes w) = false
      /\ exists chunks, indexes w' = indexes w ++ [new_index name chunks]).
Proof.
  destruct (has_index name (indexes w)) eqn:Hi.
  { intros H. left. rewrite (get_vector_store_existing _ _ _ _ Hi) in H.
    assert (Hs : respects same_indexes (reuse_vector_store name)).
    { unfold reuse_vector_store, Pinecone_new, getEmbeddingModel,
        FastEmbedEmbeddings_new, list_indexes, pc_Index, PineconeVectorStore_new.
      repeat same_indexes_step. }
    exact (Hs _ _ _ H). }
  unfold get_vector_store. intros H.
  assert (Hprefix :
            forall (A : Type) (m : M A) (k : A -> M PineconeVectorStore) w0,
              respects same_indexes m ->
              bind m k w0 = (r, w') ->
              indexes w' = indexes w0
              \/ exists a w1, indexes w1 = indexes w0 /\ k a w1 = (r, w')).
  { intros A m k w0 Hm Hb.
    apply bind_cases in Hb as [(a & w1 & Hmw & Hk)|(r0 & Hmw & _)].
    - right. exists a, w1. split; [exact (Hm _ _ _ Hmw)|exact Hk].
    - left. exact (Hm _ _ _ Hmw). }
  apply Hprefix in H as [Hx|([] & w1 & Hx1 & H)]; [now left| |same_indexes_step].
  apply Hprefix in H as [Hx|(api_key & w2 & Hx2 & H)];
    [left; congruence| |same_indexes_step].
  apply Hprefix in H as [Hx|(pc & w3 & Hx3 & H)];
    [left; congruence| |unfold Pinecone_new; same_indexes_step].
  apply Hprefix in H as [Hx|(emb & w4 & Hx4 & H)];
    [left; congruence|
    |unfold getEmbeddingModel, FastEmbedEmbeddings_new; repeat same_indexes_step].
  apply bind_cases in H as [(infos & w5 & Hl & H)|(r0 & Hl & _)].
  2:{ left. unfold list_indexes in Hl.
      assert (Hs : respects same_indexes (list_indexes pc))
        by (unfold list_indexes; same_indexes_step).
      rewrite (Hs _ _ _ Hl). congruence. }
  apply list_indexes_ok in Hl as [-> Hx5]. cbv zeta in H.
  assert (Hw4 : indexes w4 = indexes w) by congruence.
  rewrite in_existing_indexes, Hw4, Hi in H. cbn [negb] in H.
  assert (Hsuffix :
            forall emb0 v r1 v',
              (index <- pc_Index pc name ;; PineconeVectorStore_new index emb0) v
              = (r1, v') -> indexes v' = indexes v).
  { intros emb0 v r1 v'.
    assert (Hs : respects same_indexes
                          (index <- pc_Index pc name ;;
                           PineconeVectorStore_new index emb0))
      by (unfold pc_Index, PineconeVectorStore_new; repeat same_indexes_step).
    apply Hs. }
  apply bind_cases in H as [([] & w6 & Hb & H)|(r0 & Hb & Hn0 & _)].
  - apply Hsuffix in H. rewrite H. clear H.
    apply bind_cases in Hb as [([] & w7 & Hp & Hb)|(r0 & Hp & Hn & _)].
    2:{ inversion Hp; subst. now contradiction (Hn tt). }
    inversion Hp; subst w7. clear Hp.
    apply bind_cases in Hb as [(vs & w8 & Hc & Hb)|(r0 & Hc & _ & Hn)].
    + inversion Hb; subst.
      apply create_vector_store_indexes in Hc
        as [(_ & Hr)|[(_ & _ & Hr)|(_ & _ & chunks & wa & wb & _ & Hx & _)]];
        try (now contradiction (Hr vs)).
      right. split; [reflexivity|]. exists chunks.
      rewrite Hx, indexes_log. congruence.
    + now contradiction (Hn tt).
  - apply bind_cases in Hb as [([] & w7 & Hp & Hb)|(r1 & Hp & Hn & _)].
    2:{ inversion Hp; subst. now contradiction (Hn tt). }
    inversion Hp; subst w7. clear Hp.
    apply bind_cases in Hb as [(vs & w8 & Hc & Hb)|(r1 & Hc & _)].
    { inversion Hb; subst. now contradiction (Hn0 tt). }
    apply create_vector_store_indexes in Hc
      as [(Hx & _)|[(_ & Hx & _)|(_ & _ & chunks & wa & wb & _ & Hx & _)]].
    + left. rewrite Hx, indexes_log. congruence.
    + right. split; [reflexivity|]. exists []. rewrite Hx, indexes_log. congruence.
    + right. split; [reflexivity|]. exists chunks. rewrite Hx, indexes_log. congruence.
Qed.

(** X12.  [get_vector_store] never changes or removes an index that
    exists: after any run, returned or failed, the provider's list is
    the list before, or, when the name was not in it, the list before
    followed by the one new index of that name. *)
Theorem get_vector_store_only_appends
        (fuel : nat) (name : pystr) (pdfs : list pystr) (w : World) :
  indexes (snd (get_vector_store fuel name pdfs w)) = indexes w
  \/ (has_index name (indexes w) = false
      /\ exists chunks,
          indexes (snd (get_vector_store fuel name pdfs w))
          = indexes w ++ [new_index name chunks]).
Proof.
  destruct (get_vector_store fuel name pdfs w) as [r w'] eqn:H.
  exact (get_vector_store_indexes _ _ _ _ _ _ H).
Qed.

(** ** The first call against a ready provider *)

Lemma run_print (A : Type) (msg : pystr) (k : unit -> M A) (w : World) :
  bind (print msg) k w = k tt (log (Printed msg) w).
Proof. reflexivity. Qed.

Lemma run_getenv (A : Type) (name : pystr) (k : option pystr -> M A) (w : World) :
  bind (os_getenv name) k w = k (environ w name) w.
Proof. reflexivity. Qed.

Lemma run_ext (A B : Type) (op : ext_op) (arg : pystr)
      (sem : World -> result A * World) (k : A -> M B) (w : World)
      (a : A) (w1 : World) :
  fault w (clock w) op = None ->
  sem (tick w) = (Ok a, w1) ->
  bind (ext op arg sem) k w = k a (log (Called op arg) w1).
Proof. intros Hf Hs. unfold bind, ext. now rewrite Hf, Hs. Qed.

Lemma extend_chunks_all (pdfs : list pystr) (acc : list Document) (v : World) :
  (forall t op, fault v t op = None) ->
  Forall (fun pdf => resources v (lit "resources/" ++ pdf) <> None) pdfs ->
  exists v',
    extend_chunks pdfs acc v = (Ok (acc ++ all_chunks v pdfs), v')
    /\ indexes v' = indexes v
    /\ fault v' = fault v.
Proof.
  revert acc v. induction pdfs as [|pdf rest IH]; intros acc v Hf Hp.
  - exists v. simpl. unfold ret. now rewrite app_nil_r.
  - inversion Hp as [|? ? Hpdf Hrest]; subst.
    destruct (resources v (lit "resources/" ++ pdf)) as [pages|] eqn:Hres;
      [|now contradiction Hpdf].
    cbn [extend_chunks]. unfold create_chunks, PyPDFLoader_load, split_documents.
    unfold bind at 1.
    erewrite run_ext; [|apply Hf|cbn [resources tick set_clock]; rewrite Hres; reflexivity].
    cbv zeta.
    erewrite run_ext; [|apply Hf|reflexivity].
    unfold ret at 1.
    match goal with
    | |- context [extend_chunks rest ?acc' ?v2] =>
        destruct (IH acc' v2) as (v' & Hrun & Hx & Hfv); [exact Hf|exact Hrest|]
    end.
    exists v'. split; [|split; [exact Hx|exact Hfv]].
    rewrite Hrun. cbn [all_chunks flat_map]. rewrite Hres.
    unfold pdf_chunks. now rewrite <- app_assoc.
Qed.

Lemma describe_index_answer (pc : Pinecone) (name : pystr) (v : World) :
  fault v (clock v) OpDescribeIndex = None ->
  has_index name (indexes v) = true ->
  describe_index pc name v
  = (Ok (mkIndexStatus (ready v (S (clock v)))),
     log (Called OpDescribeIndex name) (tick v)).
Proof.
  intros Hf Hi. unfold describe_index, ext. rewrite Hf, indexes_tick, Hi. reflexivity.
Qed.

Lemma create_vector_store_ready_provider (fuel : nat) (pc : Pinecone) (name : pystr)
      (pdfs : list pystr) (emb : Embedding) (v : World) :
  (forall t op, fault v t op = None) ->
  (forall t, ready v t = true) ->
  has_index name (indexes v) = false ->
  Forall (fun pdf => resources v (lit "resources/" ++ pdf) <> None) pdfs ->
  exists v',
    create_vector_store (S fuel) pc name pdfs emb v = (Ok (mkVectorStore name emb), v')
    /\ indexes v' = indexes v ++ [new_index name (all_chunks v pdfs)]
    /\ fault v' = fault v.
Proof.
  intros Hf Hr Hi Hp. unfold create_vector_store, create_index.
  erewrite run_ext;
    [|apply Hf|cbn [indexes tick set_clock]; rewrite Hi; reflexivity].
  unfold bind at 1.
  erewrite poll_ready;
    [|apply describe_index_answer;
      [apply Hf
      |cbn [indexes log set_indexes tick set_clock]; rewrite has_index_app;
       apply orb_true_iff; right; unfold has_index; simpl;
       now rewrite pystr_eqb_refl]
    |apply Hr].
  rewrite run_print. unfold pc_Index.
  erewrite run_ext; [|apply Hf|reflexivity].
  unfold PineconeVectorStore_new.
  erewrite run_ext; [|apply Hf|reflexivity].
  unfold add_documents_to_vector_store. unfold bind at 1. unfold bind at 1.
  match goal with
  | |- context [extend_chunks pdfs [] ?v2] =>
      destruct (extend_chunks_all pdfs [] v2) as (v3 & Hrun & Hx & Hfv);
        [exact Hf|exact Hp|]
  end.
  rewrite Hrun. unfold add_documents, ext. rewrite Hfv.
  cbn [fault log tick set_clock set_indexes vs_index]. rewrite Hf.
  rewrite indexes_tick, Hx. cbn [indexes log tick set_clock set_indexes].
  fold (new_index name []).
  assert (Hnew : has_index name (indexes v ++ [new_index name []]) = true).
  { rewrite has_index_app. apply orb_true_iff. right. unfold has_index. simpl.
    now rewrite pystr_eqb_refl. }
  rewrite Hnew. unfold ret. eexists. split; [reflexivity|]. split.
  - cbn [indexes log set_indexes]. rewrite (upsert_new_index _ _ _ Hi).
    reflexivity.
  - cbn [fault log set_indexes tick set_clock]. exact Hfv.
Qed.

(** X13.  The first call against a provider that works: when no
    dependency fails, the index is reported ready, the name is new and
    every PDF of the list can be read, [get_vector_store] returns the
    handle, and the provider then holds, after its earlier indexes, the
    new index with the chunks of all the PDFs, in the order of the
    list, each PDF's pages normalised before being split. *)
Theorem first_call_ingests_all_chunks
        (fuel : nat) (name : pystr) (pdfs : list pystr) (w : World) :
  (forall t op, fault w t op = None) ->
  (forall t, ready w t = true) ->
  has_index name (indexes w) = false ->
  Forall (fun pdf => resources w (lit "resources/" ++ pdf) <> None) pdfs ->
  exists w',
    get_vector_store (S fuel) name pdfs w = (Ok (mkVectorStore name mkEmbedding), w')
    /\ indexes w' = indexes w ++ [new_index name (all_chunks w pdfs)].
Proof.
  intros Hf Hr Hi Hp. unfold get_vector_store.
  rewrite run_print, run_getenv. unfold Pinecone_new.
  erewrite run_ext; [|apply Hf|reflexivity].
  unfold getEmbeddingModel, FastEmbedEmbeddings_new.
  unfold bind at 1. rewrite run_print.
  erewrite run_ext; [|apply Hf|reflexivity]. unfold ret at 1.
  unfold list_indexes.
  erewrite run_ext; [|apply Hf|reflexivity]. cbv zeta.
  cbn [indexes log tick set_clock].
  rewrite in_existing_indexes, Hi. cbn [negb].
  unfold bind at 1. rewrite run_print. unfold bind at 1.
  match goal with
  | |- context [create_vector_store (S fuel) ?pc name pdfs ?emb ?v] =>
      destruct (create_vector_store_ready_provider fuel pc name pdfs emb v)
        as (v' & Hrun & Hx & Hfault); [exact Hf|exact Hr|exact Hi|exact Hp|]
  end.
  rewrite Hrun. unfold ret at 1. unfold pc_Index.
  assert (Hfv : forall t op, fault v' t op = None).
  { intros t op. rewrite Hfault. apply Hf. }
  erewrite run_ext; [|apply Hfv|reflexivity].
  unfold PineconeVectorStore_new. unfold ext.
  cbn [fault log tick set_clock clock]. rewrite Hfv.
  eexists. split; [reflexivity|]. exact Hx.
Qed.

Lemma first_call_ingests_all_chunks_witness :
  exists w',
    get_vector_store 1 (lit "icyco") [lit "menu.pdf"] (fresh_world true)
    = (Ok (mkVectorStore (lit "icyco") mkEmbedding), w')
    /\ map (fun ix => map page_content (ix_vectors ix)) (indexes w')
       = [[lit "Icyco offers vanilla, chocolate, and strawberry flavors."]].
Proof.
  destruct (first_call_ingests_all_chunks 0 (lit "icyco") [lit "menu.pdf"]
                                          (fresh_world true))
    as (w' & Hrun & Hx).
  - intros t op. reflexivity.
  - intros t. reflexivity.
  - reflexivity.
  - constructor; [vm_compute; discriminate|constructor].
  - exists w'. split; [exact Hrun|]. rewrite Hx. vm_compute. reflexivity.
Defined.

(** ** [printResponse] *)

Lemma print_documents (docs : list Document) (w : World) :
  exists w',
    for_each docs
      (fun doc =>
         title <- getitem (lit "title") (metadata doc) ;;
         page_label <- getitem (lit "page_label") (metadata doc) ;;
         print (NEWLINE :: title ++ lit ", Page no: " ++ page_label ++ lit ":") ;;
         print (lit "Document content: " ++ page_content doc ++ lit "...")) w
    = (print_outcome docs, w')
    /\ trace w' = trace w ++ flat_map doc_lines (printable_prefix docs)
    /\ indexes w' = indexes w /\ clock w' = clock w.
Proof.
  revert w. induction docs as [|doc docs IH]; intros w.
  - exists w. simpl. rewrite app_nil_r. now repeat split.
  - cbn [for_each printable_prefix]. unfold print_outcome. cbn [find].
    unfold printable, missing_key, has_key, doc_lines at 1, getitem at 1 2.
    destruct (dict_get (lit "title") (metadata doc)) as [title|] eqn:Ht.
    2:{ exists w. cbn in Ht |- *. rewrite Ht, app_nil_r. now repeat split. }
    destruct (dict_get (lit "page_label") (metadata doc)) as [page_label|] eqn:Hl.
    2:{ exists w. cbn in Ht, Hl |- *. rewrite Ht, app_nil_r. now repeat split. }
    cbn [andb negb]. unfold bind at 1.
    match goal with
    | |- context [for_each docs ?body] =>
        change ((let (r, w'0) :=
                   (title0 <- ret title ;;
                    page_label0 <- ret page_label ;;
                    print (NEWLINE :: title0 ++ lit ", Page no: " ++ page_label0
                             ++ lit ":") ;;
                    print (lit "Document content: " ++ page_content doc
                             ++ lit "...")) w in
                 match r with
                 | Ok a => for_each docs body w'0
                 | Raise e => (Raise e, w'0)
                 | Pending => (Pending, w'0)
                 end))
          with (for_each docs body
                  (log (Printed (lit "Document content: " ++ page_content doc
                                   ++ lit "..."))
                       (log (Printed (NEWLINE :: title ++ lit ", Page no: "
                                        ++ page_label ++ lit ":")) w)))
    end.
    match goal with
    | |- context [for_each docs _ ?v] =>
        destruct (IH v) as (w' & Hrun & Htr & Hx & Hc)
    end.
    exists w'. split; [exact Hrun|]. split; [|now split].
    rewrite Htr. cbn [flat_map trace log].
    rewrite Ht, Hl. repeat rewrite <- app_assoc. reflexivity.
Qed.

(** X14.  [printResponse] prints the answer first; without the key
    [source_documents] it raises [KeyError] right after the three
    header lines.  Otherwise it prints two lines for each source
    document up to the first one whose metadata lacks [title] or
    [page_label], where it raises the [KeyError] of the missing key
    ([title] being read first); it returns only if every document has
    both keys.  It calls no dependency and changes nothing but the
    output. *)
Theorem printResponse_outcome (response : Response) (w : World) :
  exists w',
    printResponse response w
    = (match response_source_documents response with
       | Some docs => print_outcome docs
       | None => Raise (KeyError (lit "source_documents"))
       end, w')
    /\ trace w'
       = trace w ++ answer_lines response
           ++ match response_source_documents response with
              | Some docs => flat_map doc_lines (printable_prefix docs)
              | None => []
              end
    /\ indexes w' = indexes w
    /\ clock w' = clock w.
Proof.
  unfold printResponse. rewrite !run_print.
  destruct (response_source_documents response) as [docs|].
  - unfold bind at 1. unfold ret at 1.
    match goal with
    | |- context [for_each docs _ ?v] =>
        destruct (print_documents docs v) as (w' & Hrun & Htr & Hx & Hc)
    end.
    exists w'. split; [exact Hrun|]. split; [|now split].
    rewrite Htr. cbn [trace log]. unfold answer_lines.
    now repeat rewrite <- app_assoc.
  - eexists. split; [reflexivity|]. cbn [trace log]. unfold answer_lines.
    rewrite app_nil_r. repeat rewrite <- app_assoc. now repeat split.
Qed.

(** ** A provider that is not ready at once *)

Lemma reuse_vector_store_returns (name : pystr) (v : World) :
  (forall t op, fault v t op = None) ->
  exists v',
    reuse_vector_store name v = (Ok (mkVectorStore name mkEmbedding), v')
    /\ indexes v' = indexes v.
Proof.
  intros Hf. unfold reuse_vector_store.
  rewrite run_print, run_getenv. unfold Pinecone_new.
  erewrite run_ext; [|apply Hf|reflexivity].
  unfold getEmbeddingModel, FastEmbedEmbeddings_new.
  unfold bind at 1. rewrite run_print.
  erewrite run_ext; [|apply Hf|reflexivity]. unfold ret at 1.
  unfold list_indexes.
  erewrite run_ext; [|apply Hf|reflexivity].
  unfold pc_Index.
  erewrite run_ext; [|apply Hf|reflexivity].
  unfold PineconeVectorStore_new, ext.
  cbn [fault log tick set_clock clock]. rewrite Hf.
  eexists. split; reflexivity.
Qed.

(** X15.  Against a provider that works but does not report the new
    index ready at the first check, the first call of
    [get_vector_store] raises [AttributeError] and leaves the index
    created and empty; every later call with that name, whatever PDFs
    it is given, then returns a handle to this empty index and ingests
    nothing. *)
Theorem failed_wait_leaves_empty_index
        (fuel : nat) (name : pystr) (pdfs : list pystr) (w : World) :
  (forall t op, fault w t op = None) ->
  (forall t, ready w t = false) ->
  has_index name (indexes w) = false ->
  exists w1,
    get_vector_store (S fuel) name pdfs w
    = (Raise (AttributeError "datetime.time" "sleep"), w1)
    /\ indexes w1 = indexes w ++ [new_index name []]
    /\ forall fuel2 pdfs2,
        exists w2,
          get_vector_store fuel2 name pdfs2 w1
          = (Ok (mkVectorStore name mkEmbedding), w2)
          /\ indexes w2 = indexes w1.
Proof.
  intros Hf Hr Hi. unfold get_vector_store at 1.
  rewrite run_print, run_getenv. unfold Pinecone_new.
  erewrite run_ext; [|apply Hf|reflexivity].
  unfold getEmbeddingModel, FastEmbedEmbeddings_new.
  unfold bind at 1. rewrite run_print.
  erewrite run_ext; [|apply Hf|reflexivity]. unfold ret at 1.
  unfold list_indexes.
  erewrite run_ext; [|apply Hf|reflexivity]. cbv zeta.
  cbn [indexes log tick set_clock].
  rewrite in_existing_indexes, Hi. cbn [negb].
  unfold bind at 1. rewrite run_print. unfold bind at 1.
  unfold create_vector_store, create_index.
  erewrite run_ext;
    [|apply Hf|cbn [indexes tick set_clock log]; rewrite Hi; reflexivity].
  unfold bind at 1.
  erewrite poll_not_ready;
    [|apply describe_index_answer;
      [apply Hf
      |cbn [indexes log set_indexes tick set_clock]; rewrite has_index_app;
       apply orb_true_iff; right; unfold has_index; simpl;
       now rewrite pystr_eqb_refl]
    |apply Hr].
  eexists. split; [reflexivity|]. split; [reflexivity|].
  intros fuel2 pdfs2.
  match goal with
  | |- exists w2, get_vector_store _ _ _ ?v = _ /\ _ =>
      assert (Hv : has_index name (indexes v) = true)
  end.
  { cbn [indexes log set_indexes tick set_clock]. rewrite has_index_app.
    apply orb_true_iff. right. unfold has_index. simpl. now rewrite pystr_eqb_refl. }
  rewrite (get_vector_store_existing _ _ _ _ Hv).
  apply reuse_vector_store_returns. exact Hf.
Qed.

Lemma failed_wait_leaves_empty_index_witness :
  exists w1 w2,
    get_vector_store 1 (lit "icyco") [lit "menu.pdf"] (fresh_world false)
    = (Raise (AttributeError "datetime.time" "sleep"), w1)
    /\ get_vector_store 1 (lit "icyco") [lit "menu.pdf"] w1
       = (Ok (mkVectorStore (lit "icyco") mkEmbedding), w2)
    /\ indexes w2 = [new_index (lit "icyco") []].
Proof.
  destruct (failed_wait_leaves_empty_index 0 (lit "icyco") [lit "menu.pdf"]
                                           (fresh_world false))
    as (w1 & Hrun & Hx & Hlater).
  - intros t op. reflexivity.
  - intros t. reflexivity.
  - reflexivity.
  - destruct (Hlater 1 [lit "menu.pdf"]) as (w2 & Hrun2 & Hx2).
    exists w1, w2. split; [exact Hrun|]. split; [exact Hrun2|].
    rewrite Hx2, Hx. reflexivity.
Defined.
